(** * Product processor: loader, image fetcher, flattener and scraper

    A shallow embedding of the Python package [product_processor]
    (json_utils/loader.py, image_utils/downloader.py,
    csv_utils/generator.py, scraper/scraper.py) together with the
    properties its specification states about it.

    Python values that come out of [json.load] are kept as a small
    inductive type; exceptions are results of an error type; the file
    system, the network and the third-party libraries (json, urllib,
    requests, BeautifulSoup) are interfaces whose answers the functions
    consume. *)

From Stdlib Require Import ZArith String Ascii Bool Lia.
From stdpp Require Import base option list strings gmap pretty.

Set Warnings "-register-all".

Open Scope string_scope.
Open Scope list_scope.
Open Scope Z_scope.

(* ================================================================== *)
(** * Part I: definitions *)
(* ================================================================== *)

(** ** The fragment of Python the package relies on *)
Module Py.

(** Values as [json.load] builds them.  A dict keeps its items in
    insertion order, as Python does; a float is the finite number
    [m * 2^e] (JSON proper has neither NaN nor Infinity). *)
Inductive value : Type :=
| VNone
| VBool (b : bool)
| VInt (z : Z)
| VFloat (m e : Z)
| VStr (s : string)
| VList (l : list value)
| VDict (d : list (string * value)).

(** The exceptions that the modelled code can meet. *)
Inductive exn : Type :=
| TypeError
| AttributeError
| KeyError
| IndexError
| ValueError
| FileNotFoundError
| JSONDecodeError
| OSError.

(** A computation either returns or raises. *)
Inductive res (A : Type) : Type :=
| Ok (a : A)
| Raise (e : exn).
Arguments Ok {A} a.
Arguments Raise {A} e.

Definition bind {A B} (c : res A) (k : A -> res B) : res B :=
  match c with
  | Ok a => k a
  | Raise e => Raise e
  end.

Definition is_ok {A} (c : res A) : bool :=
  match c with Ok _ => true | Raise _ => false end.

(** [bool(v)] *)
Definition truthy (v : value) : bool :=
  match v with
  | VNone => false
  | VBool b => b
  | VInt z => negb (z =? 0)
  | VFloat m _ => negb (m =? 0)
  | VStr s => negb (String.eqb s "")
  | VList l => match l with [] => false | _ => true end
  | VDict d => match d with [] => false | _ => true end
  end.

(** [isinstance(v, str)] *)
Definition is_str (v : value) : bool :=
  match v with VStr _ => true | _ => false end.

(** Only the immutable scalars can be dict keys. *)
Definition hashable (v : value) : bool :=
  match v with
  | VList _ | VDict _ => false
  | _ => true
  end.

(** Numbers compare by value across bool, int and float:
    [True == 1 == 1.0]. *)
Definition num_of (v : value) : option (Z * Z) :=
  match v with
  | VBool b => Some (if b then 1 else 0, 0)
  | VInt z => Some (z, 0)
  | VFloat m e => Some (m, e)
  | _ => None
  end.

Definition num_eqb (a b : Z * Z) : bool :=
  let lo := Z.min (snd a) (snd b) in
  fst a * 2 ^ (snd a - lo) =? fst b * 2 ^ (snd b - lo).

(** [==] on hashable values, the comparison a dict applies to keys. *)
Definition key_eqb (a b : value) : bool :=
  match a, b with
  | VNone, VNone => true
  | VStr s, VStr t => String.eqb s t
  | _, _ =>
      match num_of a, num_of b with
      | Some x, Some y => num_eqb x y
      | _, _ => false
      end
  end.

(** Dicts as association lists in insertion order. [assoc_get] is
    [d.get(k)]; [assoc_set] is [d[k] = v], which keeps the position of a
    key that is already there and appends a new one. *)
Fixpoint assoc_get {K V} (eqb : K -> K -> bool) (k : K) (d : list (K * V))
  : option V :=
  match d with
  | [] => None
  | (k', v) :: d' => if eqb k' k then Some v else assoc_get eqb k d'
  end.

Fixpoint assoc_set {K V} (eqb : K -> K -> bool) (k : K) (v : V)
  (d : list (K * V)) : list (K * V) :=
  match d with
  | [] => [(k, v)]
  | (k', v') :: d' =>
      if eqb k' k then (k', v) :: d' else (k', v') :: assoc_set eqb k v d'
  end.

(** A product record: a dict with string keys. *)
Definition record : Type := list (string * value).

Definition get (k : string) (p : record) : option value :=
  assoc_get String.eqb k p.

(** [p.get(k, dflt)] *)
Definition get_default (k : string) (dflt : value) (p : record) : value :=
  default dflt (get k p).

(** [p[k] = v] *)
Definition set (k : string) (v : value) (p : record) : record :=
  assoc_set String.eqb k v p.

(** The characters of a string, each as a one-character string. *)
Fixpoint chars (s : string) : list value :=
  match s with
  | EmptyString => []
  | String c s' => VStr (String c EmptyString) :: chars s'
  end.

(** Iteration ([for x in v], [enumerate(v)]): a list yields its elements,
    a string its characters, a dict its keys; anything else raises
    TypeError. *)
Definition iter (v : value) : res (list value) :=
  match v with
  | VList l => Ok l
  | VStr s => Ok (chars s)
  | VDict d => Ok (map (fun kv => VStr (fst kv)) d)
  | _ => Raise TypeError
  end.

(** [len(v)] *)
Definition len (v : value) : res nat :=
  match v with
  | VList l => Ok (length l)
  | VStr s => Ok (String.length s)
  | VDict d => Ok (length d)
  | _ => Raise TypeError
  end.

(** [v[i]] for a natural index [i]. *)
Definition getitem (v : value) (i : nat) : res value :=
  match v with
  | VList l => match l !! i with Some x => Ok x | None => Raise IndexError end
  | VStr s => match chars s !! i with Some x => Ok x | None => Raise IndexError end
  | VDict _ => Raise KeyError
  | _ => Raise TypeError
  end.

(** [s.endswith(suffix)] *)
Definition endswith (s suffix : string) : bool :=
  String.prefix (String.rev suffix) (String.rev s).

(** [c in s] for a character [c]. *)
Fixpoint contains_char (c : ascii) (s : string) : bool :=
  match s with
  | EmptyString => false
  | String c' s' => if Ascii.eqb c' c then true else contains_char c s'
  end.

(** [str(v)] and the [{v}] of an f-string.  The text Python prints for a
    float, a list or a dict is its [repr], which is the interpreter's
    business: it is taken from [repr_other]. *)
Class Repr := { repr_other : value -> string }.

Definition str `{Repr} (v : value) : string :=
  match v with
  | VNone => "None"
  | VBool true => "True"
  | VBool false => "False"
  | VInt z => pretty z
  | VStr s => s
  | _ => repr_other v
  end.

End Py.
Export Py.

Notation "'let*' x ':=' c 'in' k" := (bind c (fun x => k))
  (at level 10, x pattern, c at level 100, k at level 200).

(** [[f(x) for x in l]] where [f] may raise. *)
Fixpoint map_res {A B} (f : A -> res B) (l : list A) : res (list B) :=
  match l with
  | [] => Ok []
  | x :: l' =>
      let* y := f x in
      let* ys := map_res f l' in
      Ok (y :: ys)
  end.


(** ** json_utils/loader.py *)
Module Loader.

(** What [open(...)] followed by reading finds under a name of the
    listed folder: the text of a regular file, or an error (the name is
    a directory, the file may not be read, its bytes are not UTF-8). *)
Inductive entry : Type :=
| RegularFile (text : string)
| Unreadable (e : exn).

(** What a path names: a folder with its entries in the order
    [os.listdir] returns them, or something [os.listdir] raises on. *)
Inductive node : Type :=
| Folder (entries : list (string * entry))
| Unlistable (e : exn).

(** The file system the loader reads: [None] where
    [os.path.exists] is false. *)
Definition filesystem : Type := string -> option node.

(** [json.load]: the parsed value, or [None] for JSONDecodeError. *)
Class Json := { json_load : string -> option value }.

Section Load.
Context `{Json}.

(** The body of [for filename in os.listdir(folder_path)], with
    [all_products] as the accumulator. *)
Fixpoint load_entries (entries : list (string * entry))
  (all_products : list value) : res (list value) :=
  match entries with
  | [] => Ok all_products
  | (filename, e) :: rest =>
      if endswith filename ".json" then
        match e with
        | Unreadable ex => Raise ex
        | RegularFile text =>
            match json_load text with
            | None => Raise JSONDecodeError
            | Some (VList data) => load_entries rest (all_products ++ data)
            | Some (VDict d) => load_entries rest (all_products ++ [VDict d])
            | Some _ => load_entries rest all_products
            end
        end
      else load_entries rest all_products
  end.

Definition load_json_files (fs : filesystem) (folder_path : string)
  : res (list value) :=
  match fs folder_path with
  | None => Raise FileNotFoundError
  | Some (Unlistable ex) => Raise ex
  | Some (Folder entries) => load_entries entries []
  end.

End Load.

(** The loader as the specification words it: what one parsed file
    contributes to the aggregate result. *)
Definition contribution (data : value) : list value :=
  match data with
  | VList l => l
  | VDict d => [VDict d]
  | _ => []
  end.

(** The entries the loader looks at. *)
Definition json_entries (entries : list (string * entry))
  : list (string * entry) :=
  filter (fun ne => endswith (fst ne) ".json" = true) entries.

(** The entry is a regular file whose text parses to [v]. *)
Definition parses_to `{Json} (ne : string * entry) (v : value) : Prop :=
  exists text, snd ne = RegularFile text /\ json_load text = Some v.

(** The entry is a regular file whose text does not parse. *)
Definition malformed `{Json} (ne : string * entry) : Prop :=
  exists text, snd ne = RegularFile text /\ json_load text = None.

Definition regular (ne : string * entry) : Prop :=
  exists text, snd ne = RegularFile text.

End Loader.

(** ** image_utils/downloader.py *)
Module Downloader.

(** [urlparse(url).path]: [None] when [urlparse] raises (ValueError on
    a malformed netloc). *)
Class Urllib := { url_path : string -> option string }.

(** [os.path.basename] on a POSIX path: what follows the last slash. *)
Fixpoint basename (p : string) : string :=
  match p with
  | EmptyString => EmptyString
  | String c p' => if contains_char "/" p then basename p' else p
  end.

(** [os.path.join(a, b)] on POSIX. *)
Definition path_join (a b : string) : string :=
  if String.prefix "/" b then b
  else if String.eqb a "" || endswith a "/" then a +:+ b
  else a +:+ "/" +:+ b.

(** The calls a download makes on the outside world. *)
Inductive event : Type :=
| MakeDirs (path : string)
| HttpGet (url : string)
| OpenForWrite (path : string)
| Write (path : string) (content : string).

(** The outside world's answer to one call of [download_image]: how far
    the download gets. *)
Inductive reply : Type :=
| MkdirFails
| RequestFails
| OpenFails
| WriteFails (written : string)
| Fetched (body : string).

Section Download.
Context `{Repr} `{Urllib}.

(** The file name [download_image] derives from the URL's path. *)
Definition derive_filename (path : string) (product_id : value)
  (index : nat) : string :=
  let filename := basename path in
  let filename :=
    if String.eqb filename "" || negb (contains_char "." filename)
    then "image_" +:+ str product_id +:+ "_" +:+ pretty index +:+ ".jpg"
    else filename in
  if truthy product_id then str product_id +:+ "_" +:+ filename
  else filename.

(** [download_image(url, output_dir, product_id, index)]: the pair it
    returns and the calls it made.  Both [except] clauses return
    [(url, "")]; [urlparse] raises on a URL that is no string. *)
Definition download_image (r : reply) (url : value) (output_dir : string)
  (product_id : value) (index : nat) : (value * string) * list event :=
  if negb (truthy url) then ((url, ""), [])
  else
    match r with
    | MkdirFails => ((url, ""), [MakeDirs output_dir])
    | _ =>
        match url with
        | VStr u =>
            match url_path u with
            | None => ((url, ""), [MakeDirs output_dir])
            | Some path =>
                let filename := derive_filename path product_id index in
                let output_path := path_join output_dir filename in
                match r with
                | MkdirFails => ((url, ""), [MakeDirs output_dir])
                | RequestFails =>
                    ((url, ""), [MakeDirs output_dir; HttpGet u])
                | OpenFails =>
                    ((url, ""),
                     [MakeDirs output_dir; HttpGet u; OpenForWrite output_path])
                | WriteFails written =>
                    ((url, ""),
                     [MakeDirs output_dir; HttpGet u; OpenForWrite output_path;
                      Write output_path written])
                | Fetched body =>
                    ((url, output_path),
                     [MakeDirs output_dir; HttpGet u; OpenForWrite output_path;
                      Write output_path body])
                end
            end
        | _ => ((url, ""), [MakeDirs output_dir])
        end
    end.

(** A download task: [(url, output_dir, product_id, i)]. *)
Definition task : Type := value * string * value * nat.

Definition product_id_of (product : record) : value :=
  get_default "product_id" (VStr "unknown") product.

Definition image_urls_of (product : record) : value :=
  get_default "image_urls" (VList []) product.

(** The tasks of one product: [for i, url in enumerate(image_urls)]. *)
Definition product_tasks (output_dir : string) (product : record)
  : res (list task) :=
  let* urls := iter (image_urls_of product) in
  Ok (imap (fun i url => (url, output_dir, product_id_of product, i)) urls).

(** The first loop: the list of all download tasks. *)
Fixpoint collect_tasks (output_dir : string) (products : list record)
  (download_tasks : list task) : res (list task) :=
  match products with
  | [] => Ok download_tasks
  | product :: rest =>
      let* ts := product_tasks output_dir product in
      collect_tasks output_dir rest (download_tasks ++ ts)
  end.

(** [results]: product id -> (url -> local path). *)
Definition results_t : Type := list (value * list (value * string)).

(** The body of [for future in future_to_url], given what the future
    returned.  A TypeError for an unhashable key is caught by the
    [except Exception] around it. *)
Definition collect_result (results : results_t) (product_id url : value)
  (local_path : string) : results_t :=
  if String.eqb local_path "" then results
  else if negb (hashable product_id) then results
  else
    let results1 :=
      match assoc_get key_eqb product_id results with
      | None => assoc_set key_eqb product_id [] results
      | Some _ => results
      end in
    if negb (hashable url) then results1
    else
      let inner := default [] (assoc_get key_eqb product_id results1) in
      assoc_set key_eqb product_id (assoc_set key_eqb url local_path inner)
        results1.

(** The futures in submission order with what each returned. *)
Definition collect_results (runs : list (task * string)) : results_t :=
  fold_left
    (fun results run =>
       match run with
       | ((url, _, product_id, _), local_path) =>
           collect_result results product_id url local_path
       end)
    runs [].

(** [results[product_id].get(url, "")] *)
Definition lookup_path (inner : list (value * string)) (url : value)
  : res value :=
  if hashable url
  then Ok (VStr (default "" (assoc_get key_eqb url inner)))
  else Raise TypeError.

(** The body of the last loop, [for product in products]. *)
Definition update_product (results : results_t) (product : record)
  : res record :=
  let product_id := product_id_of product in
  if hashable product_id then
    match assoc_get key_eqb product_id results with
    | Some inner =>
        let* urls := iter (image_urls_of product) in
        let* local_image_paths := map_res (lookup_path inner) urls in
        Ok (set "local_image_paths" (VList local_image_paths) product)
    | None => Ok product
    end
  else Raise TypeError.

(** What the pool's workers did: for each task, in submission order,
    what [download_image] returned and the calls it made.  [replies i]
    is the world's answer to the i-th task submitted.  The workers run
    side by side, so the calls of different tasks interleave in an order
    that is not fixed; they are kept per task. *)
Definition run_pool (replies : nat -> reply) (download_tasks : list task)
  : list ((value * string) * list event) :=
  imap
    (fun n t =>
       match t with
       | (url, output_dir, product_id, i) =>
           download_image (replies n) url output_dir product_id i
       end)
    download_tasks.

(** [download_product_images(products, output_dir, max_workers)]: what
    it returns or raises, and the calls of each task.
    [ThreadPoolExecutor] raises ValueError unless [max_workers > 0].
    The Python code updates the dicts of [products] in place and returns
    the same list; the update of a dict reads only its [product_id] and
    [image_urls], which the function never writes, so a dict listed
    twice gets the same update twice and the records can be kept as
    values. *)
Definition download_product_images (replies : nat -> reply)
  (products : list record) (output_dir : string) (max_workers : Z)
  : res (list record) * list (list event) :=
  match products with
  | [] => (Ok products, [])
  | _ =>
      match collect_tasks output_dir products [] with
      | Raise e => (Raise e, [])
      | Ok download_tasks =>
          if max_workers <=? 0 then (Raise ValueError, [])
          else
            let outcomes := run_pool replies download_tasks in
            let results :=
              collect_results
                (zip_with (fun t d => (t, snd (fst d))) download_tasks outcomes) in
            (map_res (update_product results) products, map snd outcomes)
      end
  end.

(** *** Vocabulary of the fetcher's specification *)

(** The identity and image fields of the record have the shapes of the
    data model: [product_id] is a string and [image_urls] a list of
    strings, where present. *)
Definition typed_images (product : record) : bool :=
  match get "product_id" product with
  | None | Some (VStr _) => true
  | _ => false
  end
  && match get "image_urls" product with
     | None => true
     | Some (VList urls) => forallb is_str urls
     | _ => false
     end.

(** The record can go through the fetcher without a TypeError: its
    [image_urls] can be iterated, and its product id and its URLs can
    be dict keys. *)
Definition fetchable (product : record) : bool :=
  hashable (product_id_of product) &&
  match iter (image_urls_of product) with
  | Ok urls => forallb hashable urls
  | Raise _ => false
  end.

(** The URLs of a record, in order. *)
Definition urls_of (product : record) : list value :=
  match iter (image_urls_of product) with
  | Ok urls => urls
  | Raise _ => []
  end.

(** Every (record, position) of the batch in order. *)
Definition all_tasks (output_dir : string) (products : list record)
  : list task :=
  flat_map
    (fun p => imap (fun i url => (url, output_dir, product_id_of p, i))
                (urls_of p))
    products.

(** One download as the specification sees it: the product id, the URL
    and the local path that came back (empty when the download failed or
    was skipped). *)
Definition attempt : Type := value * value * string.

Definition attempts (replies : nat -> reply) (output_dir : string)
  (products : list record) : list attempt :=
  imap
    (fun n t =>
       match t with
       | (url, od, product_id, i) =>
           (product_id, url,
            snd (fst (download_image (replies n) url od product_id i)))
       end)
    (all_tasks output_dir products).

(** The attempt is a successful download for this product id. *)
Definition succeeded_for (product_id : value) (a : attempt) : bool :=
  negb (String.eqb (snd a) "") && key_eqb (fst (fst a)) product_id.

(** ... and of this URL. *)
Definition succeeded_for_url (product_id url : value) (a : attempt) : bool :=
  succeeded_for product_id a && key_eqb (snd (fst a)) url.

(** Some download of the batch succeeded for this product id. *)
Definition has_download (outcomes : list attempt) (product_id : value) : bool :=
  existsb (succeeded_for product_id) outcomes.

(** The local path of the last successful download of the URL for the
    product id, the empty string when there is none. *)
Definition recorded_path (outcomes : list attempt) (product_id url : value)
  : string :=
  default ""
    (snd <$> last (filter (fun a => succeeded_for_url product_id url a = true)
                     outcomes)).

(** What the future of a task returned, as an attempt. *)
Definition to_attempt (run : task * string) : attempt :=
  match run with
  | ((url, _, product_id, _), local_path) => (product_id, url, local_path)
  end.

(** The link between the [results] dict and the successful downloads. *)
Definition results_match (results : results_t) (outcomes : list attempt) : Prop :=
  forall product_id,
    match assoc_get key_eqb product_id results with
    | None => has_download outcomes product_id = false
    | Some inner =>
        has_download outcomes product_id = true /\
        forall url,
          assoc_get key_eqb url inner
          = snd <$> last (filter
                            (fun a => succeeded_for_url product_id url a = true)
                            outcomes)
    end.

End Download.
End Downloader.

(** ** csv_utils/generator.py *)
Module Generator.

(** [str.title] and [str.lower], which follow the Unicode tables. *)
Class Strlib := {
  title : string -> string;
  lower : string -> string
}.

(** [sep.join(parts)] *)
Fixpoint join (sep : string) (parts : list string) : string :=
  match parts with
  | [] => ""
  | [x] => x
  | x :: rest => x +:+ sep +:+ join sep rest
  end.

(** [s.replace(' ', '-')] *)
Fixpoint replace_spaces (s : string) : string :=
  match s with
  | EmptyString => EmptyString
  | String c s' =>
      String (if Ascii.eqb c " " then "-"%char else c) (replace_spaces s')
  end.

(** A CSV file as [csv.DictWriter] leaves it: the header row and one
    line of cells per row.  Delimiters and quoting are the csv module's
    business. *)
Record csv_file : Type := {
  header : list string;
  lines : list (list string)
}.

(** The disk the exporter writes to: the files by path, and the paths
    [open(path, "w")] succeeds on (the parent folder is there and may be
    written to). *)
Record disk : Type := {
  files : gmap string csv_file;
  writable : string -> bool
}.

Definition weights_keys : list string :=
  ["gram"; "eighth_ounce"; "quarter_ounce"; "half_ounce"; "ounce"].

Definition static_fields : list string :=
  ["brand"; "name"; "description"; "type"; "category"; "weight_options";
   "THC_percent"; "available_for_pickup"; "available_for_delivery";
   "aggregate_rating"; "review_count"].

(** [f"image_{i}"] *)
Definition image_field (i : nat) : string := "image_" +:+ pretty i.

(** [csv_fields] once all the columns are added. *)
Definition csv_fields (max_images : nat) : list string :=
  static_fields
  ++ flat_map (fun w => ["price_" +:+ w; "discounted_price_" +:+ w])
       weights_keys
  ++ (image_field <$> seq 1 max_images)
  ++ ["tags"; "product_link"].

(** The first loop: [max_images = max(max_images, len(p.get("image_urls", [])))]. *)
Fixpoint find_max_images (products : list record) (max_images : nat)
  : res nat :=
  match products with
  | [] => Ok max_images
  | p :: rest =>
      let* n := len (get_default "image_urls" (VList []) p) in
      find_max_images rest (Nat.max max_images n)
  end.

Section Flatten.
Context `{Repr} `{Strlib}.

(** [" - ".join([w.title() for w in p.get("available_weights", [])])] *)
Definition weight_options (p : record) : res string :=
  let* ws := iter (get_default "available_weights" (VList []) p) in
  let* titled :=
    map_res
      (fun w => match w with
                | VStr s => Ok (title s)
                | _ => Raise AttributeError
                end) ws in
  Ok (join " - " titled).

(** The THC percent: the first potency of [inventory_potencies]. *)
Definition thc_percent (p : record) : res string :=
  if truthy (get_default "inventory_potencies" VNone p) then
    let* first := getitem (get_default "inventory_potencies" VNone p) 0 in
    match first with
    | VDict d =>
        Ok (str (get_default "thc_potency" (VStr "") d) +:+ "%")
    | _ => Raise AttributeError
    end
  else Ok "".

(** [f"${p.get(key, '')}" if p.get(key) else ""] *)
Definition price_cell (key : string) (p : record) : string :=
  if truthy (get_default key VNone p)
  then "$" +:+ str (get_default key (VStr "") p)
  else "".

Definition row_prices (p : record) : list (string * value) :=
  flat_map
    (fun w =>
       [("price_" +:+ w, VStr (price_cell ("price_" +:+ w) p));
        ("discounted_price_" +:+ w,
         VStr (price_cell ("discounted_price_" +:+ w) p))])
    weights_keys.

(** [image_urls[i] if i < len(image_urls) else ""] under [image_{i + 1}],
    for [i in range(max_images)]. *)
Definition image_cell (image_urls : value) (i : nat) : res (string * value) :=
  let* n := len image_urls in
  let* cell := if (i <? n)%nat then getitem image_urls i else Ok (VStr "") in
  Ok (image_field (i + 1), cell).

Definition image_cols (max_images : nat) (p : record)
  : res (list (string * value)) :=
  map_res (image_cell (get_default "image_urls" (VList []) p))
    (seq 0 max_images).

(** The loop over [p["brand_special_prices"].values()]. *)
Fixpoint special_labels (specials : list (string * value)) (tags : list value)
  : res (list value) :=
  match specials with
  | [] => Ok tags
  | (_, sp) :: rest =>
      if truthy sp then
        match sp with
        | VDict d =>
            if truthy (get_default "discount_label" VNone d)
            then special_labels rest
                   (tags ++ [get_default "discount_label" VNone d])
            else special_labels rest tags
        | _ => Raise AttributeError
        end
      else special_labels rest tags
  end.

(** [", ".join(tags)] raises TypeError on an item that is no string. *)
Definition tags_str (p : record) : res string :=
  let* tags :=
    if truthy (get_default "brand_special_prices" VNone p) then
      match get_default "brand_special_prices" VNone p with
      | VDict d => special_labels d []
      | _ => Raise AttributeError
      end
    else Ok [] in
  let* texts :=
    map_res
      (fun t => match t with VStr s => Ok s | _ => Raise TypeError end)
      tags in
  Ok (join ", " texts).

(** [p.get(key, '').replace(' ', '-').lower()] *)
Definition slug (key : string) (p : record) : res string :=
  match get_default key (VStr "") p with
  | VStr s => Ok (lower (replace_spaces s))
  | _ => Raise AttributeError
  end.

Definition product_link (p : record) : res string :=
  let* brand := slug "brand" p in
  let* name := slug "name" p in
  Ok ("/shop/menu/products/" +:+ str (get_default "product_id" VNone p)
      +:+ "/" +:+ brand +:+ "-" +:+ name).

(** The body of the second loop: the row dict of one product. *)
Definition csv_row (max_images : nat) (p : record)
  : res (list (string * value)) :=
  let* weights := weight_options p in
  let* thc := thc_percent p in
  let* images := image_cols max_images p in
  let* tags := tags_str p in
  let* link := product_link p in
  Ok ([("brand", get_default "brand" (VStr "") p);
       ("name", get_default "name" (VStr "") p);
       ("description", get_default "description" (VStr "") p);
       ("type", get_default "type" (VStr "") p);
       ("category", get_default "category" (VStr "") p);
       ("weight_options", VStr weights);
       ("THC_percent", VStr thc);
       ("available_for_pickup", get_default "available_for_pickup" (VStr "") p);
       ("available_for_delivery",
        get_default "available_for_delivery" (VStr "") p);
       ("aggregate_rating", get_default "aggregate_rating" (VStr "") p);
       ("review_count", get_default "review_count" (VStr "") p)]
      ++ row_prices p
      ++ images
      ++ [("tags", VStr tags); ("product_link", VStr link)]).

(** The text the csv writer puts in a cell: nothing for [None], [str]
    of anything else. *)
Definition cell_text (v : value) : string :=
  match v with
  | VNone => ""
  | _ => str v
  end.

(** [DictWriter.writerow]: the cells of the row in the order of
    [fieldnames], a missing key giving an empty cell.  (Every key of a
    row built by [csv_row] is among the field names, so the writer's
    check for extra keys never fires.) *)
Definition writerow (fieldnames : list string) (row : list (string * value))
  : list string :=
  (fun k => cell_text (get_default k (VStr "") row)) <$> fieldnames.

(** [generate_csv(products, output_file)]: what it returns or raises,
    and the disk afterwards. *)
Definition generate_csv (products : list record) (output_file : string)
  (d : disk) : res string * disk :=
  match products with
  | [] => (Raise ValueError, d)
  | _ =>
      match
        (let* max_images := find_max_images products 0 in
         let* csv_rows := map_res (csv_row max_images) products in
         Ok (csv_fields max_images, csv_rows))
      with
      | Raise e => (Raise e, d)
      | Ok (fields, csv_rows) =>
          if writable d output_file then
            (Ok output_file,
             {| files :=
                  <[output_file :=
                      {| header := fields;
                         lines := writerow fields <$> csv_rows |}]>
                    (files d);
                writable := writable d |})
          else (Raise OSError, d)
      end
  end.

End Flatten.

(** *** Vocabulary of the flattener's specification *)

(** The number of image URLs of a record. *)
Definition image_count (p : record) : nat :=
  match len (get_default "image_urls" (VList []) p) with
  | Ok n => n
  | Raise _ => 0%nat
  end.

(** [max(len(image_urls))] across the batch. *)
Definition max_image_count (products : list record) : nat :=
  foldr Nat.max 0%nat (image_count <$> products).

(** The columns before the image columns. *)
Definition leading_fields : list string :=
  static_fields
  ++ flat_map (fun w => ["price_" +:+ w; "discounted_price_" +:+ w])
       weights_keys.

(** The field is absent or a string. *)
Definition text_field (k : string) (p : record) : bool :=
  match get k p with
  | None => true
  | Some v => is_str v
  end.

(** A record whose fields, where present, have the shapes of the data
    model: [image_urls] a list, [available_weights] a list of strings,
    [inventory_potencies] a list of dicts, [brand_special_prices] a dict
    of dicts whose [discount_label] is a string, [brand] and [name]
    strings. *)
Definition typed_record (p : record) : bool :=
  match get "image_urls" p with
  | None | Some (VList _) => true
  | _ => false
  end
  && match get "available_weights" p with
     | None => true
     | Some (VList ws) => forallb is_str ws
     | _ => false
     end
  && match get "inventory_potencies" p with
     | None | Some (VList []) | Some (VList (VDict _ :: _)) => true
     | _ => false
     end
  && match get "brand_special_prices" p with
     | None => true
     | Some (VDict d) =>
         forallb
           (fun kv => match snd kv with
                      | VDict sp => text_field "discount_label" sp
                      | _ => false
                      end) d
     | _ => false
     end
  && text_field "brand" p
  && text_field "name" p.

(** The cell of data row [i] under the column named [column]. *)
Definition cell_at (f : csv_file) (i : nat) (column : string)
  : option string :=
  line ← lines f !! i;
  '(j, _) ← list_find (fun name => name = column) (header f);
  line !! j.

End Generator.

(** ** scraper/scraper.py *)
Module Scraper.

(** What the scraper gets from requests, BeautifulSoup and urllib.
    [fetch n url] is the outcome of the [n]-th page request of a scrape,
    made for [url]: the parsed page, or [None] when [requests.get],
    [raise_for_status] or the parser raises.  [select] is [soup.select],
    [None] when it raises (a selector it cannot parse); [attr] is
    [tag.get(name)]. *)
Class Web := {
  soup : Type;
  element : Type;
  fetch : nat -> string -> option soup;
  select : soup -> string -> option (list element);
  attr : element -> string -> option string;
  get_text : element -> string;
  strip : string -> string;
  urljoin : string -> string -> string
}.

(** [l[:k]] *)
Definition slice_to {A} (k : Z) (l : list A) : list A :=
  if 0 <=? k then take (Z.to_nat k) l
  else take (length l - Z.to_nat (- k)) l.

Section Scrape.
Context `{Web}.
Variable base_url : string.

(** [get_page(url)], as the [n]-th request. *)
Definition get_page (n : nat) (url : string) : option soup :=
  fetch n (urljoin base_url url).

(** [extract_product_links]: the absolute URL of every matching link
    that has a non-empty [href]; no links when [select] raises. *)
Definition extract_product_links (page : soup)
  (product_link_selector : string) : list string :=
  match select page product_link_selector with
  | None => []
  | Some matches =>
      omap
        (fun link =>
           match attr link "href" with
           | Some href =>
               if String.eqb href "" then None
               else Some (urljoin base_url href)
           | None => None
           end)
        matches
  end.

(** [[img.get('src') for img in elements if img.get('src')]] *)
Definition image_sources (elements : list element) : list value :=
  omap
    (fun img =>
       match attr img "src" with
       | Some src => if String.eqb src "" then None else Some (VStr src)
       | None => None
       end)
    elements.

(** The loop of [extract_product_data] over [selectors.items()], with
    [product] as the dict being filled; [None] when [select] raises. *)
Fixpoint extract_fields (page : soup) (selectors : list (string * string))
  (product : record) : option record :=
  match selectors with
  | [] => Some product
  | (field, selector) :: rest =>
      match select page selector with
      | None => None
      | Some [] => extract_fields page rest product
      | Some (first :: others) =>
          if String.eqb field "image_urls"
          then extract_fields page rest
                 (set field (VList (image_sources (first :: others))) product)
          else extract_fields page rest
                 (set field (VStr (strip (get_text first))) product)
      end
  end.

(** [extract_product_data]: the [except] clause returns an empty dict. *)
Definition extract_product_data (page : soup)
  (selectors : list (string * string)) : record :=
  default [] (extract_fields page selectors []).

(** The loop of [scrape_products] over the product links; the page of
    the first link is request number [n]. *)
Fixpoint scrape_links (product_selectors : list (string * string))
  (n : nat) (product_links : list string) (products : list record)
  : list record :=
  match product_links with
  | [] => products
  | link :: rest =>
      match get_page n link with
      | None => scrape_links product_selectors (S n) rest products
      | Some product_soup =>
          let product_data :=
            extract_product_data product_soup product_selectors in
          if truthy (VDict product_data)
          then scrape_links product_selectors (S n) rest
                 (products ++ [set "product_url" (VStr link) product_data])
          else scrape_links product_selectors (S n) rest products
      end
  end.

Definition scrape_products (category_url product_link_selector : string)
  (product_selectors : list (string * string)) (max_products : Z)
  : list record :=
  match get_page 0 category_url with
  | None => []
  | Some category_soup =>
      let product_links :=
        extract_product_links category_soup product_link_selector in
      let product_links := slice_to max_products product_links in
      scrape_links product_selectors 1 product_links []
  end.

(** *** Vocabulary of the scraper's specification *)

(** The links the scrape visits, in order. *)
Definition visited_links (category_soup : soup)
  (product_link_selector : string) (max_products : Z) : list string :=
  slice_to max_products
    (extract_product_links category_soup product_link_selector).

(** What a visited link adds to the result when its page is request
    number [n]. *)
Definition link_yield (product_selectors : list (string * string))
  (n : nat) (link : string) : list record :=
  match get_page n link with
  | None => []
  | Some product_soup =>
      match extract_product_data product_soup product_selectors with
      | [] => []
      | product_data => [set "product_url" (VStr link) product_data]
      end
  end.

(** No selector of the map matches anything on the page. *)
Definition nothing_matches (page : soup)
  (product_selectors : list (string * string)) : Prop :=
  Forall (fun fs => select page (snd fs) = Some []) product_selectors.

End Scrape.
End Scraper.

(* ================================================================== *)
(** * Part I, continued: the rest of the package *)
(* ================================================================== *)

(** ** More vocabulary for the loader *)

(** The error loading one [.json] entry ends in, if any: the error of
    [open] or of reading, or the parse error. *)
Definition entry_error `{Loader.Json} (e : Loader.entry) : option exn :=
  match e with
  | Loader.Unreadable ex => Some ex
  | Loader.RegularFile text =>
      match Loader.json_load text with
      | None => Some JSONDecodeError
      | Some _ => None
      end
  end.

(** The entry is a regular file that holds one JSON object. *)
Definition holds_object `{Loader.Json} (ne : string * Loader.entry) : Prop :=
  exists text d,
    snd ne = Loader.RegularFile text /\
    Loader.json_load text = Some (VDict d).

(** ** More vocabulary for the flattener *)

(** The columns that carry a field of the record over as it is. *)
Definition carried_fields : list string :=
  ["brand"; "name"; "description"; "type"; "category";
   "available_for_pickup"; "available_for_delivery";
   "aggregate_rating"; "review_count"].

(** The non-empty discount labels of a [brand_special_prices] dict whose
    values are dicts, in the order of the dict. *)
Definition discount_labels (specials : list (string * value)) : list string :=
  omap
    (fun kv =>
       match snd kv with
       | VDict sp =>
           match get "discount_label" sp with
           | Some (VStr label) =>
               if String.eqb label "" then None else Some label
           | _ => None
           end
       | _ => None
       end)
    specials.

(** The weights of a record whose [available_weights] is a list of
    strings. *)
Definition weights_of (p : record) : list string :=
  match get "available_weights" p with
  | Some (VList ws) =>
      omap (fun w => match w with VStr s => Some s | _ => None end) ws
  | _ => []
  end.

(** The specials of a record whose [brand_special_prices] is a dict. *)
Definition specials_of (p : record) : list (string * value) :=
  match get "brand_special_prices" p with
  | Some (VDict d) => d
  | _ => []
  end.

(** ** main.py: the processing pipeline *)
Module Pipeline.
Import Loader Downloader Generator.

(** The configuration [parse_args] builds for the [process] command:
    [--download-images] is a flag and [--max-workers] an int. *)
Record config : Type := {
  input_dir : string;
  output_csv : string;
  images_dir : string;
  download_images : bool;
  max_workers : Z
}.

(** How a run of the pipeline can fail: with one of the exceptions of
    the modelled fragment, or with the RuntimeError of a dict whose size
    changes while it is iterated. *)
Inductive failure : Type :=
| Raised (e : exn)
| RuntimeError.

Inductive outcome (A : Type) : Type :=
| Done (a : A)
| Failed (f : failure).
Arguments Done {A} a.
Arguments Failed {A} f.

(** The loader returns whatever the files hold; downloader and
    flattener call [.get] on each item, which only a dict has.  The
    items before the first one that is no dict, and that item. *)
Fixpoint leading_records (products : list value)
  : list record * option value :=
  match products with
  | [] => ([], None)
  | VDict d :: rest =>
      (d :: fst (leading_records rest), snd (leading_records rest))
  | v :: _ => ([], Some v)
  end.

Section Process.
Context `{Json} `{Repr} `{Urllib} `{Strlib}.

(** [download_product_images] on what the loader returned: the first
    loop raises AttributeError at an item that is no dict, unless an
    earlier item has already made it raise, and nothing is downloaded. *)
Definition fetch_images (replies : nat -> reply) (products : list value)
  (output_dir : string) (workers : Z)
  : res (list record) * list (list event) :=
  match leading_records products with
  | (records, None) =>
      download_product_images replies records output_dir workers
  | (records, Some _) =>
      (match collect_tasks output_dir records [] with
       | Raise e => Raise e
       | Ok _ => Raise AttributeError
       end, [])
  end.

(** [generate_csv] on what the loader returned: the loop that looks for
    the largest number of images raises at an item that is no dict. *)
Definition write_csv (products : list value) (output_file : string)
  (d : disk) : res string * disk :=
  match leading_records products with
  | (records, None) => generate_csv records output_file d
  | (records, Some _) =>
      (match find_max_images records 0 with
       | Raise e => Raise e
       | Ok _ => Raise AttributeError
       end, d)
  end.

(** [image_mapping]: URL -> local path. *)
Definition mapping_t : Type := list (value * value).

(** The body of the loop that fills [image_mapping], at position [i]:
    [if i < len(local) and local[i]: image_mapping[url] = local[i]]. *)
Definition note_local_path (local : value) (mapping : mapping_t) (i : nat)
  (url : value) : res mapping_t :=
  let* n := len local in
  if (i <? n)%nat then
    let* path := getitem local i in
    if truthy path then
      if hashable url then Ok (assoc_set key_eqb url path mapping)
      else Raise TypeError
    else Ok mapping
  else Ok mapping.

Fixpoint image_mapping (local : value) (i : nat) (urls : list value)
  (mapping : mapping_t) : res mapping_t :=
  match urls with
  | [] => Ok mapping
  | url :: rest =>
      let* mapping' := note_local_path local mapping i url in
      image_mapping local (S i) rest mapping'
  end.

(** [url in image_mapping], for a hashable [url]. *)
Definition mapped (mapping : mapping_t) (url : value) : bool :=
  match assoc_get key_eqb url mapping with
  | Some _ => true
  | None => false
  end.

(** The loop that writes the local paths into the list [image_urls]
    while it iterates over that same list: the list iterator reads
    position [i] of the list as it is then, and the body writes
    position [i].  [steps] bounds the number of iterations by the
    length of the list, which the loop never changes. *)
Fixpoint replace_from (mapping : mapping_t) (steps i : nat)
  (image_urls : list value) : res (list value) :=
  match steps with
  | O => Ok image_urls
  | S steps' =>
      match image_urls !! i with
      | None => Ok image_urls
      | Some url =>
          if hashable url then
            replace_from mapping steps' (S i)
              match assoc_get key_eqb url mapping with
              | Some path => <[i := path]> image_urls
              | None => image_urls
              end
          else Raise TypeError
      end
  end.

(** The body of [for product in products] after the download.  A
    record without [image_urls] iterates over a fresh empty list and is
    left as it is.  Assigning to a position of a string raises
    TypeError; assigning under an int key to a dict read from JSON, whose
    keys are strings, adds a key, and the iteration over the dict then
    raises RuntimeError. *)
Definition localise (product : record) : outcome record :=
  match get "local_image_paths" product with
  | None => Done product
  | Some local =>
      match get "image_urls" product with
      | None => Done product
      | Some image_urls =>
          match
            (let* urls := iter image_urls in image_mapping local 0 urls [])
          with
          | Raise e => Failed (Raised e)
          | Ok mapping =>
              match image_urls with
              | VList l =>
                  match replace_from mapping (length l) 0 l with
                  | Ok l' => Done (set "image_urls" (VList l') product)
                  | Raise e => Failed (Raised e)
                  end
              | VStr s =>
                  if existsb (mapped mapping) (chars s)
                  then Failed (Raised TypeError)
                  else Done product
              | VDict d =>
                  if existsb (fun kv => mapped mapping (VStr (fst kv))) d
                  then Failed RuntimeError
                  else Done product
              | _ => Failed (Raised TypeError)
              end
          end
      end
  end.

Fixpoint localise_all (products : list record) : outcome (list record) :=
  match products with
  | [] => Done []
  | product :: rest =>
      match localise product with
      | Failed f => Failed f
      | Done product' =>
          match localise_all rest with
          | Failed f => Failed f
          | Done rest' => Done (product' :: rest')
          end
      end
  end.

(** [process_products(config)]: how it ends, the calls of each download
    task and the disk afterwards.  The lists and dicts the loader
    returns come fresh out of [json.load], no two records share a list,
    so the in-place updates can be kept as values. *)
Definition process_products (fs : filesystem) (replies : nat -> reply)
  (cfg : config) (d : disk) : outcome unit * list (list event) * disk :=
  match load_json_files fs (input_dir cfg) with
  | Raise e => (Failed (Raised e), [], d)
  | Ok products =>
      if download_images cfg then
        match
          fetch_images replies products (images_dir cfg) (max_workers cfg)
        with
        | (Raise e, calls) => (Failed (Raised e), calls, d)
        | (Ok records, calls) =>
            match localise_all records with
            | Failed f => (Failed f, calls, d)
            | Done records' =>
                match generate_csv records' (output_csv cfg) d with
                | (Raise e, d') => (Failed (Raised e), calls, d')
                | (Ok _, d') => (Done tt, calls, d')
                end
            end
        end
      else
        match write_csv products (output_csv cfg) d with
        | (Raise e, d') => (Failed (Raised e), [], d')
        | (Ok _, d') => (Done tt, [], d')
        end
  end.

End Process.

(** *** Vocabulary of the pipeline's properties *)

(** What the image cell of a URL shows after a run with downloads: the
    local path when one was recorded, the URL itself otherwise. *)
Definition shown_image (local_path : string) (url : value) : value :=
  if String.eqb local_path "" then url else VStr local_path.

End Pipeline.

(** ** Concrete inputs *)

(** A stand-in for [json.load] that knows a handful of texts. *)
Definition sample_json : Loader.Json :=
  {| Loader.json_load text :=
       if String.eqb text "[{},{}]" then Some (VList [VDict []; VDict []])
       else if String.eqb text "{}" then Some (VDict [])
       else if String.eqb text "7" then Some (VInt 7)
       else None |}.

Definition sample_entries : list (string * Loader.entry) :=
  [("a.json", Loader.RegularFile "[{},{}]");
   ("notes.txt", Loader.RegularFile "hello");
   ("b.json", Loader.RegularFile "7");
   ("c.json", Loader.RegularFile "{}")].

Definition broken_entries : list (string * Loader.entry) :=
  [("a.json", Loader.RegularFile "{}");
   ("b.json", Loader.RegularFile "{oops")].

Definition sample_fs : Loader.filesystem :=
  fun path =>
    if String.eqb path "data" then Some (Loader.Folder sample_entries)
    else if String.eqb path "broken" then Some (Loader.Folder broken_entries)
    else None.

(** A stand-in for the interpreter's [repr]. *)
Definition sample_repr : Repr := {| repr_other _ := "<repr>" |}.

(** A stand-in for [urlparse(url).path], good for URLs of the form
    [scheme://host/path]: what starts at the first slash after the
    double slash. *)
Fixpoint after_double_slash (s : string) : string :=
  match s with
  | String "/" (String "/" rest) => rest
  | String _ rest => after_double_slash rest
  | EmptyString => EmptyString
  end.

Fixpoint from_first_slash (s : string) : string :=
  match s with
  | EmptyString => EmptyString
  | String c rest => if Ascii.eqb c "/" then s else from_first_slash rest
  end.

Definition sample_urllib : Downloader.Urllib :=
  {| Downloader.url_path u := Some (from_first_slash (after_double_slash u)) |}.

(** Two records: the first has two images, the second one. *)
Definition flower : record :=
  [("product_id", VStr "p1");
   ("name", VStr "Flower");
   ("image_urls",
    VList [VStr "http://shop.test/img/a.jpg"; VStr "http://shop.test/img/b"])].

Definition gummies : record :=
  [("product_id", VStr "p2");
   ("name", VStr "Gummies");
   ("image_urls", VList [VStr "http://shop.test/img/c.png"])].

(** The first download of the batch succeeds and every other one meets
    a network error. *)
Definition first_only : nat -> Downloader.reply :=
  fun n =>
    match n with
    | O => Downloader.Fetched "JPEGDATA"
    | S _ => Downloader.RequestFails
    end.

(** ASCII stand-ins for [str.lower] and [str.title]. *)
Definition lower_char (c : ascii) : ascii :=
  let n := nat_of_ascii c in
  if (65 <=? n)%nat && (n <=? 90)%nat then ascii_of_nat (n + 32) else c.

Definition upper_char (c : ascii) : ascii :=
  let n := nat_of_ascii c in
  if (97 <=? n)%nat && (n <=? 122)%nat then ascii_of_nat (n - 32) else c.

Definition is_letter (c : ascii) : bool :=
  let n := nat_of_ascii (lower_char c) in (97 <=? n)%nat && (n <=? 122)%nat.

Fixpoint lower_ascii (s : string) : string :=
  match s with
  | EmptyString => EmptyString
  | String c s' => String (lower_char c) (lower_ascii s')
  end.

Fixpoint title_ascii (word_start : bool) (s : string) : string :=
  match s with
  | EmptyString => EmptyString
  | String c s' =>
      String (if word_start then upper_char c else lower_char c)
        (title_ascii (negb (is_letter c)) s')
  end.

Definition sample_strlib : Generator.Strlib :=
  {| Generator.title := title_ascii true; Generator.lower := lower_ascii |}.

(** A disk with no file yet, on which any path can be opened. *)
Definition empty_disk : Generator.disk :=
  {| Generator.files := ∅; Generator.writable := fun _ => true |}.

(** A record whose first potency entry has no [thc_potency]. *)
Definition tincture : record :=
  [("product_id", VStr "p3");
   ("name", VStr "Tincture");
   ("inventory_potencies", VList [VDict [("cbd_potency", VInt 2)]])].

(** A small shop.  A page is named by its URL; an element is the pair
    of its [href] or [src] and its text.  The page of product 2 cannot
    be fetched, and nothing matches on the page of product 3. *)
Definition sample_web : Scraper.Web :=
  {| Scraper.soup := string;
     Scraper.element := string * string;
     Scraper.fetch _ url :=
       if String.eqb url "http://shop.test/p/2" then None
       else if String.prefix "http://shop.test/" url then Some url
       else None;
     Scraper.select page selector :=
       if String.eqb page "http://shop.test/flowers" then
         if String.eqb selector "a.product"
         then Some [("/p/1", "One"); ("/p/2", "Two"); ("/p/3", "Three")]
         else Some []
       else if String.eqb page "http://shop.test/p/1" then
         if String.eqb selector "h1" then Some [("", "Flower")]
         else if String.eqb selector "img"
         then Some [("/img/a.jpg", ""); ("", "")]
         else Some []
       else Some [];
     Scraper.attr el name :=
       if String.eqb name "href" || String.eqb name "src"
       then if String.eqb (fst el) "" then None else Some (fst el)
       else None;
     Scraper.get_text el := snd el;
     Scraper.strip s := s;
     Scraper.urljoin base url :=
       if String.prefix "http" url then url else base +:+ url |}.

Definition sample_selectors : list (string * string) :=
  [("name", "h1"); ("image_urls", "img")].

(** A folder that holds only the [.json] files of [sample_entries]. *)
Definition json_only_fs : Loader.filesystem :=
  fun _ =>
    Some (Loader.Folder
            [("a.json", Loader.RegularFile "[{},{}]");
             ("b.json", Loader.RegularFile "7");
             ("c.json", Loader.RegularFile "{}")]).

(** A folder whose [.json] files hold one object each. *)
Definition object_entries : list (string * Loader.entry) :=
  [("a.json", Loader.RegularFile "{}");
   ("notes.txt", Loader.RegularFile "hello");
   ("c.json", Loader.RegularFile "{}")].

Definition object_fs : Loader.filesystem :=
  fun _ => Some (Loader.Folder object_entries).

(** Every download of the batch meets a network error. *)
Definition all_down : nat -> Downloader.reply :=
  fun _ => Downloader.RequestFails.


(** A record with a price, weights, a potency and specials. *)
Definition priced : record :=
  [("product_id", VStr "p6");
   ("brand", VStr "Acme Farms");
   ("name", VStr "Blue Dream");
   ("category", VNone);
   ("price_gram", VInt 12);
   ("available_weights", VList [VStr "gram"; VStr "eighth ounce"]);
   ("inventory_potencies", VList [VDict [("thc_potency", VStr "21.5")]]);
   ("brand_special_prices",
    VDict [("s1", VDict [("discount_label", VStr "20% off")]);
           ("s2", VDict []);
           ("s3", VDict [("discount_label", VStr "BOGO")])]);
   ("image_urls", VList [VStr "http://shop.test/img/e.jpg"])].

(** A record whose brand is a JSON null. *)
Definition unbranded : record :=
  [("product_id", VStr "p5"); ("brand", VNone); ("name", VStr "Mystery")].

(** The small shop again, with a selector that [select] cannot parse. *)
Definition strict_web : Scraper.Web :=
  {| Scraper.soup := string;
     Scraper.element := string * string;
     Scraper.fetch := @Scraper.fetch sample_web;
     Scraper.select page selector :=
       if String.eqb selector "h1[" then None
       else @Scraper.select sample_web page selector;
     Scraper.attr := @Scraper.attr sample_web;
     Scraper.get_text := @Scraper.get_text sample_web;
     Scraper.strip := @Scraper.strip sample_web;
     Scraper.urljoin := @Scraper.urljoin sample_web |}.

(** A stand-in for [json.load] over files that are named by what they
    hold rather than spelled out. *)
Definition catalogue_json : Loader.Json :=
  {| Loader.json_load text :=
       if String.eqb text "flower" then Some (VDict flower)
       else if String.eqb text "gummies" then Some (VList [VDict gummies])
       else if String.eqb text "nothing" then Some (VList [])
       else if String.eqb text "seven" then Some (VList [VInt 7])
       else None |}.

Definition catalogue_fs : Loader.filesystem :=
  fun path =>
    if String.eqb path "shop" then
      Some (Loader.Folder
              [("flower.json", Loader.RegularFile "flower");
               ("gummies.json", Loader.RegularFile "gummies")])
    else if String.eqb path "bare" then
      Some (Loader.Folder [("none.json", Loader.RegularFile "nothing")])
    else if String.eqb path "odd" then
      Some (Loader.Folder [("odd.json", Loader.RegularFile "seven")])
    else None.

(** A run over the folder [input] that downloads the images. *)
Definition sample_config (input : string) : Pipeline.config :=
  {| Pipeline.input_dir := input;
     Pipeline.output_csv := "out.csv";
     Pipeline.images_dir := "images";
     Pipeline.download_images := true;
     Pipeline.max_workers := 4 |}.

(* ================================================================== *)
(** * Part II: properties *)
(* ================================================================== *)

(** ** Keys and association lists *)

Section KeyEquality.

Lemma num_eqb_scaled a b lo :
  lo <= snd a -> lo <= snd b ->
  num_eqb a b = true <->
  fst a * 2 ^ (snd a - lo) = fst b * 2 ^ (snd b - lo).
Proof.
  intros Ha Hb. unfold num_eqb. rewrite Z.eqb_eq.
  set (m := Z.min (snd a) (snd b)).
  assert (Hm : lo <= m) by (unfold m; lia).
  assert (Hma : m <= snd a) by (unfold m; lia).
  assert (Hmb : m <= snd b) by (unfold m; lia).
  replace (snd a - lo) with ((snd a - m) + (m - lo)) by lia.
  replace (snd b - lo) with ((snd b - m) + (m - lo)) by lia.
  rewrite !Z.pow_add_r by lia. rewrite !Z.mul_assoc.
  assert (Hpos : 2 ^ (m - lo) <> 0) by (apply Z.pow_nonzero; lia).
  split.
  - intros ->. reflexivity.
  - intros Heq. by apply Z.mul_cancel_r in Heq.
Qed.

Lemma num_eqb_sym a b : num_eqb a b = true -> num_eqb b a = true.
Proof.
  unfold num_eqb. rewrite !Z.eqb_eq, (Z.min_comm (snd b)). by intros ->.
Qed.

Lemma num_eqb_trans a b c :
  num_eqb a b = true -> num_eqb b c = true -> num_eqb a c = true.
Proof.
  set (lo := Z.min (snd a) (Z.min (snd b) (snd c))).
  rewrite (num_eqb_scaled a b lo), (num_eqb_scaled b c lo),
    (num_eqb_scaled a c lo) by (unfold lo; lia).
  congruence.
Qed.

Lemma key_eqb_sym a b : key_eqb a b = true -> key_eqb b a = true.
Proof.
  destruct a, b; simpl; try done; try apply num_eqb_sym.
  rewrite !String.eqb_eq. congruence.
Qed.

Lemma key_eqb_trans a b c :
  key_eqb a b = true -> key_eqb b c = true -> key_eqb a c = true.
Proof.
  destruct a, b; simpl; try done; destruct c; simpl; try done;
    try apply num_eqb_trans.
  rewrite !String.eqb_eq. congruence.
Qed.

Lemma key_eqb_refl a : hashable a = true -> key_eqb a a = true.
Proof.
  destruct a; simpl; try done; try (intros _; unfold num_eqb; simpl; lia).
  intros _. apply String.eqb_refl.
Qed.

Lemma str_eqb_sym (a b : string) : String.eqb a b = true -> String.eqb b a = true.
Proof. rewrite !String.eqb_eq. congruence. Qed.

Lemma str_eqb_trans (a b c : string) :
  String.eqb a b = true -> String.eqb b c = true -> String.eqb a c = true.
Proof. rewrite !String.eqb_eq. congruence. Qed.

End KeyEquality.

Section Assoc.
Context {K V : Type} (eqb : K -> K -> bool).
Hypothesis eqb_sym : forall a b, eqb a b = true -> eqb b a = true.
Hypothesis eqb_trans :
  forall a b c, eqb a b = true -> eqb b c = true -> eqb a c = true.

Lemma eqb_rewrite_l a b c : eqb a b = true -> eqb a c = eqb b c.
Proof.
  intros Hab. destruct (eqb a c) eqn:Hac, (eqb b c) eqn:Hbc; try done.
  - rewrite (eqb_trans b a c) in Hbc; [done | by apply eqb_sym | done].
  - rewrite (eqb_trans a b c) in Hac; done.
Qed.

Lemma assoc_get_set (k k' : K) (v : V) d :
  assoc_get eqb k (assoc_set eqb k' v d)
  = if eqb k' k then Some v else assoc_get eqb k d.
Proof.
  induction d as [|[k0 v0] d IH]; simpl; [done |].
  destruct (eqb k0 k') eqn:H0; simpl.
  - rewrite (eqb_rewrite_l k0 k' k H0). by destruct (eqb k' k).
  - rewrite IH. destruct (eqb k0 k) eqn:H1; [| done].
    destruct (eqb k' k) eqn:H2; [| done].
    rewrite (eqb_trans k0 k k') in H0; [done | done | by apply eqb_sym].
Qed.

Lemma assoc_get_proper (k k' : K) (d : list (K * V)) :
  eqb k k' = true -> assoc_get eqb k d = assoc_get eqb k' d.
Proof.
  intros Hk. induction d as [|[k0 v0] d IH]; simpl; [done |].
  rewrite IH.
  destruct (eqb k0 k) eqn:H0, (eqb k0 k') eqn:H1; try done.
  - rewrite (eqb_trans k0 k k') in H1; done.
  - rewrite (eqb_trans k0 k' k) in H0; [done | done | by apply eqb_sym].
Qed.

End Assoc.

Section Records.

Lemma get_set_ne k k' v (p : record) :
  k <> k' -> get k (set k' v p) = get k p.
Proof.
  intros Hne. unfold get, set.
  rewrite (assoc_get_set String.eqb str_eqb_sym str_eqb_trans).
  destruct (String.eqb k' k) eqn:E; [| done].
  apply String.eqb_eq in E. congruence.
Qed.

Lemma get_set_eq k v (p : record) : get k (set k v p) = Some v.
Proof.
  unfold get, set.
  rewrite (assoc_get_set String.eqb str_eqb_sym str_eqb_trans).
  by rewrite String.eqb_refl.
Qed.

End Records.

(** ** Comprehensions that may raise *)

Section MapRes.

Lemma map_res_inv {A B} (f : A -> res B) l ys :
  map_res f l = Ok ys -> Forall2 (fun x y => f x = Ok y) l ys.
Proof.
  revert ys. induction l as [|x l IH]; simpl; intros ys Hys.
  - inversion Hys. constructor.
  - destruct (f x) as [y|] eqn:Hy; [| done]. simpl in Hys.
    destruct (map_res f l) as [ys'|]; [| done]. simpl in Hys.
    inversion Hys. subst. constructor; [done | by apply IH].
Qed.

Lemma map_res_is_ok {A B} (f : A -> res B) l :
  Forall (fun x => is_ok (f x) = true) l -> is_ok (map_res f l) = true.
Proof.
  induction 1 as [|x l Hx _ IH]; simpl; [done |].
  destruct (f x); [| done]. simpl. by destruct (map_res f l).
Qed.

Lemma is_ok_true {A} (c : res A) : is_ok c = true -> exists a, c = Ok a.
Proof. destruct c; [eauto | done]. Qed.

End MapRes.

(** ** The loader *)

Section LoaderProperties.
Import Loader.
Context `{Json}.

Lemma load_entries_ok entries vs acc :
  Forall2 parses_to (json_entries entries) vs ->
  load_entries entries acc = Ok (acc ++ concat (contribution <$> vs)).
Proof.
  revert vs acc. induction entries as [|[name e] rest IH]; intros vs acc Hvs.
  - apply Forall2_nil_inv_l in Hvs as ->. simpl. by rewrite app_nil_r.
  - unfold json_entries in Hvs. rewrite filter_cons in Hvs.
    simpl in Hvs. simpl.
    destruct (endswith name ".json") eqn:Hext.
    + rewrite decide_True in Hvs by done.
      apply Forall2_cons_inv_l in Hvs as (v & vs' & (text & He & Hp) & Hrest & ->).
      simpl in He. subst e. rewrite Hp.
      specialize (IH vs').
      destruct v; simpl; rewrite ?IH by done; try done.
      * by rewrite <- app_assoc.
      * by rewrite <- app_assoc.
    + rewrite decide_False in Hvs by congruence. by apply IH.
Qed.

End LoaderProperties.

Section LoaderClaims.
Import Loader.
Context `{Json}.

Lemma load_entries_malformed entries acc ne :
  ne ∈ entries ->
  endswith (fst ne) ".json" = true ->
  malformed ne ->
  exists e, load_entries entries acc = Raise e /\
            (Forall regular (json_entries entries) -> e = JSONDecodeError).
Proof.
  revert acc. induction entries as [|[name e] rest IH]; intros acc Hin Hext Hbad.
  - by apply elem_of_nil in Hin.
  - unfold json_entries. rewrite filter_cons. simpl.
    apply elem_of_cons in Hin as [-> | Hin].
    + destruct Hbad as (text & He & Hp). simpl in *. subst e.
      rewrite Hext, Hp. eauto.
    + destruct (endswith name ".json") eqn:Hname.
      * rewrite decide_True by done.
        destruct e as [text | ex].
        -- destruct (json_load text) as [v|] eqn:Hp; [| by eauto].
           assert (Hgo : forall acc',
                      exists e0, load_entries rest acc' = Raise e0 /\
                        (Forall regular (filter (fun ne0 => endswith ne0.1 ".json" = true)
                                           ((name, RegularFile text) :: rest)) ->
                         e0 = JSONDecodeError)).
           { intros acc'. destruct (IH acc' Hin Hext Hbad) as (e0 & Hr & Hreg).
             exists e0. split; [done |]. rewrite filter_cons. simpl.
             rewrite decide_True by done. intros Hall.
             apply Hreg. by apply Forall_cons in Hall as [_ ?]. }
           rewrite filter_cons in Hgo. simpl in Hgo.
           rewrite decide_True in Hgo by done.
           destruct v; apply Hgo.
        -- exists ex. split; [done |]. intros Hall.
           apply Forall_cons in Hall as [(text & Habs) _]. discriminate.
      * rewrite decide_False by congruence. by apply IH.
Qed.

(** C3. When some [.json] file of the folder does not parse, the load
    raises, and so returns no records at all, not even those of the
    files read before; and what it raises is the parse error
    (JSONDecodeError), the [.json] entries of the folder being files
    that can be read. *)
Theorem load_json_files_malformed_aborts fs folder_path entries ne :
  fs folder_path = Some (Folder entries) ->
  ne ∈ entries ->
  endswith (fst ne) ".json" = true ->
  malformed ne ->
  (forall all_products, load_json_files fs folder_path <> Ok all_products) /\
  (Forall regular (json_entries entries) ->
   load_json_files fs folder_path = Raise JSONDecodeError).
Proof.
  intros Hfs Hin Hext Hbad. unfold load_json_files. rewrite Hfs.
  destruct (load_entries_malformed entries [] ne Hin Hext Hbad)
    as (e & -> & Hparse).
  split; [done |]. by intros ->%Hparse.
Qed.

(** C6. When every [.json] file of the folder parses, the load returns,
    in the order the folder lists the files, all the elements of a file
    that holds a list (in their order), the one dict of a file that holds
    a dict, and nothing for a file that holds any other JSON value. *)
Theorem load_json_files_contributions fs folder_path entries vs :
  fs folder_path = Some (Folder entries) ->
  Forall2 parses_to (json_entries entries) vs ->
  load_json_files fs folder_path = Ok (concat (contribution <$> vs)).
Proof.
  intros Hfs Hvs. unfold load_json_files. rewrite Hfs.
  by rewrite (load_entries_ok entries vs []).
Qed.

End LoaderClaims.

(** ** Witnesses for the loader *)

Lemma load_json_files_malformed_aborts_witness :
  (forall all_products,
     @Loader.load_json_files sample_json sample_fs "broken"
     <> Ok all_products) /\
  (Forall Loader.regular (Loader.json_entries broken_entries) ->
   @Loader.load_json_files sample_json sample_fs "broken"
   = Raise JSONDecodeError).
Proof.
  apply (@load_json_files_malformed_aborts sample_json sample_fs "broken"
           broken_entries ("b.json", Loader.RegularFile "{oops")).
  - reflexivity.
  - right. left.
  - reflexivity.
  - exists "{oops". split; reflexivity.
Defined.

Lemma load_json_files_contributions_witness :
  @Loader.load_json_files sample_json sample_fs "data"
  = Ok [VDict []; VDict []; VDict []].
Proof.
  apply (@load_json_files_contributions sample_json sample_fs "data"
           sample_entries [VList [VDict []; VDict []]; VInt 7; VDict []]).
  - reflexivity.
  - repeat constructor; eexists; split; reflexivity.
Defined.

(** ** The image fetcher *)

Section DownloaderProperties.
Import Downloader.
Context `{Repr} `{Urllib}.

Lemma typed_images_fetchable p : typed_images p = true -> fetchable p = true.
Proof.
  unfold typed_images, fetchable, product_id_of, image_urls_of, get_default.
  intros [Hid Hurls]%andb_prop.
  destruct (get "product_id" p) as [[]|]; try done; simpl;
    destruct (get "image_urls" p) as [[| | | | |urls|]|]; try done; simpl;
    rewrite forallb_forall in Hurls; apply forallb_forall;
    intros url Hin%Hurls; by destruct url.
Qed.

(** *** The task list *)

Lemma collect_tasks_inv output_dir products acc download_tasks :
  collect_tasks output_dir products acc = Ok download_tasks ->
  download_tasks = acc ++ all_tasks output_dir products.
Proof.
  revert acc. induction products as [|p ps IH]; intros acc; simpl.
  - intros Hok. inversion Hok. by rewrite app_nil_r.
  - unfold product_tasks, all_tasks, urls_of.
    destruct (iter (image_urls_of p)) as [urls|]; [| done]. simpl.
    intros Hok%IH. by rewrite Hok, <- app_assoc.
Qed.

Lemma collect_tasks_all output_dir products acc :
  Forall (fun p => fetchable p = true) products ->
  collect_tasks output_dir products acc
  = Ok (acc ++ all_tasks output_dir products).
Proof.
  intros Hall. revert acc.
  induction Hall as [|p ps Hp _ IH]; intros acc; simpl.
  - by rewrite app_nil_r.
  - unfold product_tasks, all_tasks, urls_of. unfold fetchable in Hp.
    apply andb_prop in Hp as [_ Hp].
    destruct (iter (image_urls_of p)) as [urls|]; [| done]. simpl.
    rewrite IH. by rewrite <- app_assoc.
Qed.

(** *** One download *)

(** Only a URL that is a string can come back with a local path. *)
Lemma download_image_path_str r url output_dir product_id index :
  snd (fst (download_image r url output_dir product_id index)) <> "" ->
  hashable url = true.
Proof.
  unfold download_image. destruct (negb (truthy url)); [done |].
  destruct url; try done; by destruct r.
Qed.

(** *** The results dict *)

Lemma key_eqb_unhashable a b : hashable a = false -> key_eqb a b = false.
Proof. by destruct a. Qed.

Lemma has_download_snoc outcomes a product_id :
  has_download (outcomes ++ [a]) product_id
  = has_download outcomes product_id || succeeded_for product_id a.
Proof. unfold has_download. rewrite existsb_app. simpl. by rewrite orb_false_r. Qed.

Lemma last_filter_snoc (P : attempt -> bool) outcomes a :
  last (filter (fun x => P x = true) (outcomes ++ [a]))
  = if P a then Some a else last (filter (fun x => P x = true) outcomes).
Proof.
  rewrite filter_app, filter_cons, filter_nil.
  destruct (P a) eqn:E.
  - rewrite decide_True by done. by rewrite last_snoc.
  - rewrite decide_False by congruence. by rewrite app_nil_r.
Qed.

Lemma has_download_none_filter outcomes product_id url :
  has_download outcomes product_id = false ->
  filter (fun a => succeeded_for_url product_id url a = true) outcomes = [].
Proof.
  unfold has_download. induction outcomes as [|a outcomes IH]; simpl; [done |].
  intros Hex. apply orb_false_elim in Hex as [Ha Hex].
  rewrite filter_cons, decide_False; [by apply IH |].
  unfold succeeded_for_url. rewrite Ha. simpl. congruence.
Qed.

Lemma succeeded_for_url_eq pid u product_id url local_path :
  succeeded_for_url pid u (product_id, url, local_path)
  = negb (String.eqb local_path "") && key_eqb product_id pid && key_eqb url u.
Proof. reflexivity. Qed.

Lemma succeeded_for_eq pid product_id (url : value) local_path :
  succeeded_for pid (product_id, url, local_path)
  = negb (String.eqb local_path "") && key_eqb product_id pid.
Proof. reflexivity. Qed.

(** An attempt that matches no product id leaves the link as it is. *)
Lemma results_match_skip results outcomes a :
  results_match results outcomes ->
  (forall pid, succeeded_for pid a = false) ->
  results_match results (outcomes ++ [a]).
Proof.
  intros Hinv Hskip pid. specialize (Hinv pid).
  rewrite has_download_snoc, Hskip, orb_false_r.
  destruct (assoc_get key_eqb pid results) as [inner|]; [| done].
  destruct Hinv as [Hhas Hin]. split; [done |]. intros u.
  rewrite (last_filter_snoc (succeeded_for_url pid u)).
  unfold succeeded_for_url at 1. rewrite Hskip. simpl. apply Hin.
Qed.

Lemma results_match_step results outcomes product_id url local_path :
  results_match results outcomes ->
  (local_path <> "" -> hashable url = true) ->
  results_match (collect_result results product_id url local_path)
    (outcomes ++ [(product_id, url, local_path)]).
Proof.
  intros Hinv Hurl. unfold collect_result.
  destruct (String.eqb local_path "") eqn:Hempty.
  { apply results_match_skip; [done |]. intros pid.
    by rewrite succeeded_for_eq, Hempty. }
  destruct (hashable product_id) eqn:Hpid; simpl; cycle 1.
  { apply results_match_skip; [done |]. intros pid.
    by rewrite succeeded_for_eq, (key_eqb_unhashable _ _ Hpid),
      andb_false_r. }
  rewrite Hurl by (by intros ->). simpl.
  intros pid. rewrite has_download_snoc, succeeded_for_eq, Hempty. simpl.
  set (results1 := match assoc_get key_eqb product_id results with
                   | Some _ => results
                   | None => assoc_set key_eqb product_id [] results
                   end).
  rewrite (assoc_get_set key_eqb key_eqb_sym key_eqb_trans).
  destruct (key_eqb product_id pid) eqn:Hsame.
  - rewrite orb_true_r. split; [done |]. intros u.
    rewrite (assoc_get_set key_eqb key_eqb_sym key_eqb_trans).
    rewrite (last_filter_snoc (succeeded_for_url pid u)).
    rewrite succeeded_for_url_eq, Hempty, Hsame. simpl.
    destruct (key_eqb url u); [done |].
    specialize (Hinv pid).
    rewrite <- (assoc_get_proper key_eqb key_eqb_sym key_eqb_trans
                  product_id pid results Hsame) in Hinv.
    unfold results1.
    destruct (assoc_get key_eqb product_id results) as [inner|] eqn:Hget.
    + rewrite Hget. simpl. apply Hinv.
    + rewrite (assoc_get_set key_eqb key_eqb_sym key_eqb_trans).
      rewrite (key_eqb_refl product_id Hpid). simpl.
      by rewrite (has_download_none_filter outcomes pid u Hinv).
  - rewrite orb_false_r.
    assert (Hsame1 : assoc_get key_eqb pid results1
                     = assoc_get key_eqb pid results).
    { unfold results1.
      destruct (assoc_get key_eqb product_id results); [done |].
      rewrite (assoc_get_set key_eqb key_eqb_sym key_eqb_trans).
      by rewrite Hsame. }
    rewrite Hsame1. specialize (Hinv pid).
    destruct (assoc_get key_eqb pid results) as [inner|]; [| done].
    destruct Hinv as [Hhas Hin]. split; [done |]. intros u.
    rewrite (last_filter_snoc (succeeded_for_url pid u)).
    rewrite succeeded_for_url_eq, Hempty, Hsame. simpl. apply Hin.
Qed.

Lemma collect_results_match runs :
  Forall (fun a : attempt => snd a <> "" -> hashable (snd (fst a)) = true)
    (to_attempt <$> runs) ->
  results_match (collect_results runs) (to_attempt <$> runs).
Proof.
  unfold collect_results.
  induction runs as [|[[[[url od] pid] i] lp] runs IH] using rev_ind;
    intros Hall.
  - intros pid. done.
  - rewrite fmap_app in Hall |- *. apply Forall_app in Hall as [Hruns Hlast].
    simpl in Hlast. rewrite Forall_singleton in Hlast. simpl in Hlast.
    rewrite fold_left_app. simpl.
    by apply results_match_step; [apply IH |].
Qed.

Lemma zip_with_imap {A B C} (f : A -> B -> C) (h : nat -> A -> B) l :
  zip_with f l (imap h l) = imap (fun n x => f x (h n x)) l.
Proof.
  revert h. induction l as [|x l IH]; intros h; [done |].
  rewrite !imap_cons. simpl. f_equal. apply IH.
Qed.

Lemma runs_are_attempts replies output_dir products :
  let download_tasks := all_tasks output_dir products in
  to_attempt
    <$> zip_with (fun t d => (t, snd (fst d))) download_tasks
          (run_pool replies download_tasks)
  = attempts replies output_dir products.
Proof.
  simpl. unfold run_pool, attempts. rewrite zip_with_imap, fmap_imap.
  apply imap_ext. by intros n [[[url od] pid] i] _.
Qed.

Lemma attempts_path_str replies output_dir products :
  Forall (fun a : attempt => snd a <> "" -> hashable (snd (fst a)) = true)
    (attempts replies output_dir products).
Proof.
  apply Forall_forall. intros a Ha.
  apply elem_of_lookup_imap_1 in Ha as (n & [[[url od] pid] i] & -> & _).
  simpl. apply download_image_path_str.
Qed.

(** The dict the second loop builds holds the successful downloads of
    the batch. *)
Lemma results_of_pool replies output_dir products :
  results_match
    (collect_results
       (zip_with (fun t d => (t, snd (fst d)))
          (all_tasks output_dir products)
          (run_pool replies (all_tasks output_dir products))))
    (attempts replies output_dir products).
Proof.
  pose proof (collect_results_match
                (zip_with (fun t d => (t, snd (fst d)))
                   (all_tasks output_dir products)
                   (run_pool replies (all_tasks output_dir products)))) as Hm.
  rewrite runs_are_attempts in Hm. apply Hm, attempts_path_str.
Qed.

(** *** The update of one record *)

Lemma map_res_lookup_path inner urls paths :
  map_res (lookup_path inner) urls = Ok paths ->
  paths
  = (fun url => VStr (default "" (assoc_get key_eqb url inner))) <$> urls.
Proof.
  intros Hmap%map_res_inv.
  induction Hmap as [|url path urls paths Hpath _ IH]; [done |].
  unfold lookup_path in Hpath. destruct (hashable url); [| done].
  inversion Hpath. simpl. by rewrite IH.
Qed.

Lemma update_product_inv results outcomes product product' :
  results_match results outcomes ->
  update_product results product = Ok product' ->
  if has_download outcomes (product_id_of product)
  then product' =
       set "local_image_paths"
         (VList ((fun url =>
                    VStr (recorded_path outcomes (product_id_of product) url))
                   <$> urls_of product))
         product
  else product' = product.
Proof.
  intros Hinv. unfold update_product, urls_of.
  destruct (hashable (product_id_of product)); [| done].
  specialize (Hinv (product_id_of product)).
  destruct (assoc_get key_eqb (product_id_of product) results) as [inner|].
  - destruct Hinv as [-> Hin].
    destruct (iter (image_urls_of product)) as [urls|]; [| done]. simpl.
    destruct (map_res (lookup_path inner) urls) as [paths|] eqn:Hpaths;
      [| done].
    simpl. intros Hok. inversion Hok.
    rewrite (map_res_lookup_path _ _ _ Hpaths). do 2 f_equal.
    apply list_fmap_ext. intros _ url _. unfold recorded_path.
    by rewrite Hin.
  - rewrite Hinv. intros Hok. by inversion Hok.
Qed.

Lemma update_product_total results product :
  fetchable product = true -> is_ok (update_product results product) = true.
Proof.
  unfold fetchable, update_product. intros [-> Hurls]%andb_prop.
  destruct (assoc_get key_eqb (product_id_of product) results) as [inner|];
    [| done].
  destruct (iter (image_urls_of product)) as [urls|]; [| done]. simpl.
  assert (Hok : is_ok (map_res (lookup_path inner) urls) = true).
  { apply map_res_is_ok, Forall_forall. intros url Hin%list_elem_of_In.
    rewrite forallb_forall in Hurls. unfold lookup_path.
    by rewrite (Hurls url Hin). }
  apply is_ok_true in Hok as [paths ->]. done.
Qed.

Lemma update_product_frame results p p' :
  update_product results p = Ok p' ->
  forall k, k <> "local_image_paths" -> get k p' = get k p.
Proof.
  unfold update_product. destruct (hashable (product_id_of p)); [| done].
  destruct (assoc_get key_eqb (product_id_of p) results) as [inner|].
  - destruct (iter (image_urls_of p)) as [urls|]; [| done]. simpl.
    destruct (map_res (lookup_path inner) urls) as [paths|]; [| done]. simpl.
    intros Hp' k Hk. inversion Hp'. by apply get_set_ne.
  - intros Hp' k Hk. by inversion Hp'.
Qed.

(** *** The whole operation *)

(** When the operation returns, each record went through the last loop
    against the dict built from the batch. *)
Lemma download_product_images_inv
  replies products output_dir max_workers products' :
  fst (download_product_images replies products output_dir max_workers)
  = Ok products' ->
  Forall2
    (fun p p' =>
       update_product
         (collect_results
            (zip_with (fun t d => (t, snd (fst d)))
               (all_tasks output_dir products)
               (run_pool replies (all_tasks output_dir products))))
         p
       = Ok p')
    products products'.
Proof.
  unfold download_product_images.
  destruct products as [|p0 ps] eqn:Hprod.
  { simpl. intros Hok. inversion Hok. constructor. }
  rewrite <- Hprod.
  destruct (collect_tasks output_dir products []) as [tasks|] eqn:Htasks;
    [| done].
  apply collect_tasks_inv in Htasks. simpl in Htasks. subst tasks.
  destruct (max_workers <=? 0); [done |]. simpl.
  by intros Hok%map_res_inv.
Qed.

Lemma download_product_images_returns
  replies products output_dir max_workers :
  0 < max_workers ->
  Forall (fun p => fetchable p = true) products ->
  exists products',
    fst (download_product_images replies products output_dir max_workers)
    = Ok products'.
Proof.
  intros Hw Hall. unfold download_product_images.
  destruct products as [|p0 ps] eqn:Hprod; [by eauto |].
  rewrite <- Hprod in *.
  rewrite (collect_tasks_all output_dir products [] Hall).
  destruct (max_workers <=? 0) eqn:E; [lia |]. simpl.
  apply is_ok_true, map_res_is_ok.
  eapply Forall_impl; [exact Hall |].
  intros p Hp. by apply update_product_total.
Qed.

End DownloaderProperties.

Section DownloaderClaims.
Import Downloader.
Context `{Repr} `{Urllib}.

Lemma recorded_path_empty outcomes product_id url :
  recorded_path outcomes product_id url = "" <->
  Forall (fun a => succeeded_for_url product_id url a = false) outcomes.
Proof.
  unfold recorded_path.
  induction outcomes as [|a outcomes IH] using rev_ind.
  - split; [constructor | done].
  - rewrite (last_filter_snoc (succeeded_for_url product_id url)).
    rewrite Forall_app, Forall_singleton.
    destruct (succeeded_for_url product_id url a) eqn:E.
    + simpl. split; [| by intros [_ ?]].
      intros Hsnd. unfold succeeded_for_url, succeeded_for in E.
      rewrite Hsnd in E. done.
    + rewrite IH. tauto.
Qed.

(** C1, as amended. The fetcher returns for every batch of records of
    the data model and a positive number of workers, whatever the
    replies of the network: no failed URL aborts the batch.  Whenever
    it returns, it returns one record per record given, and: a record
    for whose product id some download of the batch succeeded gains a
    [local_image_paths] list parallel to its [image_urls], holding at
    each position the local path recorded for that URL under that
    product id, which is the empty string exactly when no download of
    that URL succeeded for that product id; a record for whose product
    id no download succeeded is returned as it was given. *)
Theorem download_product_images_local_paths
  replies products output_dir max_workers :
  let outcomes := attempts replies output_dir products in
  (0 < max_workers ->
   Forall (fun p => fetchable p = true) products ->
   exists products',
     fst (download_product_images replies products output_dir max_workers)
     = Ok products') /\
  (forall products',
     fst (download_product_images replies products output_dir max_workers)
     = Ok products' ->
     Forall2
       (fun p p' =>
          if has_download outcomes (product_id_of p)
          then exists paths,
              p' = set "local_image_paths" (VList paths) p /\
              get "local_image_paths" p' = Some (VList paths) /\
              length paths = length (urls_of p) /\
              forall j url,
                urls_of p !! j = Some url ->
                paths !! j
                = Some (VStr (recorded_path outcomes (product_id_of p) url))
          else p' = p)
       products products') /\
  (forall product_id url,
     recorded_path outcomes product_id url = "" <->
     Forall (fun a => succeeded_for_url product_id url a = false) outcomes).
Proof.
  intros outcomes. split; [| split].
  - apply download_product_images_returns.
  - intros products' Hrel%download_product_images_inv.
    eapply Forall2_impl; [exact Hrel |]. intros p p' Hp. simpl in Hp.
    apply (update_product_inv _ outcomes) in Hp; [| apply results_of_pool].
    destruct (has_download outcomes (product_id_of p)); [| exact Hp].
    eexists. split; [exact Hp |]. subst p'.
    split; [apply get_set_eq |]. split; [by rewrite length_fmap |].
    intros j url Hj. by rewrite list_lookup_fmap, Hj.
  - intros product_id url. apply recorded_path_empty.
Qed.

(** C8. Whenever the fetcher returns, it returns as many records as it
    was given, in the same order, and the record at each position agrees
    with the one given on every field other than [local_image_paths];
    and it does return for records of the data model and a positive
    number of workers. *)
Theorem download_product_images_frame
  replies products output_dir max_workers :
  (0 < max_workers ->
   Forall (fun p => fetchable p = true) products ->
   exists products',
     fst (download_product_images replies products output_dir max_workers)
     = Ok products') /\
  (forall products',
     fst (download_product_images replies products output_dir max_workers)
     = Ok products' ->
     length products' = length products /\
     forall n p p',
       products !! n = Some p ->
       products' !! n = Some p' ->
       forall k, k <> "local_image_paths" -> get k p' = get k p).
Proof.
  split; [apply download_product_images_returns |].
  intros products' Hrel%download_product_images_inv. split.
  - symmetry. by eapply Forall2_length.
  - intros n p p' Hp Hp'.
    pose proof (Forall2_lookup_lr _ _ _ _ _ _ Hrel Hp Hp') as Hupd.
    exact (update_product_frame _ _ _ Hupd).
Qed.

(** C9. Called with a falsy URL, [download_image] returns the URL paired
    with the empty path and makes no call on the outside world: no
    directory is made, nothing is fetched, nothing is written. *)
Theorem download_image_falsy_url r url output_dir product_id index :
  truthy url = false ->
  download_image r url output_dir product_id index = ((url, ""), []).
Proof. intros Hurl. unfold download_image. by rewrite Hurl. Qed.

End DownloaderClaims.

(** ** Witnesses for the image fetcher *)

(** C1, as the claim words it, fails on the code: in a batch whose
    only successful download belongs to the first record, the second
    record comes back without a [local_image_paths] field. *)
Lemma download_product_images_leaves_record_bare :
  fst (@Downloader.download_product_images sample_repr sample_urllib
         first_only [flower; gummies] "images" 10)
  = Ok [set "local_image_paths" (VList [VStr "images/p1_a.jpg"; VStr ""])
          flower;
        gummies]
  /\ get "local_image_paths" gummies = None.
Proof. split; vm_compute; reflexivity. Qed.

(** The names the downloads of the first sample record are saved under:
    the URL's base name, or a synthesized name when it has no extension. *)
Example derive_filename_sample :
  @Downloader.derive_filename sample_repr "/img/a.jpg" (VStr "p1") 0
  = "p1_a.jpg" /\
  @Downloader.derive_filename sample_repr "/img/b" (VStr "p1") 1
  = "p1_image_p1_1.jpg" /\
  @Downloader.derive_filename sample_repr "/img/" VNone 0
  = "image_None_0.jpg".
Proof. vm_compute. done. Qed.

Lemma download_product_images_local_paths_witness :
  let outcomes :=
    @Downloader.attempts sample_repr sample_urllib first_only "images"
      [flower; gummies] in
  exists products',
    fst (@Downloader.download_product_images sample_repr sample_urllib
           first_only [flower; gummies] "images" 10)
    = Ok products' /\
    Forall2
      (fun p p' =>
         if Downloader.has_download outcomes (Downloader.product_id_of p)
         then exists paths,
             p' = set "local_image_paths" (VList paths) p /\
             get "local_image_paths" p' = Some (VList paths) /\
             length paths = length (Downloader.urls_of p) /\
             forall j url,
               Downloader.urls_of p !! j = Some url ->
               paths !! j
               = Some (VStr (Downloader.recorded_path outcomes
                               (Downloader.product_id_of p) url))
         else p' = p)
      [flower; gummies] products'.
Proof.
  destruct (@download_product_images_local_paths sample_repr sample_urllib
              first_only [flower; gummies] "images" 10)
    as (Hret & Hpaths & _).
  destruct Hret as [products' Hres]; [lia | repeat constructor |].
  exists products'. split; [exact Hres |]. exact (Hpaths products' Hres).
Defined.

Lemma download_product_images_frame_witness :
  exists products',
    fst (@Downloader.download_product_images sample_repr sample_urllib
           first_only [flower; gummies] "images" 10)
    = Ok products' /\
    length products' = length [flower; gummies] /\
    forall n p p',
      [flower; gummies] !! n = Some p ->
      products' !! n = Some p' ->
      forall k, k <> "local_image_paths" -> get k p' = get k p.
Proof.
  destruct (@download_product_images_frame sample_repr sample_urllib
              first_only [flower; gummies] "images" 10) as [Hret Hframe].
  destruct Hret as [products' Hres]; [lia | repeat constructor |].
  exists products'. split; [exact Hres |]. exact (Hframe products' Hres).
Defined.

Lemma download_image_falsy_url_witness :
  @Downloader.download_image sample_repr sample_urllib
    (Downloader.Fetched "JPEGDATA") (VStr "") "images" (VStr "p1") 0
  = ((VStr "", ""), []).
Proof.
  apply (@download_image_falsy_url sample_repr sample_urllib).
  reflexivity.
Defined.

(** ** The flattener *)

Section GeneratorProperties.
Import Generator.
Context `{Repr} `{Strlib}.

Lemma find_max_images_spec products acc m :
  find_max_images products acc = Ok m ->
  m = Nat.max acc (max_image_count products).
Proof.
  revert acc. induction products as [|p ps IH]; simpl; intros acc Hm.
  - inversion Hm. unfold max_image_count. simpl. lia.
  - change (max_image_count (p :: ps))
      with (Nat.max (image_count p) (max_image_count ps)).
    unfold image_count.
    destruct (len (get_default "image_urls" (VList []) p)) as [n|]; [| done].
    simpl in Hm. apply IH in Hm. lia.
Qed.

Lemma image_field_inj i j : image_field i = image_field j -> i = j.
Proof.
  unfold image_field. simpl. intros Heq. injection Heq as Heq.
  by apply pretty_nat_inj in Heq.
Qed.

Lemma leading_not_image (s : string) :
  list_find (fun name => name = "image_" +:+ s) leading_fields = None.
Proof.
  apply list_find_None. unfold leading_fields. simpl.
  repeat constructor; discriminate.
Qed.

Lemma find_image_field j m :
  (j < m)%nat ->
  list_find (fun name => name = image_field (j + 1))
    (image_field <$> seq 1 m)
  = Some (j, image_field (j + 1)).
Proof.
  intros Hj. apply list_find_Some. split; [| split; [done |]].
  - rewrite list_lookup_fmap, lookup_seq_lt by done.
    simpl. do 2 f_equal. lia.
  - intros i name Hi Hlt Heq.
    rewrite list_lookup_fmap in Hi.
    destruct (seq 1 m !! i) as [k|] eqn:Hk; [| done].
    apply lookup_seq in Hk as [-> _]. simpl in Hi.
    injection Hi as Hi. rewrite Heq in Hi.
    apply image_field_inj in Hi. lia.
Qed.

Lemma find_image_column j m :
  (j < m)%nat ->
  list_find (fun name => name = image_field (j + 1)) (csv_fields m)
  = Some ((j + length leading_fields)%nat, image_field (j + 1)).
Proof.
  intros Hj. unfold csv_fields.
  change (static_fields ++
          flat_map (fun w => ["price_" +:+ w; "discounted_price_" +:+ w])
            weights_keys ++
          (image_field <$> seq 1 m) ++ ["tags"; "product_link"])
    with (leading_fields ++ ((image_field <$> seq 1 m) ++ ["tags"; "product_link"])).
  rewrite list_find_app_r by apply leading_not_image.
  by rewrite (list_find_app_l _ _ _ j (image_field (j + 1)))
    by by apply find_image_field.
Qed.

(** Reading a key of the row dict that sits at a known position. *)
Lemma get_at_position (row : list (string * value)) j k v :
  row !! j = Some (k, v) ->
  (forall i kv, (i < j)%nat -> row !! i = Some kv -> fst kv <> k) ->
  get k row = Some v.
Proof.
  revert j. induction row as [|[k0 v0] row IH]; intros j Hj Hbefore; [done |].
  unfold get. simpl. destruct j as [|j]; simpl in Hj.
  - inversion Hj. subst. by rewrite String.eqb_refl.
  - destruct (String.eqb k0 k) eqn:E.
    + apply String.eqb_eq in E. by destruct (Hbefore 0%nat (k0, v0)); [lia | |].
    + apply (IH j Hj). intros i kv Hi Hkv.
      apply (Hbefore (S i) kv); [lia | done].
Qed.

Lemma get_past_leading (s : string) (p : record) rest
  (c1 c2 c3 c4 c5 c6 c7 c8 c9 c10 c11 : value) :
  get ("image_" +:+ s)
    ([("brand", c1); ("name", c2); ("description", c3); ("type", c4);
      ("category", c5); ("weight_options", c6); ("THC_percent", c7);
      ("available_for_pickup", c8); ("available_for_delivery", c9);
      ("aggregate_rating", c10); ("review_count", c11)]
     ++ row_prices p ++ rest)
  = get ("image_" +:+ s) rest.
Proof. reflexivity. Qed.

Lemma image_cell_inv image_urls i e :
  image_cell image_urls i = Ok e ->
  fst e = image_field (i + 1) /\
  forall n, len image_urls = Ok n -> (n <= i)%nat -> snd e = VStr "".
Proof.
  unfold image_cell. destruct (len image_urls) as [n|]; [| done]. simpl.
  destruct (i <? n)%nat eqn:Hlt.
  - destruct (getitem image_urls i) as [cell|]; [| done]. simpl.
    intros He. inversion He. split; [done |].
    intros n' Hn' Hle. inversion Hn'. subst. apply Nat.ltb_lt in Hlt. lia.
  - simpl. intros He. inversion He. done.
Qed.

Lemma image_cols_blank max_images p images j :
  image_cols max_images p = Ok images ->
  (image_count p <= j < max_images)%nat ->
  forall tail, get (image_field (j + 1)) (images ++ tail) = Some (VStr "").
Proof.
  intros Himg [Hlo Hhi]. unfold image_cols in Himg.
  apply map_res_inv in Himg.
  assert (Hj : seq 0 max_images !! j = Some j) by by apply lookup_seq_lt.
  destruct (Forall2_lookup_l _ _ _ _ _ Himg Hj) as ([k v] & He & Hcell).
  apply image_cell_inv in Hcell as [Hk Hv]. simpl in Hk, Hv. subst k.
  assert (Hblank : v = VStr "").
  { unfold image_count in Hlo.
    destruct (len (get_default "image_urls" (VList []) p)) as [n|] eqn:Hn.
    - by apply (Hv n).
    - apply Forall2_lookup_lr with (i := j) (x := j) (y := (image_field (j+1), v))
        in Himg; [| done | done].
      unfold image_cell in Himg. by rewrite Hn in Himg. }
  subst v.
  intros tail. apply (get_at_position _ j).
    - by rewrite lookup_app_l by by eapply lookup_lt_Some.
    - intros i kv Hi Hkv Heq.
      rewrite lookup_app_l in Hkv
        by (apply lookup_lt_Some in He; lia).
      destruct (Forall2_lookup_r _ _ _ _ _ Himg Hkv) as (i' & Hi' & Hcell).
      apply lookup_seq in Hi' as [-> _]. simpl in Hcell.
      apply image_cell_inv in Hcell as [Hk _].
      rewrite Hk in Heq. apply image_field_inj in Heq. lia.
Qed.

End GeneratorProperties.

Section GeneratorTotality.
Import Generator.
Context `{Repr} `{Strlib}.

Lemma typed_record_parts p :
  typed_record p = true ->
  match get "image_urls" p with
  | None | Some (VList _) => true
  | _ => false
  end = true /\
  match get "available_weights" p with
  | None => true
  | Some (VList ws) => forallb is_str ws
  | _ => false
  end = true /\
  match get "inventory_potencies" p with
  | None | Some (VList []) | Some (VList (VDict _ :: _)) => true
  | _ => false
  end = true /\
  match get "brand_special_prices" p with
  | None => true
  | Some (VDict d) =>
      forallb
        (fun kv => match snd kv with
                   | VDict sp => text_field "discount_label" sp
                   | _ => false
                   end) d
  | _ => false
  end = true /\
  text_field "brand" p = true /\
  text_field "name" p = true.
Proof.
  unfold typed_record. intros Ht.
  repeat (apply andb_prop in Ht as [Ht ?]). done.
Qed.

Lemma weight_options_typed p :
  typed_record p = true -> is_ok (weight_options p) = true.
Proof.
  intros (_ & Hw & _)%typed_record_parts.
  unfold weight_options, get_default.
  destruct (get "available_weights" p) as [[| | | | |ws|]|]; try done; simpl.
  assert (Hok : is_ok (map_res
                         (fun w => match w with
                                   | VStr s => Ok (title s)
                                   | _ => Raise AttributeError
                                   end) ws) = true).
  { apply map_res_is_ok. rewrite forallb_forall in Hw.
    apply Forall_forall. intros w Hin%list_elem_of_In%Hw. by destruct w. }
  apply is_ok_true in Hok as [titled ->]. done.
Qed.

Lemma thc_percent_typed p :
  typed_record p = true -> is_ok (thc_percent p) = true.
Proof.
  intros (_ & _ & Hp & _)%typed_record_parts.
  unfold thc_percent, get_default.
  destruct (get "inventory_potencies" p) as [[| | | | |[|[] l]|]|]; done.
Qed.

Lemma image_cols_typed max_images p :
  typed_record p = true -> is_ok (image_cols max_images p) = true.
Proof.
  intros (Hi & _)%typed_record_parts.
  unfold image_cols. apply map_res_is_ok, Forall_forall. intros i _.
  unfold image_cell, get_default.
  destruct (get "image_urls" p) as [[| | | | |l|]|]; try done; simpl.
  destruct (i <? length l)%nat eqn:Hlt; [| done].
  apply Nat.ltb_lt in Hlt. apply lookup_lt_is_Some_2 in Hlt as [x ->]. done.
Qed.

Lemma special_labels_typed d tags :
  forallb (fun kv => match snd kv with
                     | VDict sp => text_field "discount_label" sp
                     | _ => false
                     end) d = true ->
  Forall (fun t => is_str t = true) tags ->
  exists tags', special_labels d tags = Ok tags' /\
                Forall (fun t => is_str t = true) tags'.
Proof.
  revert tags. induction d as [|[k sp] d IH]; simpl; intros tags Hd Htags.
  - eauto.
  - apply andb_prop in Hd as [Hsp Hd].
    destruct sp as [| | | | | |spd]; try done.
    unfold text_field, get_default in *.
    destruct (get "discount_label" spd) as [label|] eqn:Hlabel.
    + destruct (truthy (VDict spd)); [| by apply IH]. simpl.
      destruct (truthy label); [| by apply IH].
      apply IH; [done |]. apply Forall_app. split; [done |].
      by apply Forall_singleton.
    + destruct (truthy (VDict spd)); by apply IH.
Qed.

Lemma tags_str_typed p :
  typed_record p = true -> is_ok (tags_str p) = true.
Proof.
  intros (_ & _ & _ & Hs & _)%typed_record_parts.
  unfold tags_str, get_default.
  assert (Hstrs : forall tags,
             Forall (fun t => is_str t = true) tags ->
             is_ok (let* texts :=
                      map_res (fun t => match t with
                                        | VStr s => Ok s
                                        | _ => Raise TypeError
                                        end) tags in
                    Ok (join ", " texts)) = true).
  { intros tags Htags.
    assert (Hok : is_ok (map_res (fun t => match t with
                                           | VStr s => Ok s
                                           | _ => Raise TypeError
                                           end) tags) = true).
    { apply map_res_is_ok. eapply Forall_impl; [exact Htags |].
      by intros []. }
    apply is_ok_true in Hok as [texts ->]. done. }
  destruct (get "brand_special_prices" p) as [[| | | | | |d]|]; try done;
    simpl.
  destruct d as [|kv d]; [done |].
  destruct (special_labels_typed (kv :: d) [] Hs) as (tags & -> & Htags);
    [constructor |].
  by apply Hstrs.
Qed.

Lemma product_link_typed p :
  typed_record p = true -> is_ok (product_link p) = true.
Proof.
  intros (_ & _ & _ & _ & Hb & Hn)%typed_record_parts.
  unfold product_link, slug, text_field, get_default in *.
  destruct (get "brand" p) as [[]|]; try done;
    destruct (get "name" p) as [[]|]; done.
Qed.

Lemma csv_row_typed max_images p :
  typed_record p = true -> is_ok (csv_row max_images p) = true.
Proof.
  intros Hp. unfold csv_row.
  destruct (is_ok_true _ (weight_options_typed p Hp)) as [? ->].
  destruct (is_ok_true _ (thc_percent_typed p Hp)) as [? ->].
  destruct (is_ok_true _ (image_cols_typed max_images p Hp)) as [? ->].
  destruct (is_ok_true _ (tags_str_typed p Hp)) as [? ->].
  destruct (is_ok_true _ (product_link_typed p Hp)) as [? ->].
  done.
Qed.

Lemma find_max_images_typed products acc :
  Forall (fun p => typed_record p = true) products ->
  is_ok (find_max_images products acc) = true.
Proof.
  intros Hall. revert acc.
  induction Hall as [|p ps Hp _ IH]; intros acc; simpl; [done |].
  apply typed_record_parts in Hp as (Hi & _). unfold get_default.
  destruct (get "image_urls" p) as [[| | | | |l|]|]; try done; simpl;
    apply IH.
Qed.

Lemma generate_csv_typed products output_file d :
  products <> [] ->
  Forall (fun p => typed_record p = true) products ->
  writable d output_file = true ->
  exists d', generate_csv products output_file d = (Ok output_file, d').
Proof.
  intros Hne Hall Hw. unfold generate_csv.
  destruct products as [|p0 ps] eqn:Hprod; [done |]. rewrite <- Hprod in *.
  destruct (is_ok_true _ (find_max_images_typed products 0%nat Hall))
    as [m ->]. simpl.
  assert (Hrows : is_ok (map_res (csv_row m) products) = true).
  { apply map_res_is_ok. eapply Forall_impl; [exact Hall |].
    intros p Hp. by apply csv_row_typed. }
  apply is_ok_true in Hrows as [rows ->]. simpl. rewrite Hw. eauto.
Qed.

End GeneratorTotality.

Section GeneratorClaims.
Import Generator.
Context `{Repr} `{Strlib}.

Lemma csv_row_image_get max_images p row (s : string) :
  csv_row max_images p = Ok row ->
  exists images tail,
    image_cols max_images p = Ok images /\
    get ("image_" +:+ s) row = get ("image_" +:+ s) (images ++ tail).
Proof.
  unfold csv_row.
  destruct (weight_options p) as [weights|]; [| done]. simpl.
  destruct (thc_percent p) as [thc|]; [| done]. simpl.
  destruct (image_cols max_images p) as [images|]; [| done]. simpl.
  destruct (tags_str p) as [tags|]; [| done]. simpl.
  destruct (product_link p) as [link|]; [| done]. simpl.
  intros Hrow. inversion Hrow. subst row.
  exists images, [("tags", VStr tags); ("product_link", VStr link)].
  split; [done |]. apply (get_past_leading s p).
Qed.

Lemma cell_at_eq f i column line j :
  lines f !! i = Some line ->
  list_find (fun name => name = column) (header f) = Some (j, column) ->
  cell_at f i column = line !! j.
Proof. intros Hline Hcol. unfold cell_at. rewrite Hline. simpl. by rewrite Hcol. Qed.

(** What a successful export leaves on the disk. *)
Lemma generate_csv_written products output_file d path d' :
  generate_csv products output_file d = (Ok path, d') ->
  exists csv_rows,
    Forall2 (fun p row => csv_row (max_image_count products) p = Ok row)
      products csv_rows /\
    files d' !! output_file
    = Some {| header := csv_fields (max_image_count products);
              lines := writerow (csv_fields (max_image_count products))
                         <$> csv_rows |}.
Proof.
  unfold generate_csv. destruct products as [|p0 ps] eqn:Hprod; [done |].
  rewrite <- Hprod.
  destruct (find_max_images products 0) as [m|] eqn:Hm; [| done]. simpl.
  apply find_max_images_spec in Hm. simpl in Hm. subst m.
  destruct (map_res (csv_row (max_image_count products)) products)
    as [csv_rows|] eqn:Hrows; [| done]. simpl.
  destruct (writable d output_file); [| done].
  intros Hgen. inversion Hgen. subst. simpl.
  exists csv_rows. split; [by apply map_res_inv |]. apply lookup_insert_eq.
Qed.

(** C2. For a non-empty batch the export succeeds as soon as the
    records have the shapes of the data model and the output file can be
    opened; and whenever it succeeds, the header of the file written
    holds one [image_i] column for each [i] from 1 to the largest number
    of image URLs of a record of the batch, between the leading columns
    and [tags], there is one line per record, and a record with fewer
    image URLs has an empty cell in each of its trailing image columns. *)
Theorem generate_csv_image_columns products output_file d :
  products <> [] ->
  (Forall (fun p => typed_record p = true) products ->
   writable d output_file = true ->
   exists d', generate_csv products output_file d = (Ok output_file, d')) /\
  (forall path d',
     generate_csv products output_file d = (Ok path, d') ->
     exists f,
       files d' !! output_file = Some f /\
       header f
       = leading_fields
         ++ (image_field <$> seq 1 (max_image_count products))
         ++ ["tags"; "product_link"] /\
       length (lines f) = length products /\
       forall i p,
         products !! i = Some p ->
         forall j,
           (image_count p <= j < max_image_count products)%nat ->
           cell_at f i (image_field (j + 1)) = Some "").
Proof.
  intros Hne. split; [by apply generate_csv_typed |].
  intros path d' Hgen.
  apply generate_csv_written in Hgen as (csv_rows & Hrows & Hfile).
  eexists. split; [exact Hfile |]. simpl. split.
  { reflexivity. }
  split.
  { rewrite length_fmap. symmetry. by eapply Forall2_length. }
  intros i p Hp j Hj.
  destruct (Forall2_lookup_l _ _ _ _ _ Hrows Hp) as (row & Hrow & Hcsv).
  pose proof (find_image_column j (max_image_count products) ltac:(lia))
    as Hfind.
  set (fields := csv_fields (max_image_count products)) in *.
  assert (Hline : lines {| header := fields;
                           lines := writerow fields <$> csv_rows |} !! i
                  = Some (writerow fields row)).
  { cbn [lines]. by rewrite list_lookup_fmap, Hrow. }
  rewrite (cell_at_eq _ _ _ _ _ Hline Hfind).
  apply list_find_Some in Hfind as [Hcol _].
  unfold writerow. rewrite list_lookup_fmap, Hcol.
  destruct (csv_row_image_get _ _ _ (pretty (j + 1)%nat) Hcsv)
    as (images & tail & Himg & Hget).
  unfold get_default. cbn [fmap option_fmap option_map].
  unfold image_field at 1. rewrite Hget.
  change ("image_" +:+ pretty (j + 1)%nat) with (image_field (j + 1)).
  by rewrite (image_cols_blank _ _ _ j Himg Hj tail).
Qed.

(** C4. Given no records, the exporter raises ValueError and leaves the
    disk as it found it: nothing is written at the output path. *)
Theorem generate_csv_empty output_file d :
  generate_csv [] output_file d = (Raise ValueError, d) /\
  files (snd (generate_csv [] output_file d)) !! output_file
  = files d !! output_file.
Proof. split; reflexivity. Qed.

(** The THC cell where the claim and the code agree. *)
Lemma thc_percent_absent p :
  truthy (get_default "inventory_potencies" VNone p) = false ->
  thc_percent p = Ok "".
Proof. intros Hp. unfold thc_percent. by rewrite Hp. Qed.

Lemma thc_percent_first p first rest v :
  get "inventory_potencies" p = Some (VList (VDict first :: rest)) ->
  get "thc_potency" first = Some v ->
  thc_percent p = Ok (str v +:+ "%").
Proof.
  intros Hp Hv. unfold thc_percent, get_default. rewrite Hp. simpl.
  by rewrite Hv.
Qed.

End GeneratorClaims.

(** ** Witnesses for the flattener *)

Lemma generate_csv_image_columns_witness :
  (Forall (fun p => Generator.typed_record p = true) [flower; gummies] ->
   Generator.writable empty_disk "out.csv" = true ->
   exists d',
     @Generator.generate_csv sample_repr sample_strlib [flower; gummies]
       "out.csv" empty_disk
     = (Ok "out.csv", d')) /\
  (forall path d',
     @Generator.generate_csv sample_repr sample_strlib [flower; gummies]
       "out.csv" empty_disk
     = (Ok path, d') ->
     exists f,
       Generator.files d' !! "out.csv" = Some f /\
       Generator.header f
       = Generator.leading_fields
         ++ (Generator.image_field
               <$> seq 1 (Generator.max_image_count [flower; gummies]))
         ++ ["tags"; "product_link"] /\
       length (Generator.lines f) = length [flower; gummies] /\
       forall i p,
         [flower; gummies] !! i = Some p ->
         forall j,
           (Generator.image_count p <= j
            < Generator.max_image_count [flower; gummies])%nat ->
           Generator.cell_at f i (Generator.image_field (j + 1)) = Some "").
Proof.
  apply (@generate_csv_image_columns sample_repr sample_strlib
           [flower; gummies] "out.csv" empty_disk).
  discriminate.
Defined.

(** The file the exporter writes for the two sample records: two image
    columns, and a blank second image cell for the record that has one
    image. *)
Example generate_csv_sample :
  let d' := snd (@Generator.generate_csv sample_repr sample_strlib
                   [flower; gummies] "out.csv" empty_disk) in
  (Generator.header <$> Generator.files d' !! "out.csv")
  = Some (Generator.leading_fields
          ++ ["image_1"; "image_2"; "tags"; "product_link"]) /\
  (Generator.files d' !! "out.csv"
     ≫= fun f => Generator.cell_at f 1 "image_1")
  = Some "http://shop.test/img/c.png" /\
  (Generator.files d' !! "out.csv"
     ≫= fun f => Generator.cell_at f 1 "image_2")
  = Some "".
Proof. vm_compute. done. Qed.

(** The line written for the second sample record. *)
Example generate_csv_sample_line :
  (Generator.files
     (snd (@Generator.generate_csv sample_repr sample_strlib
             [flower; gummies] "out.csv" empty_disk)) !! "out.csv"
     ≫= fun f => Generator.lines f !! 1%nat)
  = Some ["";  "Gummies"; ""; ""; ""; ""; ""; ""; ""; ""; "";
          ""; ""; ""; ""; ""; ""; ""; ""; ""; "";
          "http://shop.test/img/c.png"; "";
          ""; "/shop/menu/products/p2/-gummies"].
Proof. vm_compute. reflexivity. Qed.

(** C5, where the code departs from it.  For a record whose first
    potency entry carries no [thc_potency], the claim asks for an empty
    THC cell; the code computes [str("") + "%"], and the cell written
    to the file is a lone percent sign. *)
Theorem thc_percent_without_potency :
  (forall R : Repr, @Generator.thc_percent R tincture = Ok "%") /\
  (Generator.files
     (snd (@Generator.generate_csv sample_repr sample_strlib [tincture]
             "out.csv" empty_disk)) !! "out.csv"
     ≫= fun f => Generator.cell_at f 0 "THC_percent")
  = Some "%".
Proof. split; [intros R; reflexivity | vm_compute; reflexivity]. Qed.

(** ** The scraper *)

Section ScraperProperties.
Import Scraper.
Context `{Web}.
Variable base_url : string.

Lemma scrape_links_yields selectors n links products :
  scrape_links base_url selectors n links products
  = products
    ++ concat (imap (fun i link => link_yield base_url selectors (n + i) link)
                 links).
Proof.
  revert n products. induction links as [|link rest IH]; intros n products.
  - simpl. by rewrite app_nil_r.
  - rewrite imap_cons. simpl. unfold link_yield at 1.
    rewrite Nat.add_0_r.
    assert (Hrest : imap ((fun i l => link_yield base_url selectors (n + i) l)
                          ∘ S) rest
                    = imap (fun i l => link_yield base_url selectors (S n + i) l)
                        rest).
    { apply imap_ext. intros i l _. simpl. f_equal. lia. }
    rewrite Hrest.
    destruct (get_page base_url n link) as [page|]; [| apply IH].
    destruct (extract_product_data page selectors) as [|kv data] eqn:Hdata.
    + simpl. apply IH.
    + simpl. rewrite IH. by rewrite <- app_assoc.
Qed.

Lemma scrape_products_yields category_url selector selectors max_products
  category_soup :
  get_page base_url 0 category_url = Some category_soup ->
  scrape_products base_url category_url selector selectors max_products
  = concat (imap (fun i link => link_yield base_url selectors (S i) link)
              (visited_links base_url category_soup selector max_products)).
Proof.
  intros Hpage. unfold scrape_products. rewrite Hpage.
  by rewrite scrape_links_yields.
Qed.

Lemma extract_fields_nothing page selectors product :
  nothing_matches page selectors ->
  extract_fields page selectors product = Some product.
Proof.
  induction 1 as [|[field selector] rest Hsel _ IH]; simpl; [done |].
  simpl in Hsel. by rewrite Hsel.
Qed.

Lemma elem_of_link_yield selectors n link r :
  r ∈ link_yield base_url selectors n link ->
  exists page,
    get_page base_url n link = Some page /\
    r = set "product_url" (VStr link) (extract_product_data page selectors) /\
    get "product_url" r = Some (VStr link).
Proof.
  unfold link_yield. destruct (get_page base_url n link) as [page|].
  - destruct (extract_product_data page selectors) as [|kv data] eqn:Hdata.
    + by intros ?%elem_of_nil.
    + intros ->%list_elem_of_singleton. exists page.
      split; [done |]. split; [by rewrite Hdata |]. apply get_set_eq.
  - by intros ?%elem_of_nil.
Qed.

Lemma visited_links_absolute category_soup selector max_products link :
  link ∈ visited_links base_url category_soup selector max_products ->
  exists href, link = urljoin base_url href.
Proof.
  unfold visited_links, slice_to, extract_product_links.
  intros Hin.
  assert (Hin' : link ∈ match select category_soup selector with
                        | Some matches =>
                            omap
                              (fun l =>
                                 match attr l "href" with
                                 | Some href =>
                                     if String.eqb href "" then None
                                     else Some (urljoin base_url href)
                                 | None => None
                                 end) matches
                        | None => []
                        end).
  { destruct (0 <=? max_products);
      apply elem_of_take in Hin as (i & Hi & _);
      by eapply list_elem_of_lookup_2. }
  destruct (select category_soup selector) as [matches|];
    [| by apply elem_of_nil in Hin'].
  apply list_elem_of_omap in Hin' as (l & _ & Hl).
  destruct (attr l "href") as [href|]; [| done].
  destruct (String.eqb href ""); [done |]. inversion Hl. eauto.
Qed.

(** C7. When the listing page cannot be fetched the scrape returns no
    products.  When it can, the result is made of what each visited link
    yields, in order; and a link whose own page cannot be fetched yields
    nothing, which leaves the yields of the other links in place. *)
Theorem scrape_products_fetch_failures
  category_url selector selectors max_products :
  (get_page base_url 0 category_url = None ->
   scrape_products base_url category_url selector selectors max_products
   = []) /\
  (forall category_soup,
     get_page base_url 0 category_url = Some category_soup ->
     scrape_products base_url category_url selector selectors max_products
     = concat
         (imap (fun i link => link_yield base_url selectors (S i) link)
            (visited_links base_url category_soup selector max_products))) /\
  (forall n link,
     get_page base_url n link = None ->
     link_yield base_url selectors n link = []).
Proof.
  split; [| split].
  - intros Hpage. unfold scrape_products. by rewrite Hpage.
  - intros category_soup. apply scrape_products_yields.
  - intros n link Hpage. unfold link_yield. by rewrite Hpage.
Qed.

(** C10. A product page on which no selector of the map matches
    anything gives an empty record; and when the page of a link is
    fetched but gives an empty record, nothing is appended for it: the
    products collected so far go on unchanged to the next link.  Every
    record of the result is what the page of one of the visited links
    gave, with [product_url] set to that link, which is an absolute URL
    built from the listing page. *)
Theorem scrape_products_records
  category_url selector selectors max_products category_soup :
  get_page base_url 0 category_url = Some category_soup ->
  (forall page,
     nothing_matches page selectors ->
     extract_product_data page selectors = []) /\
  (forall n link rest products page,
     get_page base_url n link = Some page ->
     extract_product_data page selectors = [] ->
     scrape_links base_url selectors n (link :: rest) products
     = scrape_links base_url selectors (S n) rest products) /\
  (forall r,
     r ∈ scrape_products base_url category_url selector selectors
           max_products ->
     exists i link page,
       visited_links base_url category_soup selector max_products !! i
       = Some link /\
       (exists href, link = urljoin base_url href) /\
       get_page base_url (S i) link = Some page /\
       r = set "product_url" (VStr link)
             (extract_product_data page selectors) /\
       get "product_url" r = Some (VStr link)).
Proof.
  intros Hpage. split; [| split].
  - intros page Hnone. unfold extract_product_data.
    by rewrite extract_fields_nothing.
  - intros n link rest products page Hlink Hdata. simpl.
    by rewrite Hlink, Hdata.
  - intros r. rewrite (scrape_products_yields _ _ _ _ _ Hpage).
    intros (ys & Hys & Hr)%list_elem_of_In%in_concat.
    apply list_elem_of_In in Hys, Hr.
    apply elem_of_lookup_imap_1 in Hys as (i & link & -> & Hi).
    apply elem_of_link_yield in Hr as (page & Hget & Hset & Hurl).
    exists i, link, page. split; [done |]. split; [| done].
    eapply visited_links_absolute. by eapply list_elem_of_lookup_2.
Qed.

End ScraperProperties.

(** ** Witnesses for the scraper *)

(** The sample scrape: product 1 is returned, product 2 is skipped (its
    page cannot be fetched), product 3 is dropped (nothing matched). *)
Example scrape_products_sample :
  @Scraper.scrape_products sample_web "http://shop.test" "/flowers"
    "a.product" sample_selectors 100
  = [[("name", VStr "Flower");
      ("image_urls", VList [VStr "/img/a.jpg"]);
      ("product_url", VStr "http://shop.test/p/1")]].
Proof. vm_compute. reflexivity. Qed.

Lemma scrape_products_fetch_failures_witness :
  @Scraper.scrape_products sample_web "http://down.test" "/flowers"
    "a.product" sample_selectors 100
  = [] /\
  @Scraper.scrape_products sample_web "http://shop.test" "/flowers"
    "a.product" sample_selectors 100
  = concat
      (imap
         (fun i link =>
            @Scraper.link_yield sample_web "http://shop.test" sample_selectors
              (S i) link)
         (@Scraper.visited_links sample_web "http://shop.test"
            "http://shop.test/flowers" "a.product" 100)) /\
  @Scraper.link_yield sample_web "http://shop.test" sample_selectors 2
    "http://shop.test/p/2"
  = [].
Proof.
  split; [| split].
  - apply (proj1 (@scrape_products_fetch_failures sample_web
                    "http://down.test" "/flowers" "a.product"
                    sample_selectors 100)).
    reflexivity.
  - apply (proj1 (proj2 (@scrape_products_fetch_failures sample_web
                           "http://shop.test" "/flowers" "a.product"
                           sample_selectors 100))).
    reflexivity.
  - apply (proj2 (proj2 (@scrape_products_fetch_failures sample_web
                           "http://shop.test" "/flowers" "a.product"
                           sample_selectors 100))).
    reflexivity.
Defined.

Lemma scrape_products_records_witness :
  (forall page,
     @Scraper.nothing_matches sample_web page sample_selectors ->
     @Scraper.extract_product_data sample_web page sample_selectors = []) /\
  (forall n link rest products page,
     @Scraper.get_page sample_web "http://shop.test" n link = Some page ->
     @Scraper.extract_product_data sample_web page sample_selectors = [] ->
     @Scraper.scrape_links sample_web "http://shop.test" sample_selectors n
       (link :: rest) products
     = @Scraper.scrape_links sample_web "http://shop.test" sample_selectors
         (S n) rest products) /\
  (forall r,
     r ∈ @Scraper.scrape_products sample_web "http://shop.test" "/flowers"
           "a.product" sample_selectors 100 ->
     exists i link page,
       @Scraper.visited_links sample_web "http://shop.test"
         "http://shop.test/flowers" "a.product" 100 !! i
       = Some link /\
       (exists href,
          link = @Scraper.urljoin sample_web "http://shop.test" href) /\
       @Scraper.get_page sample_web "http://shop.test" (S i) link
       = Some page /\
       r = set "product_url" (VStr link)
             (@Scraper.extract_product_data sample_web page sample_selectors) /\
       get "product_url" r = Some (VStr link)).
Proof.
  apply (@scrape_products_records sample_web "http://shop.test" "/flowers"
           "a.product" sample_selectors 100 "http://shop.test/flowers").
  reflexivity.
Defined.

(* ================================================================== *)
(** * Part II, continued: further properties of the code *)
(* ================================================================== *)

(** ** The loader *)

Section LoaderFurther.
Import Loader.
Context `{Json}.

Lemma load_entries_json_only entries acc :
  load_entries entries acc = load_entries (json_entries entries) acc.
Proof.
  revert acc. induction entries as [|[name e] rest IH]; intros acc; [done |].
  unfold json_entries. rewrite filter_cons. simpl.
  destruct (endswith name ".json") eqn:Hext.
  - rewrite decide_True by done. simpl. rewrite Hext.
    destruct e as [text | ex]; [| done].
    destruct (json_load text) as [[]|]; try done; apply IH.
  - rewrite decide_False by congruence. apply IH.
Qed.

Lemma load_entries_app good rest vs acc :
  Forall2 parses_to (json_entries good) vs ->
  load_entries (good ++ rest) acc
  = load_entries rest (acc ++ concat (contribution <$> vs)).
Proof.
  revert vs acc. induction good as [|[name e] good IH]; intros vs acc Hvs.
  - apply Forall2_nil_inv_l in Hvs as ->. simpl. by rewrite app_nil_r.
  - unfold json_entries in Hvs. rewrite filter_cons in Hvs.
    simpl in Hvs. simpl.
    destruct (endswith name ".json") eqn:Hext.
    + rewrite decide_True in Hvs by done.
      apply Forall2_cons_inv_l in Hvs
          as (v & vs' & (text & He & Hp) & Hrest & ->).
      simpl in He. subst e. rewrite Hp.
      destruct v; simpl; rewrite (IH vs') by done; try done;
        by rewrite <- app_assoc.
    + rewrite decide_False in Hvs by congruence. by apply IH.
Qed.

(** X1. Entries whose name does not end in [.json] play no part in a
    load, whatever they are (sub-folders, unreadable files, other
    data): two folders with the same [.json] entries in the same order
    load to the same result or the same error. *)
Theorem load_json_files_other_entries fs fs' folder folder' entries entries' :
  fs folder = Some (Folder entries) ->
  fs' folder' = Some (Folder entries') ->
  json_entries entries = json_entries entries' ->
  load_json_files fs folder = load_json_files fs' folder'.
Proof.
  intros Hfs Hfs' Hsame. unfold load_json_files. rewrite Hfs, Hfs'.
  by rewrite (load_entries_json_only entries),
    (load_entries_json_only entries'), Hsame.
Qed.

(** X2. The first [.json] entry that cannot be loaded decides the
    outcome: when the [.json] entries listed before it all parse, the
    load raises that entry's error (the error of opening it, or the
    parse error), whatever is listed after it. *)
Theorem load_json_files_first_failure
  fs folder good name e rest vs err :
  fs folder = Some (Folder (good ++ (name, e) :: rest)) ->
  Forall2 parses_to (json_entries good) vs ->
  endswith name ".json" = true ->
  entry_error e = Some err ->
  load_json_files fs folder = Raise err.
Proof.
  intros Hfs Hgood Hext Herr. unfold load_json_files. rewrite Hfs.
  rewrite (load_entries_app good _ vs) by done. simpl. rewrite Hext.
  destruct e as [text | ex]; simpl in Herr.
  - destruct (json_load text); [done |]. by inversion Herr.
  - by inversion Herr.
Qed.

(** X3. When every [.json] file of the folder holds a single JSON
    object, the load returns exactly one record per [.json] file. *)
Theorem load_json_files_one_per_file fs folder entries :
  fs folder = Some (Folder entries) ->
  Forall holds_object (json_entries entries) ->
  exists all_products,
    load_json_files fs folder = Ok all_products /\
    length all_products = length (json_entries entries).
Proof.
  intros Hfs Hall. unfold load_json_files. rewrite Hfs.
  assert (Hvs : exists vs,
             Forall2 parses_to (json_entries entries) vs /\
             length (concat (contribution <$> vs))
             = length (json_entries entries)).
  { induction Hall as [|ne l (text & d & He & Hp) _ (vs & Hvs & Hlen)].
    - exists []. split; [constructor | done].
    - exists (VDict d :: vs). split.
      + constructor; [by exists text | done].
      + rewrite fmap_cons. simpl. by rewrite Hlen. }
  destruct Hvs as (vs & Hvs & Hlen).
  rewrite (load_entries_ok entries vs []) by done. eauto.
Qed.

End LoaderFurther.

(** ** The image fetcher *)

Section StringFacts.

Lemma append_cons x a b : String x a +:+ b = String x (a +:+ b).
Proof. reflexivity. Qed.

Lemma append_nil b : "" +:+ b = b.
Proof. reflexivity. Qed.

Lemma contains_char_app c a b :
  contains_char c (a +:+ b) = contains_char c a || contains_char c b.
Proof.
  induction a as [|c' a IH]; [done |]. rewrite append_cons. simpl.
  destruct (Ascii.eqb c' c); [done | exact IH].
Qed.

Lemma append_assoc_r a b c : (a +:+ b) +:+ c = a +:+ (b +:+ c).
Proof.
  induction a as [|x a IH]; [done |]. rewrite !append_cons. by f_equal.
Qed.

Lemma append_empty a b : a +:+ b = "" -> b = "".
Proof. by destruct a. Qed.

Lemma prefix_app a b : String.prefix a (a +:+ b) = true.
Proof.
  induction a as [|c a IH]; [by destruct b |]. rewrite append_cons. simpl.
  destruct (ascii_dec c c); [exact IH | done].
Qed.

Lemma prefix_slash_contains s :
  contains_char "/" s = false -> String.prefix "/" s = false.
Proof.
  destruct s as [|c s]; [done |].
  change (contains_char "/" (String c s))
    with (if Ascii.eqb c "/" then true else contains_char "/" s).
  change (String.prefix "/" (String c s))
    with (if ascii_dec "/" c then String.prefix "" s else false).
  destruct (ascii_dec "/" c) as [<- | Hne]; [| done].
  by rewrite Ascii.eqb_refl.
Qed.

Lemma prefix_slash_app s t :
  String.prefix "/" s = false ->
  String.prefix "/" (s +:+ "_" +:+ t) = false.
Proof.
  destruct s as [|c s]; [done |]. rewrite append_cons.
  change (String.prefix "/" (String c s))
    with (if ascii_dec "/" c then String.prefix "" s else false).
  change (String.prefix "/" (String c (s +:+ "_" +:+ t)))
    with (if ascii_dec "/" c then String.prefix "" (s +:+ "_" +:+ t)
          else false).
  destruct (ascii_dec "/" c); [by destruct s | done].
Qed.

End StringFacts.

Section DownloaderFurther.
Import Downloader.
Context `{Repr} `{Urllib}.

Lemma basename_unfold c p :
  basename (String c p)
  = if contains_char "/" (String c p) then basename p else String c p.
Proof. reflexivity. Qed.

Lemma basename_no_slash p : contains_char "/" (basename p) = false.
Proof.
  induction p as [|c p IH]; [done |]. rewrite basename_unfold.
  by destruct (contains_char "/" (String c p)) eqn:E.
Qed.

Lemma basename_suffix p : exists dir, p = dir +:+ basename p.
Proof.
  induction p as [|c p [dir IH]]; [by exists "" |]. rewrite basename_unfold.
  destruct (contains_char "/" (String c p)).
  - exists (String c dir). rewrite append_cons. by f_equal.
  - by exists "".
Qed.

(** [basename] returns the part of the path after its last slash: a
    suffix of the path that holds no slash. *)
Lemma basename_last_component p :
  contains_char "/" (basename p) = false /\
  exists dir, p = dir +:+ basename p.
Proof. split; [apply basename_no_slash | apply basename_suffix]. Qed.

Lemma derive_filename_dot path product_id index :
  contains_char "." (derive_filename path product_id index) = true.
Proof.
  unfold derive_filename.
  assert (Hname :
            contains_char "."
              (if String.eqb (basename path) ""
                  || negb (contains_char "." (basename path))
               then "image_" +:+ str product_id +:+ "_" +:+ pretty index
                    +:+ ".jpg"
               else basename path) = true).
  { destruct (String.eqb (basename path) "") eqn:E1; simpl.
    - rewrite !contains_char_app. simpl. by rewrite !orb_true_r.
    - destruct (contains_char "." (basename path)) eqn:E2; simpl; [done |].
      rewrite !contains_char_app. simpl. by rewrite !orb_true_r. }
  destruct (truthy product_id); [| exact Hname].
  rewrite !contains_char_app, Hname. by rewrite !orb_true_r.
Qed.

Lemma derive_filename_not_absolute path product_id index :
  String.prefix "/" (str product_id) = false ->
  String.prefix "/" (derive_filename path product_id index) = false.
Proof.
  intros Hid. unfold derive_filename.
  destruct (truthy product_id); [by apply prefix_slash_app |].
  destruct (String.eqb (basename path) ""
            || negb (contains_char "." (basename path))); [done |].
  apply prefix_slash_contains, basename_no_slash.
Qed.

(** X4. The file name derived for a download always has an extension
    dot, and starts with the product id and an underscore whenever the
    product id is truthy. *)
Theorem derive_filename_shape path product_id index :
  contains_char "." (derive_filename path product_id index) = true /\
  (truthy product_id = true ->
   String.prefix (str product_id +:+ "_")
     (derive_filename path product_id index) = true).
Proof.
  split; [apply derive_filename_dot |].
  intros Hid. unfold derive_filename. rewrite Hid.
  rewrite <- append_assoc_r. apply prefix_app.
Qed.

Lemma path_join_nonempty a b : b <> "" -> path_join a b <> "".
Proof.
  intros Hb. unfold path_join.
  destruct (String.prefix "/" b); [done |].
  destruct (String.eqb a "" || endswith a "/").
  - by intros ?%append_empty.
  - by intros ?%append_empty%append_empty.
Qed.

Lemma output_path_nonempty output_dir path product_id index :
  path_join output_dir (derive_filename path product_id index) <> "".
Proof.
  apply path_join_nonempty. intros Hempty.
  pose proof (derive_filename_dot path product_id index) as Hdot.
  by rewrite Hempty in Hdot.
Qed.

(** A local path comes back only from a download that ran to the end. *)
Lemma download_image_written r url output_dir product_id index :
  snd (fst (download_image r url output_dir product_id index)) <> "" ->
  exists u path body,
    url = VStr u /\ truthy url = true /\ url_path u = Some path /\
    r = Fetched body /\
    download_image r url output_dir product_id index
    = ((url,
        path_join output_dir (derive_filename path product_id index)),
       [MakeDirs output_dir; HttpGet u;
        OpenForWrite
          (path_join output_dir (derive_filename path product_id index));
        Write (path_join output_dir (derive_filename path product_id index))
          body]).
Proof.
  unfold download_image. destruct (truthy url) eqn:Hurl; simpl; [| done].
  destruct url as [| | | |u| |]; try (by destruct r).
  destruct (url_path u) as [path|] eqn:Hpath; [| by destruct r].
  destruct r; try done. intros _. by exists u, path, body.
Qed.

(** X5. [download_image] always hands the URL back as it got it, and
    returns a non-empty local path exactly when the URL is a non-empty
    string whose path [urlparse] can take and the download ran to the end;
    the path is then the output directory joined with the derived file
    name, and the calls made are, in order: the directory, the request,
    the opening of that path and the writing of the whole body to it. *)
Theorem download_image_local_path r url output_dir product_id index :
  fst (fst (download_image r url output_dir product_id index)) = url /\
  (snd (fst (download_image r url output_dir product_id index)) <> "" <->
   exists u path body,
     url = VStr u /\ u <> "" /\ url_path u = Some path /\ r = Fetched body) /\
  (forall u path body,
     url = VStr u -> u <> "" -> url_path u = Some path -> r = Fetched body ->
     let output_path :=
       path_join output_dir (derive_filename path product_id index) in
     download_image r url output_dir product_id index
     = ((url, output_path),
        [MakeDirs output_dir; HttpGet u; OpenForWrite output_path;
         Write output_path body])).
Proof.
  assert (Hrun : forall u path body,
             url = VStr u -> u <> "" -> url_path u = Some path ->
             r = Fetched body ->
             download_image r url output_dir product_id index
             = ((url,
                 path_join output_dir
                   (derive_filename path product_id index)),
                [MakeDirs output_dir; HttpGet u;
                 OpenForWrite
                   (path_join output_dir
                      (derive_filename path product_id index));
                 Write
                   (path_join output_dir
                      (derive_filename path product_id index)) body])).
  { intros u path body -> Hu Hpath ->. unfold download_image. simpl.
    destruct (String.eqb u "") eqn:E; [by apply String.eqb_eq in E |].
    simpl. by rewrite Hpath. }
  split; [| split; [split |]].
  - unfold download_image. destruct (negb (truthy url)); [done |].
    destruct r, url; try done; by destruct (url_path _).
  - intros (u & path & body & -> & Hurl & Hpath & -> & _)%download_image_written.
    exists u, path, body. repeat split; try done.
    intros ->. done.
  - intros (u & path & body & Hu & Hne & Hpath & Hr).
    rewrite (Hrun u path body Hu Hne Hpath Hr). simpl.
    apply output_path_nonempty.
  - exact Hrun.
Qed.

(** X6. [download_image] touches nothing but the output directory, the
    URL it was given and the one output path derived from it; and when
    it makes any call at all, creating the output directory comes
    first. *)
Theorem download_image_calls r url output_dir product_id index :
  (forall e,
     e ∈ snd (download_image r url output_dir product_id index) ->
     e = MakeDirs output_dir \/
     exists u path,
       url = VStr u /\ url_path u = Some path /\
       (e = HttpGet u \/
        e = OpenForWrite
              (path_join output_dir
                 (derive_filename path product_id index)) \/
        exists content,
          e = Write
                (path_join output_dir
                   (derive_filename path product_id index)) content)) /\
  (snd (download_image r url output_dir product_id index) <> [] ->
   head (snd (download_image r url output_dir product_id index))
   = Some (MakeDirs output_dir)).
Proof.
  unfold download_image. destruct (negb (truthy url)).
  { split; [by intros ev ?%elem_of_nil | done]. }
  destruct url as [| | | |u| |];
    try (split; [| by destruct r]; destruct r; simpl; intros ev Hev;
         apply list_elem_of_singleton in Hev; by left).
  destruct (url_path u) as [path|] eqn:Hpath.
  - split; [| by destruct r].
    intros ev Hev.
    assert (Hright : forall e',
               e' = HttpGet u \/
               e' = OpenForWrite
                      (path_join output_dir
                         (derive_filename path product_id index)) \/
               (exists content,
                   e' = Write
                          (path_join output_dir
                             (derive_filename path product_id index))
                          content) ->
               e' = MakeDirs output_dir \/
               exists u0 path0,
                 VStr u = VStr u0 /\ url_path u0 = Some path0 /\
                 (e' = HttpGet u0 \/
                  e' = OpenForWrite
                         (path_join output_dir
                            (derive_filename path0 product_id index)) \/
                  exists content,
                    e' = Write
                           (path_join output_dir
                              (derive_filename path0 product_id index))
                           content)).
    { intros e' He'. right. by exists u, path. }
    destruct r; simpl in Hev;
      repeat (apply elem_of_cons in Hev as [-> | Hev]);
      try (by apply elem_of_nil in Hev);
      try (by left);
      apply Hright; eauto.
  - split; [| by destruct r].
    destruct r; simpl; intros ev Hev;
      apply list_elem_of_singleton in Hev; by left.
Qed.

(** X7. Unless the text of the product id starts with a slash, every
    file [download_image] opens or writes lies under the output
    directory. *)
Theorem download_image_within_output_dir
  r url output_dir product_id index :
  String.prefix "/" (str product_id) = false ->
  forall e,
    e ∈ snd (download_image r url output_dir product_id index) ->
    match e with
    | OpenForWrite path | Write path _ =>
        String.prefix output_dir path = true
    | _ => True
    end.
Proof.
  intros Hid.
  assert (Hjoin : forall path,
             String.prefix output_dir
               (path_join output_dir
                  (derive_filename path product_id index)) = true).
  { intros path. unfold path_join.
    rewrite (derive_filename_not_absolute path product_id index Hid).
    destruct (String.eqb output_dir "" || endswith output_dir "/");
      apply prefix_app. }
  unfold download_image. destruct (negb (truthy url)).
  { by intros ev ?%elem_of_nil. }
  destruct url as [| | | |u| |];
    try (destruct r; simpl; intros ev Hev;
         apply list_elem_of_singleton in Hev; by subst ev).
  destruct (url_path u) as [path|];
    destruct r; simpl; intros ev Hev;
    repeat (apply elem_of_cons in Hev as [-> | Hev]);
    try (by apply elem_of_nil in Hev); try done; apply Hjoin.
Qed.

End DownloaderFurther.

Section FetcherFurther.
Import Downloader.
Context `{Repr} `{Urllib}.

Lemma key_eqb_str s b : key_eqb (VStr s) b = true -> b = VStr s.
Proof.
  destruct b; simpl; try done. intros Heq%String.eqb_eq. by subst.
Qed.

Lemma update_product_hashable results p q :
  update_product results p = Ok q -> hashable (product_id_of p) = true.
Proof. unfold update_product. by destruct (hashable (product_id_of p)). Qed.

(** What the fetcher did to the record at one position. *)
Lemma fetched_record replies products output_dir max_workers products' i p q :
  fst (download_product_images replies products output_dir max_workers)
  = Ok products' ->
  products !! i = Some p ->
  products' !! i = Some q ->
  let outcomes := attempts replies output_dir products in
  hashable (product_id_of p) = true /\
  if has_download outcomes (product_id_of p)
  then q =
       set "local_image_paths"
         (VList ((fun url =>
                    VStr (recorded_path outcomes (product_id_of p) url))
                   <$> urls_of p))
         p
  else q = p.
Proof.
  intros Hok%download_product_images_inv Hp Hq outcomes.
  pose proof (Forall2_lookup_lr _ _ _ _ _ _ Hok Hp Hq) as Hupd.
  simpl in Hupd. split; [by eapply update_product_hashable |].
  eapply update_product_inv; [apply results_of_pool | exact Hupd].
Qed.

(** The calls the operation reports are those of its tasks. *)
Lemma download_product_images_events
  replies products output_dir max_workers products' :
  fst (download_product_images replies products output_dir max_workers)
  = Ok products' ->
  snd (download_product_images replies products output_dir max_workers)
  = snd <$> run_pool replies (all_tasks output_dir products).
Proof.
  unfold download_product_images.
  destruct products as [|p0 ps] eqn:Hprod; [done |]. rewrite <- Hprod.
  destruct (collect_tasks output_dir products []) as [tasks|] eqn:Htasks;
    [| done].
  apply collect_tasks_inv in Htasks. simpl in Htasks. subst tasks.
  by destruct (max_workers <=? 0).
Qed.

Lemma length_all_tasks output_dir products :
  length (all_tasks output_dir products)
  = sum_list_with (fun p => length (urls_of p)) products.
Proof.
  induction products as [|p ps IH]; [done |].
  change (all_tasks output_dir (p :: ps))
    with (imap (fun i url => (url, output_dir, product_id_of p, i))
            (urls_of p)
          ++ all_tasks output_dir ps).
  rewrite length_app, length_imap. simpl. by f_equal.
Qed.

(** X8. A worker count that is not positive makes the fetcher raise
    ValueError as soon as it is given any record, before any download
    is started, even when no record has an image. *)
Theorem download_product_images_no_workers
  replies products output_dir max_workers :
  max_workers <= 0 ->
  products <> [] ->
  Forall (fun p => fetchable p = true) products ->
  download_product_images replies products output_dir max_workers
  = (Raise ValueError, []).
Proof.
  intros Hw Hne Hall. unfold download_product_images.
  destruct products as [|p0 ps] eqn:Hprod; [done |]. rewrite <- Hprod in *.
  rewrite (collect_tasks_all output_dir products [] Hall).
  destruct (max_workers <=? 0) eqn:E; [done | lia].
Qed.

(** X9. When the fetcher returns it has run exactly one download for
    each position of each record's [image_urls], duplicates included,
    in the order of the records and of their URLs: the n-th report of
    calls is that of the n-th (record, position) of the batch. *)
Theorem download_product_images_one_download_per_url
  replies products output_dir max_workers products' :
  fst (download_product_images replies products output_dir max_workers)
  = Ok products' ->
  length (snd (download_product_images replies products output_dir
                 max_workers))
  = sum_list_with (fun p => length (urls_of p)) products /\
  forall n url od product_id i,
    all_tasks output_dir products !! n = Some (url, od, product_id, i) ->
    snd (download_product_images replies products output_dir max_workers)
      !! n
    = Some (snd (download_image (replies n) url od product_id i)).
Proof.
  intros Hok. rewrite (download_product_images_events _ _ _ _ _ Hok).
  split.
  - unfold run_pool. by rewrite length_fmap, length_imap, length_all_tasks.
  - intros n url od product_id i Hn. unfold run_pool.
    unfold task in Hn. by rewrite list_lookup_fmap, list_lookup_imap, Hn.
Qed.

Lemma attempt_lookup replies output_dir products a :
  a ∈ attempts replies output_dir products ->
  exists n url od product_id i,
    all_tasks output_dir products !! n = Some (url, od, product_id, i) /\
    a = (product_id, url,
         snd (fst (download_image (replies n) url od product_id i))).
Proof.
  intros (n & [[[url od] pid] i] & -> & Hn)%elem_of_lookup_imap_1.
  by exists n, url, od, pid, i.
Qed.

Lemma recorded_path_falsy replies output_dir products product_id url :
  truthy url = false ->
  recorded_path (attempts replies output_dir products) product_id url = "".
Proof.
  intros Hurl. apply recorded_path_empty, Forall_forall. intros a Ha.
  apply attempt_lookup in Ha as (n & url' & od & pid & i & _ & ->).
  rewrite succeeded_for_url_eq.
  destruct (String.eqb _ "") eqn:Hpath; [done |]. simpl.
  apply String.eqb_neq in Hpath.
  apply download_image_written
    in Hpath as (u & path & body & -> & Htruthy & _).
  destruct (key_eqb (VStr u) url) eqn:Hkey; [| by rewrite andb_false_r].
  apply key_eqb_str in Hkey. subst url. congruence.
Qed.

(** In a record that gains [local_image_paths], every position whose
    URL is falsy (an empty string, a null) holds the empty string. *)
Lemma download_product_images_skipped_url
  replies products output_dir max_workers products' i p q j url :
  fst (download_product_images replies products output_dir max_workers)
  = Ok products' ->
  products !! i = Some p ->
  products' !! i = Some q ->
  has_download (attempts replies output_dir products) (product_id_of p)
  = true ->
  urls_of p !! j = Some url ->
  truthy url = false ->
  exists paths,
    get "local_image_paths" q = Some (VList paths) /\
    paths !! j = Some (VStr "").
Proof.
  intros Hok Hp Hq Hhas Hj Hurl.
  destruct (fetched_record _ _ _ _ _ _ _ _ Hok Hp Hq) as [_ Hrec].
  rewrite Hhas in Hrec. subst q. eexists. split; [apply get_set_eq |].
  rewrite list_lookup_fmap, Hj. simpl. by rewrite recorded_path_falsy.
Qed.


(** X11. Every non-empty local path the fetcher puts in a record is
    the path of a file that one of the downloads of the batch wrote in
    full. *)
Theorem download_product_images_paths_written
  replies products output_dir max_workers products' i p q j url :
  fst (download_product_images replies products output_dir max_workers)
  = Ok products' ->
  products !! i = Some p ->
  products' !! i = Some q ->
  has_download (attempts replies output_dir products) (product_id_of p)
  = true ->
  urls_of p !! j = Some url ->
  exists paths local_path,
    get "local_image_paths" q = Some (VList paths) /\
    paths !! j = Some (VStr local_path) /\
    (local_path <> "" ->
     exists n calls body,
       snd (download_product_images replies products output_dir max_workers)
         !! n = Some calls /\
       replies n = Fetched body /\
       Write local_path body ∈ calls).
Proof.
  intros Hok Hp Hq Hhas Hj.
  destruct (fetched_record _ _ _ _ _ _ _ _ Hok Hp Hq) as [_ Hrec].
  rewrite Hhas in Hrec. subst q.
  eexists. eexists. split; [apply get_set_eq |].
  split; [by rewrite list_lookup_fmap, Hj |].
  unfold recorded_path.
  destruct (last (filter _ (attempts replies output_dir products)))
    as [a|] eqn:Hlast; [| done].
  simpl. intros Hne.
  apply last_Some_elem_of, list_elem_of_filter in Hlast as [_ Ha].
  apply attempt_lookup in Ha as (n & url' & od & pid & k & Hn & ->).
  simpl in Hne |- *.
  destruct (download_image_written _ _ _ _ _ Hne)
    as (u & path & body & -> & _ & _ & Hreply & Hrun).
  exists n, (snd (download_image (replies n) (VStr u) od pid k)), body.
  split; [| split; [done |]].
  - rewrite (download_product_images_events _ _ _ _ _ Hok).
    unfold run_pool. unfold task in Hn.
    by rewrite list_lookup_fmap, list_lookup_imap, Hn.
  - rewrite Hrun. simpl. set_solver.
Qed.

(** X12. When no download of the batch runs to the end, the fetcher
    returns the records exactly as it was given them. *)
Theorem download_product_images_all_fail
  replies products output_dir max_workers products' :
  (forall n body, replies n <> Fetched body) ->
  fst (download_product_images replies products output_dir max_workers)
  = Ok products' ->
  products' = products.
Proof.
  intros Hfail Hok.
  assert (Hnone : forall pid,
             has_download (attempts replies output_dir products) pid
             = false).
  { intros pid. unfold has_download.
    destruct (existsb _ _) eqn:Hex; [| done].
    apply existsb_exists in Hex as (a & Ha%list_elem_of_In & Hsucc).
    apply attempt_lookup in Ha as (n & url & od & pid' & i & _ & ->).
    rewrite succeeded_for_eq in Hsucc.
    apply andb_prop in Hsucc as [Hpath%negb_true_iff%String.eqb_neq _].
    apply download_image_written
      in Hpath as (u & path & body & _ & _ & _ & Hreply & _).
    by destruct (Hfail n body). }
  symmetry. apply list_eq. intros i.
  pose proof (download_product_images_inv _ _ _ _ _ Hok) as Hrel.
  destruct (products !! i) as [p|] eqn:Hp.
  - destruct (Forall2_lookup_l _ _ _ _ _ Hrel Hp) as (q & Hq & _).
    destruct (fetched_record _ _ _ _ _ _ _ _ Hok Hp Hq) as [_ Hrec].
    rewrite Hnone in Hrec. by rewrite Hq, Hrec.
  - symmetry. apply lookup_ge_None.
    rewrite <- (Forall2_length _ _ _ Hrel). by apply lookup_ge_None.
Qed.

End FetcherFurther.

(** ** The flattener *)

Section FlattenerFurther.
Import Generator.
Context `{Repr} `{Strlib}.

Lemma csv_row_inv max_images p row :
  csv_row max_images p = Ok row ->
  exists weights thc images tags link,
    weight_options p = Ok weights /\
    thc_percent p = Ok thc /\
    image_cols max_images p = Ok images /\
    tags_str p = Ok tags /\
    product_link p = Ok link /\
    row =
    [("brand", get_default "brand" (VStr "") p);
     ("name", get_default "name" (VStr "") p);
     ("description", get_default "description" (VStr "") p);
     ("type", get_default "type" (VStr "") p);
     ("category", get_default "category" (VStr "") p);
     ("weight_options", VStr weights);
     ("THC_percent", VStr thc);
     ("available_for_pickup", get_default "available_for_pickup" (VStr "") p);
     ("available_for_delivery",
      get_default "available_for_delivery" (VStr "") p);
     ("aggregate_rating", get_default "aggregate_rating" (VStr "") p);
     ("review_count", get_default "review_count" (VStr "") p)]
    ++ row_prices p
    ++ images
    ++ [("tags", VStr tags); ("product_link", VStr link)].
Proof.
  unfold csv_row.
  destruct (weight_options p) as [weights|]; [| done]. simpl.
  destruct (thc_percent p) as [thc|]; [| done]. simpl.
  destruct (image_cols max_images p) as [images|]; [| done]. simpl.
  destruct (tags_str p) as [tags|]; [| done]. simpl.
  destruct (product_link p) as [link|]; [| done]. simpl.
  intros Hrow. inversion Hrow. by exists weights, thc, images, tags, link.
Qed.

(** The cell under a column is the text of the row dict's value for
    the column's name. *)
Lemma written_cell products output_file d path d' i p :
  generate_csv products output_file d = (Ok path, d') ->
  products !! i = Some p ->
  exists f row,
    files d' !! output_file = Some f /\
    header f = csv_fields (max_image_count products) /\
    csv_row (max_image_count products) p = Ok row /\
    forall column k,
      list_find (fun name => name = column) (header f) = Some (k, column) ->
      cell_at f i column
      = Some (cell_text (get_default column (VStr "") row)).
Proof.
  intros (csv_rows & Hrows & Hfile)%generate_csv_written Hp.
  destruct (Forall2_lookup_l _ _ _ _ _ Hrows Hp) as (row & Hrow & Hcsv).
  eexists. exists row. split; [exact Hfile |]. split; [done |].
  split; [done |]. intros column k Hfind.
  set (fields := csv_fields (max_image_count products)) in *.
  assert (Hline : lines {| header := fields;
                           lines := writerow fields <$> csv_rows |} !! i
                  = Some (writerow fields row)).
  { cbn [lines]. by rewrite list_lookup_fmap, Hrow. }
  rewrite (cell_at_eq _ _ _ _ _ Hline Hfind).
  apply list_find_Some in Hfind as [Hcol _]. cbn [header] in Hcol.
  unfold writerow. by rewrite list_lookup_fmap, Hcol.
Qed.

Lemma find_leading_column column k max_images :
  list_find (fun name => name = column) leading_fields = Some (k, column) ->
  list_find (fun name => name = column) (csv_fields max_images)
  = Some (k, column).
Proof.
  intros Hfind. unfold csv_fields.
  change (static_fields ++
          flat_map (fun w => ["price_" +:+ w; "discounted_price_" +:+ w])
            weights_keys ++
          (image_field <$> seq 1 max_images) ++ ["tags"; "product_link"])
    with (leading_fields
          ++ ((image_field <$> seq 1 max_images) ++ ["tags"; "product_link"])).
  by apply list_find_app_l.
Qed.

Lemma generate_csv_raise_disk products output_file d e d' :
  generate_csv products output_file d = (Raise e, d') -> d' = d.
Proof.
  unfold generate_csv.
  destruct products as [|p0 ps] eqn:Hprod; [by inversion 1 |].
  rewrite <- Hprod.
  destruct (find_max_images products 0) as [m|]; [| by inversion 1].
  simpl.
  destruct (map_res (csv_row m) products) as [rows|]; [| by inversion 1].
  simpl. destruct (writable d output_file); by inversion 1.
Qed.


Lemma length_csv_fields max_images :
  length (csv_fields max_images) = (23 + max_images)%nat.
Proof.
  unfold csv_fields. rewrite !length_app, length_fmap, length_seq. simpl. lia.
Qed.

(** X14. The file written is a rectangular table: the header has the
    21 leading columns, one column per image and the two trailing
    columns, there is one line per record, and every line has as many
    cells as the header. *)
Theorem generate_csv_rectangular products output_file d path d' :
  generate_csv products output_file d = (Ok path, d') ->
  exists f,
    files d' !! output_file = Some f /\
    length (header f) = (23 + max_image_count products)%nat /\
    length (lines f) = length products /\
    Forall (fun line => length line = length (header f)) (lines f).
Proof.
  intros (csv_rows & Hrows & Hfile)%generate_csv_written.
  eexists. split; [exact Hfile |]. cbn [header lines].
  split; [apply length_csv_fields |]. split.
  - rewrite length_fmap. symmetry. by eapply Forall2_length.
  - apply Forall_fmap, Forall_forall. intros row _. simpl.
    unfold writerow. by rewrite length_fmap.
Qed.

Lemma image_field_not_leading i : image_field i ∉ leading_fields.
Proof.
  unfold image_field, leading_fields. simpl.
  intros Hin. repeat (apply elem_of_cons in Hin as [Hin | Hin]; [done |]).
  by apply elem_of_nil in Hin.
Qed.

(** X15. No two columns of the header have the same name, however
    many image columns there are. *)
Theorem csv_fields_no_duplicates max_images : NoDup (csv_fields max_images).
Proof.
  unfold csv_fields.
  change (static_fields ++
          flat_map (fun w => ["price_" +:+ w; "discounted_price_" +:+ w])
            weights_keys ++
          (image_field <$> seq 1 max_images) ++ ["tags"; "product_link"])
    with (leading_fields
          ++ ((image_field <$> seq 1 max_images) ++ ["tags"; "product_link"])).
  apply NoDup_app. split; [| split].
  - refine (bool_decide_unpack _ _). by vm_compute.
  - intros name Hlead [Himg | Htail]%elem_of_app.
    + apply list_elem_of_fmap in Himg as (i & -> & _).
      by apply (image_field_not_leading i).
    + repeat (apply elem_of_cons in Htail as [-> | Htail];
              [revert Hlead; refine (bool_decide_unpack _ _);
               by vm_compute |]).
      by apply elem_of_nil in Htail.
  - apply NoDup_app. split; [| split].
    + apply NoDup_fmap_2; [| apply NoDup_seq].
      intros i j. apply image_field_inj.
    + intros name (i & -> & _)%list_elem_of_fmap Htail.
      unfold image_field in Htail.
      repeat (apply elem_of_cons in Htail as [Htail | Htail]; [done |]).
      by apply elem_of_nil in Htail.
    + refine (bool_decide_unpack _ _). by vm_compute.
Qed.

End FlattenerFurther.

Section FlattenerCells.
Import Generator.
Context `{Repr} `{Strlib}.

Lemma image_count_le_max products i p :
  products !! i = Some p -> (image_count p <= max_image_count products)%nat.
Proof.
  revert i. induction products as [|p0 ps IH]; intros i Hp; [done |].
  change (max_image_count (p0 :: ps))
    with (Nat.max (image_count p0) (max_image_count ps)).
  destruct i as [|i]; simpl in Hp.
  - inversion Hp. lia.
  - specialize (IH i Hp). lia.
Qed.

Lemma image_cols_entry max_images p images j :
  image_cols max_images p = Ok images ->
  (j < max_images)%nat ->
  exists cell,
    image_cell (get_default "image_urls" (VList []) p) j
    = Ok (image_field (j + 1), cell) /\
    forall tail, get (image_field (j + 1)) (images ++ tail) = Some cell.
Proof.
  intros Himg Hj. unfold image_cols in Himg. apply map_res_inv in Himg.
  assert (Hseq : seq 0 max_images !! j = Some j) by by apply lookup_seq_lt.
  destruct (Forall2_lookup_l _ _ _ _ _ Himg Hseq) as ([k v] & He & Hcell).
  pose proof (image_cell_inv _ _ _ Hcell) as [Hk _]. simpl in Hk. subst k.
  exists v. split; [done |].
  intros tail. apply (get_at_position _ j).
  - by rewrite lookup_app_l by by eapply lookup_lt_Some.
  - intros i kv Hi Hkv Heq.
    rewrite lookup_app_l in Hkv by (apply lookup_lt_Some in He; lia).
    destruct (Forall2_lookup_r _ _ _ _ _ Himg Hkv) as (i' & Hi' & Hc).
    apply lookup_seq in Hi' as [-> _]. simpl in Hc.
    apply image_cell_inv in Hc as [Hk _].
    rewrite Hk in Heq. apply image_field_inj in Heq. lia.
Qed.

Lemma written_image_cell
  products output_file d path d' i p urls j url :
  generate_csv products output_file d = (Ok path, d') ->
  products !! i = Some p ->
  get "image_urls" p = Some (VList urls) ->
  urls !! j = Some url ->
  exists f,
    files d' !! output_file = Some f /\
    cell_at f i (image_field (j + 1)) = Some (cell_text url).
Proof.
  intros Hgen Hp Hurls Hj.
  destruct (written_cell _ _ _ _ _ _ _ Hgen Hp)
    as (f & row & Hfile & Hhdr & Hcsv & Hcell).
  exists f. split; [done |].
  assert (Hcount : image_count p = length urls).
  { unfold image_count, get_default. by rewrite Hurls. }
  assert (Hlt : (j < max_image_count products)%nat).
  { pose proof (image_count_le_max _ _ _ Hp).
    apply lookup_lt_Some in Hj. lia. }
  rewrite (Hcell _ (j + length leading_fields)%nat)
    by (rewrite Hhdr; by apply find_image_column).
  destruct (csv_row_image_get _ _ _ (pretty (j + 1)%nat) Hcsv)
    as (images & tail & Himg & Hget).
  unfold get_default at 1. unfold image_field at 1. rewrite Hget.
  change ("image_" +:+ pretty (j + 1)%nat) with (image_field (j + 1)).
  destruct (image_cols_entry _ _ _ j Himg Hlt) as (cell & Hcellj & Hrow).
  rewrite Hrow. simpl. do 2 f_equal.
  unfold image_cell, get_default in Hcellj. rewrite Hurls in Hcellj.
  simpl in Hcellj.
  assert (Hltb : (j <? length urls)%nat = true).
  { apply Nat.ltb_lt. by eapply lookup_lt_Some. }
  rewrite Hltb, Hj in Hcellj. simpl in Hcellj. by inversion Hcellj.
Qed.

(** X16. The image cells of a record hold its image URLs in order:
    for a record whose [image_urls] is a list, the cell under
    [image_(j+1)] is the text of the URL at position [j]. *)
Theorem generate_csv_image_cells
  products output_file d path d' i p urls j url :
  generate_csv products output_file d = (Ok path, d') ->
  products !! i = Some p ->
  get "image_urls" p = Some (VList urls) ->
  urls !! j = Some url ->
  exists f,
    files d' !! output_file = Some f /\
    cell_at f i (image_field (j + 1)) = Some (cell_text url).
Proof. apply written_image_cell. Qed.

(** X17. The cell under each carried column (brand, name, description,
    type, category, the two availability flags, rating and review
    count) is the text of the record's field of that name: [str] of the
    value, and an empty cell when the field is absent or null. *)
Theorem generate_csv_carried_cells
  products output_file d path d' i p column :
  generate_csv products output_file d = (Ok path, d') ->
  products !! i = Some p ->
  column ∈ carried_fields ->
  exists f,
    files d' !! output_file = Some f /\
    cell_at f i column = Some (cell_text (get_default column (VStr "") p)) /\
    (get column p = None \/ get column p = Some VNone ->
     cell_at f i column = Some "").
Proof.
  intros Hgen Hp Hin.
  destruct (written_cell _ _ _ _ _ _ _ Hgen Hp)
    as (f & row & Hfile & Hhdr & Hcsv & Hcell).
  exists f. split; [done |].
  apply csv_row_inv in Hcsv
      as (weights & thc & images & tags & link & _ & _ & _ & _ & _ & ->).
  assert (Hmain : cell_at f i column
                  = Some (cell_text (get_default column (VStr "") p))).
  { unfold carried_fields in Hin.
    repeat (apply elem_of_cons in Hin as [-> | Hin];
            [erewrite Hcell;
             [reflexivity
             | rewrite Hhdr; apply find_leading_column;
               vm_compute; reflexivity] |]).
    by apply elem_of_nil in Hin. }
  split; [done |]. rewrite Hmain. unfold get_default.
  by intros [-> | ->].
Qed.

(** X18. The cell under each price column, original or discounted, of
    each of the five weights is a dollar sign followed by the text of
    the record's field of that name when the field is truthy, and is
    empty when the field is absent, null, zero or an empty string. *)
Theorem generate_csv_price_cells
  products output_file d path d' i p w :
  generate_csv products output_file d = (Ok path, d') ->
  products !! i = Some p ->
  w ∈ weights_keys ->
  exists f,
    files d' !! output_file = Some f /\
    cell_at f i ("price_" +:+ w) = Some (price_cell ("price_" +:+ w) p) /\
    cell_at f i ("discounted_price_" +:+ w)
    = Some (price_cell ("discounted_price_" +:+ w) p) /\
    forall key,
      price_cell key p
      = if truthy (get_default key VNone p)
        then "$" +:+ str (get_default key VNone p)
        else "".
Proof.
  intros Hgen Hp Hin.
  destruct (written_cell _ _ _ _ _ _ _ Hgen Hp)
    as (f & row & Hfile & Hhdr & Hcsv & Hcell).
  exists f. split; [done |].
  apply csv_row_inv in Hcsv
      as (weights & thc & images & tags & link & _ & _ & _ & _ & _ & ->).
  unfold weights_keys in Hin.
  split; [| split].
  - repeat (apply elem_of_cons in Hin as [-> | Hin];
            [erewrite Hcell;
             [reflexivity
             | rewrite Hhdr; apply find_leading_column;
               vm_compute; reflexivity] |]).
    by apply elem_of_nil in Hin.
  - repeat (apply elem_of_cons in Hin as [-> | Hin];
            [erewrite Hcell;
             [reflexivity
             | rewrite Hhdr; apply find_leading_column;
               vm_compute; reflexivity] |]).
    by apply elem_of_nil in Hin.
  - intros key. unfold price_cell, get_default.
    by destruct (get key p).
Qed.

(** X19. The THC cell of a record is empty when [inventory_potencies]
    is absent, null or empty, and is the text of the first entry's
    [thc_potency] followed by a percent sign when the first entry is a
    dict that has one. *)
Theorem generate_csv_thc_cell products output_file d path d' i p :
  generate_csv products output_file d = (Ok path, d') ->
  products !! i = Some p ->
  exists f,
    files d' !! output_file = Some f /\
    (truthy (get_default "inventory_potencies" VNone p) = false ->
     cell_at f i "THC_percent" = Some "") /\
    (forall first rest v,
       get "inventory_potencies" p = Some (VList (VDict first :: rest)) ->
       get "thc_potency" first = Some v ->
       cell_at f i "THC_percent" = Some (str v +:+ "%")).
Proof.
  intros Hgen Hp.
  destruct (written_cell _ _ _ _ _ _ _ Hgen Hp)
    as (f & row & Hfile & Hhdr & Hcsv & Hcell).
  exists f. split; [done |].
  apply csv_row_inv in Hcsv
      as (weights & thc & images & tags & link & _ & Hthc & _ & _ & _ & ->).
  assert (Hmain : cell_at f i "THC_percent" = Some thc).
  { erewrite Hcell;
      [reflexivity
      | rewrite Hhdr; apply find_leading_column; vm_compute; reflexivity]. }
  rewrite Hmain. split.
  - intros Habsent. rewrite (thc_percent_absent p Habsent) in Hthc.
    by inversion Hthc.
  - intros first rest v Hpot Hv.
    rewrite (thc_percent_first p first rest v Hpot Hv) in Hthc.
    by inversion Hthc.
Qed.

(** X20. A record whose [brand] or [name] is present but is not a
    string (a JSON null or number, say) makes the whole export raise:
    no file is written for any record of the batch. *)
Theorem generate_csv_text_field_not_string
  products output_file d i p key v :
  products !! i = Some p ->
  key = "brand" \/ key = "name" ->
  get key p = Some v ->
  is_str v = false ->
  exists e, generate_csv products output_file d = (Raise e, d).
Proof.
  intros Hp Hkey Hget Hstr.
  destruct (generate_csv products output_file d) as [[path | e] d'] eqn:Hgen.
  - exfalso.
    destruct (written_cell _ _ _ _ _ _ _ Hgen Hp)
      as (f & row & _ & _ & Hcsv & _).
    apply csv_row_inv in Hcsv
        as (weights & thc & images & tags & link & _ & _ & _ & _ & Hlink & _).
    unfold product_link, slug, get_default in Hlink.
    destruct Hkey as [-> | ->]; rewrite Hget in Hlink; simpl in Hlink.
    + by destruct v.
    + destruct (default (VStr "") (get "brand" p)); try done.
      simpl in Hlink. by destruct v.
  - exists e. by rewrite (generate_csv_raise_disk _ _ _ _ _ Hgen).
Qed.

End FlattenerCells.


(** ** The flattener's derived columns *)

Section FlattenerDerived.
Import Generator.
Context `{Repr} `{Strlib}.

Lemma weight_options_value p :
  typed_record p = true ->
  weight_options p = Ok (join " - " (title <$> weights_of p)).
Proof.
  intros (_ & Hw & _)%typed_record_parts.
  unfold weight_options, weights_of, get_default.
  destruct (get "available_weights" p) as [[| | | | |ws|]|]; try done.
  simpl.
  assert (Hmap : map_res
                   (fun w => match w with
                             | VStr s => Ok (title s)
                             | _ => Raise AttributeError
                             end) ws
                 = Ok (title <$>
                         omap (fun w => match w with
                                        | VStr s => Some s
                                        | _ => None
                                        end) ws)).
  { induction ws as [|w ws IH]; [done |].
    simpl in Hw. apply andb_prop in Hw as [Hs Hws].
    destruct w; try done. simpl. by rewrite (IH Hws). }
  by rewrite Hmap.
Qed.

Lemma special_labels_value specials tags :
  forallb
    (fun kv => match snd kv with
               | VDict sp => text_field "discount_label" sp
               | _ => false
               end) specials = true ->
  special_labels specials tags
  = Ok (tags ++ (VStr <$> discount_labels specials)).
Proof.
  revert tags. induction specials as [|[k sp] rest IH]; intros tags Htyped.
  - simpl. by rewrite app_nil_r.
  - simpl in Htyped. apply andb_prop in Htyped as [Hsp Hrest].
    destruct sp as [| | | | | |spd]; try done.
    change (discount_labels ((k, VDict spd) :: rest))
      with (match (match get "discount_label" spd with
                   | Some (VStr label) =>
                       if String.eqb label "" then None else Some label
                   | _ => None
                   end) with
            | Some label => label :: discount_labels rest
            | None => discount_labels rest
            end).
    simpl. unfold text_field in Hsp. unfold get_default.
    destruct spd as [|kv spd']; [by apply IH |].
    destruct (get "discount_label" (kv :: spd')) as [label|]; simpl;
      [| by apply IH].
    destruct label as [| | | |s| |]; try done. simpl.
    destruct (String.eqb s ""); simpl; [by apply IH |].
    rewrite (IH _ Hrest). by rewrite <- app_assoc.
Qed.

Lemma tags_str_value p :
  typed_record p = true ->
  tags_str p = Ok (join ", " (discount_labels (specials_of p))).
Proof.
  intros (_ & _ & _ & Hs & _)%typed_record_parts.
  unfold tags_str, specials_of, get_default.
  destruct (get "brand_special_prices" p) as [[| | | | | |specials]|];
    try done.
  destruct specials as [|kv specials']; [done |].
  cbn -[special_labels discount_labels].
  rewrite (special_labels_value _ [] Hs), app_nil_l.
  generalize (discount_labels (kv :: specials')). intros labels.
  assert (Hmap : map_res
                   (fun t => match t with
                             | VStr s => Ok s
                             | _ => Raise TypeError
                             end) (VStr <$> labels)
                 = Ok labels).
  { induction labels as [|l ls IH]; [done |].
    rewrite fmap_cons. simpl. by rewrite IH. }
  cbn -[map_res]. by rewrite Hmap.
Qed.

Lemma find_tags_column max_images :
  exists k,
    list_find (fun name => name = "tags") (csv_fields max_images)
    = Some (k, "tags").
Proof.
  unfold csv_fields.
  change (static_fields ++
          flat_map (fun w => ["price_" +:+ w; "discounted_price_" +:+ w])
            weights_keys ++
          (image_field <$> seq 1 max_images) ++ ["tags"; "product_link"])
    with (leading_fields
          ++ ((image_field <$> seq 1 max_images) ++ ["tags"; "product_link"])).
  rewrite list_find_app_r.
  2:{ apply list_find_None. unfold leading_fields. simpl.
      repeat constructor; discriminate. }
  rewrite list_find_app_r.
  2:{ apply list_find_None, Forall_fmap, Forall_forall.
      intros i _. simpl. unfold image_field. discriminate. }
  assert (Hhere : list_find (fun name : string => name = "tags")
                    ["tags"; "product_link"] = Some (0%nat, "tags")).
  { by vm_compute. }
  rewrite Hhere. simpl. eauto.
Qed.

Lemma get_tags_past_leading (p : record) rest
  (c1 c2 c3 c4 c5 c6 c7 c8 c9 c10 c11 : value) :
  get "tags"
    ([("brand", c1); ("name", c2); ("description", c3); ("type", c4);
      ("category", c5); ("weight_options", c6); ("THC_percent", c7);
      ("available_for_pickup", c8); ("available_for_delivery", c9);
      ("aggregate_rating", c10); ("review_count", c11)]
     ++ row_prices p ++ rest)
  = get "tags" rest.
Proof. reflexivity. Qed.

Lemma get_tags_past_images max_images p images tail :
  image_cols max_images p = Ok images ->
  get "tags" (images ++ tail) = get "tags" tail.
Proof.
  unfold image_cols. intros Himg%map_res_inv.
  induction Himg as [|i [k v] is' images' Hcell _ IH]; [done |].
  apply image_cell_inv in Hcell as [Hk _]. simpl in Hk. subst k.
  rewrite <- IH. reflexivity.
Qed.

(** X21. Over a record of the data model, the cell under
    [weight_options] is the record's weights in title case joined by
    [" - "], and the cell under [tags] is the non-empty discount labels
    of its specials, in the order of the dict, joined by [", "]; both
    are empty when the record has no such field. *)
Theorem generate_csv_derived_cells products output_file d path d' i p :
  generate_csv products output_file d = (Ok path, d') ->
  products !! i = Some p ->
  typed_record p = true ->
  exists f,
    files d' !! output_file = Some f /\
    cell_at f i "weight_options"
    = Some (join " - " (title <$> weights_of p)) /\
    cell_at f i "tags"
    = Some (join ", " (discount_labels (specials_of p))).
Proof.
  intros Hgen Hp Htyped.
  destruct (written_cell _ _ _ _ _ _ _ Hgen Hp)
    as (f & row & Hfile & Hhdr & Hcsv & Hcell).
  exists f. split; [done |].
  apply csv_row_inv in Hcsv
      as (weights & thc & images & tags & link
          & Hweights & _ & Himg & Htags & _ & ->).
  rewrite (weight_options_value p Htyped) in Hweights.
  rewrite (tags_str_value p Htyped) in Htags.
  inversion Hweights; subst weights. inversion Htags; subst tags.
  split.
  - erewrite Hcell;
      [reflexivity
      | rewrite Hhdr; apply find_leading_column; vm_compute; reflexivity].
  - destruct (find_tags_column (max_image_count products)) as [k Hk].
    rewrite (Hcell "tags" k) by by rewrite Hhdr.
    unfold get_default.
    rewrite get_tags_past_leading, (get_tags_past_images _ _ _ _ Himg).
    reflexivity.
Qed.

End FlattenerDerived.

(** ** The scraper *)

Section ScraperFurther.
Import Scraper.
Context `{Web}.
Variable base_url : string.

Lemma length_link_yield selectors n link :
  (length (link_yield base_url selectors n link) <= 1)%nat.
Proof.
  unfold link_yield. destruct (get_page base_url n link) as [page|]; [| simpl; lia].
  destruct (extract_product_data page selectors); simpl; lia.
Qed.

Lemma length_yields selectors n links :
  (length (concat (imap (fun i link =>
                           link_yield base_url selectors (n + i) link) links))
   <= length links)%nat.
Proof.
  revert n. induction links as [|link rest IH]; intros n; [done |].
  rewrite imap_cons. simpl. rewrite length_app.
  pose proof (length_link_yield selectors (n + 0) link).
  assert (Hrest : imap ((fun i l => link_yield base_url selectors (n + i) l)
                        ∘ S) rest
                  = imap (fun i l => link_yield base_url selectors (S n + i) l)
                      rest).
  { apply imap_ext. intros i l _. simpl. f_equal. lia. }
  rewrite Hrest. specialize (IH (S n)). lia.
Qed.

(** X22. A scrape returns at most [max_products] records when
    [max_products] is not negative (none at all for 0); a negative
    [max_products] does not mean "no limit": it drops that many links
    from the end of the listing, as a Python slice does. *)
Theorem scrape_products_at_most_max
  category_url selector selectors max_products :
  (0 <= max_products ->
   (length (scrape_products base_url category_url selector selectors
              max_products)
    <= Z.to_nat max_products)%nat) /\
  (forall category_soup,
     get_page base_url 0 category_url = Some category_soup ->
     max_products < 0 ->
     (length (scrape_products base_url category_url selector selectors
                max_products)
      <= length (extract_product_links base_url category_soup selector)
         - Z.to_nat (- max_products))%nat).
Proof.
  split.
  - intros Hmax.
    destruct (get_page base_url 0 category_url) as [category_soup|] eqn:Hpage.
    + rewrite (scrape_products_yields _ _ _ _ _ _ Hpage).
      pose proof (length_yields selectors 1
                    (visited_links base_url category_soup selector
                       max_products)) as Hlen.
      simpl in Hlen. etransitivity; [exact Hlen |].
      unfold visited_links, slice_to.
      destruct (0 <=? max_products) eqn:E; [| lia].
      rewrite length_take. lia.
    + unfold scrape_products. rewrite Hpage. simpl. lia.
  - intros category_soup Hpage Hmax.
    rewrite (scrape_products_yields _ _ _ _ _ _ Hpage).
    pose proof (length_yields selectors 1
                  (visited_links base_url category_soup selector
                     max_products)) as Hlen.
    simpl in Hlen. etransitivity; [exact Hlen |].
    unfold visited_links, slice_to.
    destruct (0 <=? max_products) eqn:E; [lia |].
    rewrite length_take. lia.
Qed.

Lemma yields_sublist selectors n links :
  omap (get "product_url")
    (concat (imap (fun i link => link_yield base_url selectors (n + i) link)
               links))
  `sublist_of` (VStr <$> links).
Proof.
  revert n. induction links as [|link rest IH]; intros n; [done |].
  rewrite imap_cons. simpl.
  assert (Hrest : imap ((fun i l => link_yield base_url selectors (n + i) l)
                        ∘ S) rest
                  = imap (fun i l => link_yield base_url selectors (S n + i) l)
                      rest).
  { apply imap_ext. intros i l _. simpl. f_equal. lia. }
  rewrite Hrest. rewrite omap_app.
  assert (Hhead : omap (get "product_url")
                    (link_yield base_url selectors (n + 0) link) = []
                  \/ omap (get "product_url")
                       (link_yield base_url selectors (n + 0) link)
                     = [VStr link]).
  { unfold link_yield.
    destruct (get_page base_url (n + 0) link) as [page|]; [| by left].
    destruct (extract_product_data page selectors) as [|kv data] eqn:Hdata;
      [by left |].
    right. change (omap (get "product_url")
                     [set "product_url" (VStr link) (kv :: data)])
             with (match get "product_url"
                           (set "product_url" (VStr link) (kv :: data)) with
                   | Some v => [v]
                   | None => []
                   end).
    by rewrite get_set_eq. }
  destruct Hhead as [-> | ->].
  - apply sublist_cons. apply (IH (S n)).
  - apply (sublist_skip (VStr link)). apply (IH (S n)).
Qed.

(** X23. The records of a scrape come in the order of the listing:
    their [product_url]s, read in order, are a subsequence of the links
    the scrape visits, and every record has one. *)
Theorem scrape_products_listing_order
  category_url selector selectors max_products category_soup :
  get_page base_url 0 category_url = Some category_soup ->
  omap (get "product_url")
    (scrape_products base_url category_url selector selectors max_products)
  `sublist_of`
  (VStr <$> visited_links base_url category_soup selector max_products) /\
  length (omap (get "product_url")
            (scrape_products base_url category_url selector selectors
               max_products))
  = length (scrape_products base_url category_url selector selectors
              max_products).
Proof.
  intros Hpage. split.
  - rewrite (scrape_products_yields _ _ _ _ _ _ Hpage).
    apply (yields_sublist selectors 1).
  - set (rs := scrape_products _ _ _ _ _).
    assert (Hall : Forall (fun r => is_Some (get "product_url" r)) rs).
    { apply Forall_forall. intros r Hr. unfold rs in Hr.
      rewrite (scrape_products_yields _ _ _ _ _ _ Hpage) in Hr.
      apply list_elem_of_In, in_concat in Hr as (ys & Hys & Hr).
      apply list_elem_of_In in Hys, Hr.
      apply elem_of_lookup_imap_1 in Hys as (i & link & -> & Hi).
      apply elem_of_link_yield in Hr as (page & _ & _ & Hurl). eauto. }
    clearbody rs. induction Hall as [|r rs' [v Hv] _ IH]; [done |].
    simpl. rewrite Hv. simpl. by f_equal.
Qed.

Lemma extract_fields_raises page selectors field selector product :
  (field, selector) ∈ selectors ->
  select page selector = None ->
  extract_fields page selectors product = None.
Proof.
  intros Hin Hsel. revert product.
  induction selectors as [|[f s] rest IH]; intros product;
    [by apply elem_of_nil in Hin |].
  simpl. apply elem_of_cons in Hin as [Heq | Hin].
  - inversion Heq; subst. by rewrite Hsel.
  - destruct (select page s) as [[|first others]|]; [by apply IH | | done].
    destruct (String.eqb f "image_urls"); by apply IH.
Qed.

(** X24. One selector that [select] raises on empties the whole
    record, the fields extracted before it included: the page gives an
    empty record and its link adds nothing to the scrape. *)
Theorem extract_product_data_selector_raises
  page selectors field selector :
  (field, selector) ∈ selectors ->
  select page selector = None ->
  extract_product_data page selectors = [] /\
  forall n link,
    get_page base_url n link = Some page ->
    link_yield base_url selectors n link = [].
Proof.
  intros Hin Hsel.
  assert (Hdata : extract_product_data page selectors = []).
  { unfold extract_product_data.
    by rewrite (extract_fields_raises _ _ _ _ _ Hin Hsel). }
  split; [done |].
  intros n link Hpage. unfold link_yield. by rewrite Hpage, Hdata.
Qed.

Lemma extract_fields_values page selectors product r k v :
  extract_fields page selectors product = Some r ->
  get k r = Some v ->
  get k product = Some v \/
  exists selector first others,
    (k, selector) ∈ selectors /\
    select page selector = Some (first :: others) /\
    v = if String.eqb k "image_urls"
        then VList (image_sources (first :: others))
        else VStr (strip (get_text first)).
Proof.
  revert product.
  induction selectors as [|[f s] rest IH]; intros product Hext Hget.
  - simpl in Hext. inversion Hext; subst. by left.
  - simpl in Hext.
    destruct (select page s) as [[|first others]|] eqn:Hsel; [| | done].
    + destruct (IH _ Hext Hget) as [Hold | (s' & a & b & Hin & Hs & Hv)];
        [by left |].
      right. exists s', a, b. split; [by apply list_elem_of_further | done].
    + assert (Hstep :
                forall w,
                  extract_fields page rest (set f w product) = Some r ->
                  w = (if String.eqb f "image_urls"
                       then VList (image_sources (first :: others))
                       else VStr (strip (get_text first))) ->
                  get k product = Some v \/
                  exists selector a b,
                    (k, selector) ∈ (f, s) :: rest /\
                    select page selector = Some (a :: b) /\
                    v = if String.eqb k "image_urls"
                        then VList (image_sources (a :: b))
                        else VStr (strip (get_text a))).
      { intros w Hw Hweq.
        destruct (IH _ Hw Hget) as [Hold | (s' & a & b & Hin & Hs & Hv)].
        - destruct (decide (k = f)) as [-> | Hne].
          + rewrite get_set_eq in Hold. inversion Hold; subst v.
            right. exists s, first, others.
            split; [apply list_elem_of_here |]. split; [done |]. exact Hweq.
          + rewrite get_set_ne in Hold by done. by left.
        - right. exists s', a, b.
          split; [by apply list_elem_of_further | done]. }
      destruct (String.eqb f "image_urls") eqn:Hf; by eapply Hstep.
Qed.

(** X25. Every field of an extracted record is one of the configured
    fields whose selector matched something, and holds what the page
    gives for it: the stripped text of the first match, or for
    [image_urls] the list of the non-empty [src] attributes of all the
    matches. *)
Theorem extract_product_data_fields page selectors k v :
  get k (extract_product_data page selectors) = Some v ->
  exists selector first others,
    (k, selector) ∈ selectors /\
    select page selector = Some (first :: others) /\
    v = if String.eqb k "image_urls"
        then VList (image_sources (first :: others))
        else VStr (strip (get_text first)).
Proof.
  unfold extract_product_data.
  destruct (extract_fields page selectors []) as [r|] eqn:Hext; [| done].
  simpl. intros Hget.
  by destruct (extract_fields_values _ _ _ _ _ _ Hext Hget) as [Hold | Hnew].
Qed.

End ScraperFurther.


(** ** The pipeline *)

Section PipelineProperties.
Import Loader Downloader Generator Pipeline.
Context `{Json} `{Repr} `{Urllib} `{Strlib}.

Lemma leading_records_dicts records :
  leading_records (VDict <$> records) = (records, None).
Proof.
  induction records as [|r rs IH]; [done |].
  rewrite fmap_cons. simpl. by rewrite IH.
Qed.


Lemma leading_records_stop products v :
  v ∈ products ->
  (forall r, v <> VDict r) ->
  exists records w, leading_records products = (records, Some w).
Proof.
  induction products as [|x xs IH]; intros Hin Hv;
    [by apply elem_of_nil in Hin |].
  apply elem_of_cons in Hin as [-> | Hin].
  - destruct x; simpl; eauto. by destruct (Hv d).
  - destruct (IH Hin Hv) as (rs & w & Heq).
    destruct x; simpl; eauto. rewrite Heq. simpl. eauto.
Qed.





(** X27. An item of the loaded data that is no JSON object (a number
    or a string inside a list, say) makes the whole run fail, with
    downloads or without: nothing is downloaded and nothing is
    written. *)
Theorem process_products_non_object_item fs replies cfg d products v :
  load_json_files fs (input_dir cfg) = Ok products ->
  v ∈ products ->
  (forall r, v <> VDict r) ->
  exists f, process_products fs replies cfg d = (Failed f, [], d).
Proof.
  intros Hload Hin Hv.
  destruct (leading_records_stop _ _ Hin Hv) as (records & w & Hlead).
  unfold process_products, fetch_images, write_csv. rewrite Hload, Hlead.
  destruct (download_images cfg).
  - destruct (collect_tasks (images_dir cfg) records []); eauto.
  - destruct (find_max_images records 0); eauto.
Qed.

(** X28. A folder whose [.json] files all parse but hold no product
    (an empty list, or a value that is neither list nor object) makes
    the run fail with the flattener's ValueError, with downloads or
    without; nothing is downloaded and nothing is written. *)
Theorem process_products_nothing_loaded fs replies cfg d entries vs :
  fs (input_dir cfg) = Some (Folder entries) ->
  Forall2 parses_to (json_entries entries) vs ->
  Forall (fun v => contribution v = []) vs ->
  process_products fs replies cfg d = (Failed (Raised ValueError), [], d).
Proof.
  intros Hfs Hparse Hnone.
  assert (Hload : load_json_files fs (input_dir cfg) = Ok []).
  { unfold load_json_files. rewrite Hfs.
    rewrite (load_entries_ok _ _ [] Hparse). simpl. f_equal.
    clear Hparse. induction Hnone as [|v vs' Hv _ IH]; [done |].
    rewrite fmap_cons. simpl. by rewrite Hv, IH. }
  unfold process_products. rewrite Hload.
  by destruct (download_images cfg).
Qed.

Lemma replace_from_lookup mapping steps i l :
  (forall j url, (i <= j)%nat -> l !! j = Some url -> hashable url = true) ->
  (i + steps)%nat = length l ->
  exists l',
    replace_from mapping steps i l = Ok l' /\
    forall j,
      l' !! j
      = if (j <? i)%nat then l !! j
        else (fun url => default url (assoc_get key_eqb url mapping))
               <$> (l !! j).
Proof.
  revert i l. induction steps as [|steps IH]; intros i l Hhash Hlen.
  - exists l. split; [done |]. intros j.
    destruct (j <? i)%nat eqn:E; [done |]. apply Nat.ltb_ge in E.
    by rewrite lookup_ge_None_2 by lia.
  - simpl. destruct (l !! i) as [url|] eqn:Hi;
      [| apply lookup_ge_None in Hi; lia].
    rewrite (Hhash i url (le_n _) Hi).
    set (l1 := match assoc_get key_eqb url mapping with
               | Some path => <[i:=path]> l
               | None => l
               end).
    assert (Hlen1 : length l1 = length l).
    { unfold l1. destruct (assoc_get key_eqb url mapping);
        by rewrite ?length_insert. }
    assert (Hl1 : forall j, j <> i -> l1 !! j = l !! j).
    { intros j Hj. unfold l1.
      destruct (assoc_get key_eqb url mapping); [| done].
      by apply list_lookup_insert_ne. }
    assert (Hl1i : l1 !! i
                   = Some (default url (assoc_get key_eqb url mapping))).
    { unfold l1. destruct (assoc_get key_eqb url mapping); simpl; [| done].
      apply list_lookup_insert_eq. by eapply lookup_lt_Some. }
    destruct (IH (S i) l1) as (l' & Hrun & Hl').
    + intros j u Hj Hu. rewrite Hl1 in Hu by lia.
      apply (Hhash j u); [lia | done].
    + lia.
    + exists l'. split; [done |]. intros j. rewrite Hl'.
      destruct (decide (j = i)) as [-> | Hne].
      * rewrite (proj2 (Nat.ltb_lt i (S i))) by lia.
        rewrite Nat.ltb_irrefl. by rewrite Hl1i, Hi.
      * rewrite !Hl1 by done.
        destruct (j <? S i)%nat eqn:E1, (j <? i)%nat eqn:E2; try done.
        -- apply Nat.ltb_lt in E1. apply Nat.ltb_ge in E2. lia.
        -- apply Nat.ltb_ge in E1. apply Nat.ltb_lt in E2. lia.
Qed.

Lemma image_mapping_lookup (g : value -> string) locals i urls mapping :
  (forall u u', key_eqb u u' = true -> g u = g u') ->
  Forall (fun url => hashable url = true) urls ->
  (forall j url,
     urls !! j = Some url -> locals !! (i + j)%nat = Some (VStr (g url))) ->
  exists final,
    image_mapping (VList locals) i urls mapping = Ok final /\
    forall u,
      assoc_get key_eqb u final
      = if existsb (fun url => key_eqb url u && negb (String.eqb (g url) ""))
             urls
        then Some (VStr (g u))
        else assoc_get key_eqb u mapping.
Proof.
  intros Hg Hhash. revert i mapping.
  induction Hhash as [|url urls Hurl _ IH]; intros i mapping Hloc.
  - exists mapping. by split.
  - pose proof (Hloc 0%nat url eq_refl) as Hi. rewrite Nat.add_0_r in Hi.
    assert (Hlt : (i <? length locals)%nat = true).
    { apply Nat.ltb_lt. by eapply lookup_lt_Some. }
    assert (Hrest : forall j u,
               urls !! j = Some u ->
               locals !! (S i + j)%nat = Some (VStr (g u))).
    { intros j u Hj. specialize (Hloc (S j) u Hj).
      by replace (S i + j)%nat with (i + S j)%nat by lia. }
    change (image_mapping (VList locals) i (url :: urls) mapping)
      with (let* mapping' := note_local_path (VList locals) mapping i url in
            image_mapping (VList locals) (S i) urls mapping').
    unfold note_local_path. simpl. rewrite Hlt, Hi. simpl. rewrite Hurl.
    destruct (String.eqb (g url) "") eqn:Hempty; simpl.
    + destruct (IH (S i) mapping Hrest) as (final & Hrun & Hfinal).
      exists final. split; [done |]. intros u. rewrite Hfinal.
      by rewrite andb_false_r.
    + destruct (IH (S i) (assoc_set key_eqb url (VStr (g url)) mapping) Hrest)
        as (final & Hrun & Hfinal).
      exists final. split; [done |]. intros u. rewrite Hfinal.
      rewrite andb_true_r.
      destruct (existsb _ urls); [by rewrite orb_true_r |].
      rewrite orb_false_r.
      rewrite (assoc_get_set key_eqb key_eqb_sym key_eqb_trans).
      destruct (key_eqb url u) eqn:Hu; [| done].
      by rewrite (Hg _ _ Hu).
Qed.

Lemma localise_fetched (g : value -> string) urls p :
  (forall u u', key_eqb u u' = true -> g u = g u') ->
  get "image_urls" p = Some (VList urls) ->
  Forall (fun url => hashable url = true) urls ->
  localise
    (set "local_image_paths" (VList ((fun url => VStr (g url)) <$> urls)) p)
  = Done
      (set "image_urls"
         (VList ((fun url => shown_image (g url) url) <$> urls))
         (set "local_image_paths"
            (VList ((fun url => VStr (g url)) <$> urls)) p)).
Proof.
  intros Hg Hurls Hhash. unfold localise.
  rewrite get_set_eq, get_set_ne by done. rewrite Hurls. simpl.
  destruct (image_mapping_lookup g ((fun url => VStr (g url)) <$> urls)
              0 urls [] Hg Hhash) as (final & -> & Hfinal).
  { intros j url Hj. simpl. by rewrite list_lookup_fmap, Hj. }
  destruct (replace_from_lookup final (length urls) 0 urls)
    as (l' & -> & Hl').
  { intros j url _ Hj. rewrite Forall_forall in Hhash. apply Hhash.
    by eapply list_elem_of_lookup_2. }
  { done. }
  do 3 f_equal. apply list_eq. intros j. rewrite Hl'. simpl.
  rewrite list_lookup_fmap.
  destruct (urls !! j) as [url|] eqn:Hj; [| done]. simpl. f_equal.
  rewrite Hfinal. simpl. unfold shown_image.
  assert (Hurl : hashable url = true).
  { rewrite Forall_forall in Hhash. apply Hhash.
    by eapply list_elem_of_lookup_2. }
  destruct (String.eqb (g url) "") eqn:Hempty.
  - destruct (existsb _ urls) eqn:Hex; [| done].
    apply existsb_exists in Hex as (u & _ & [Hu Hne]%andb_prop).
    rewrite (Hg _ _ Hu), Hempty in Hne. done.
  - assert (Hex : existsb
                    (fun u => key_eqb u url && negb (String.eqb (g u) ""))
                    urls = true).
    { apply existsb_exists. exists url. split.
      - apply list_elem_of_In. by eapply list_elem_of_lookup_2.
      - by rewrite (key_eqb_refl _ Hurl), Hempty. }
    by rewrite Hex.
Qed.

Lemma recorded_path_proper outcomes product_id u u' :
  key_eqb u u' = true ->
  recorded_path outcomes product_id u = recorded_path outcomes product_id u'.
Proof.
  intros Hu. unfold recorded_path. do 3 f_equal.
  apply list_filter_iff. intros a. unfold succeeded_for_url.
  assert (Heq : key_eqb (snd (fst a)) u = key_eqb (snd (fst a)) u').
  { destruct (key_eqb (snd (fst a)) u) eqn:E1,
             (key_eqb (snd (fst a)) u') eqn:E2; try done.
    - by rewrite (key_eqb_trans _ _ _ E1 Hu) in E2.
    - by rewrite (key_eqb_trans _ _ _ E2 (key_eqb_sym _ _ Hu)) in E1. }
  by rewrite Heq.
Qed.

Lemma typed_images_urls p j url :
  typed_images p = true ->
  urls_of p !! j = Some url ->
  get "image_urls" p = Some (VList (urls_of p)) /\
  Forall (fun u => hashable u = true) (urls_of p).
Proof.
  intros Htyped Hj.
  pose proof (typed_images_fetchable p Htyped) as Hfetch.
  unfold fetchable in Hfetch. apply andb_prop in Hfetch as [_ Hfetch].
  unfold typed_images in Htyped. apply andb_prop in Htyped as [_ Htyped].
  unfold urls_of, image_urls_of, get_default in *.
  destruct (get "image_urls" p) as [[| | | | |urls|]|]; try done.
  simpl in *. split; [done |].
  apply Forall_forall. intros u Hu. rewrite forallb_forall in Hfetch.
  by apply Hfetch, list_elem_of_In.
Qed.

Lemma typed_record_localised p v l :
  typed_record p = true ->
  typed_record (set "image_urls" (VList l) (set "local_image_paths" v p))
  = true.
Proof.
  intros (_ & Hw & Hpot & Hsp & Hbrand & Hname)%typed_record_parts.
  unfold typed_record, text_field in *.
  rewrite get_set_eq. rewrite !get_set_ne by done.
  by rewrite Hw, Hpot, Hsp, Hbrand, Hname.
Qed.

(** What the download and the replacement loop together make of one
    record of the data model that came without local paths. *)
Lemma localise_shape outcomes p q :
  typed_images p = true ->
  get "local_image_paths" p = None ->
  (if has_download outcomes (product_id_of p)
   then q =
        set "local_image_paths"
          (VList ((fun url =>
                     VStr (recorded_path outcomes (product_id_of p) url))
                    <$> urls_of p))
          p
   else q = p) ->
  exists q',
    localise q = Done q' /\
    (typed_record p = true -> typed_record q' = true) /\
    forall j url,
      urls_of p !! j = Some url ->
      exists l,
        get "image_urls" q' = Some (VList l) /\
        l !! j
        = Some (shown_image
                  (recorded_path outcomes (product_id_of p) url) url).
Proof.
  intros Htyped Hfresh Hshape.
  destruct (has_download outcomes (product_id_of p)) eqn:Hhas; subst q.
  - destruct (get "image_urls" p) as [image_urls|] eqn:Hget.
    + assert (Hlist : image_urls = VList (urls_of p) /\
                      Forall (fun u => hashable u = true) (urls_of p)).
      { pose proof (typed_images_fetchable p Htyped) as Hfetch.
        unfold fetchable in Hfetch. apply andb_prop in Hfetch as [_ Hfetch].
        unfold typed_images in Htyped.
        apply andb_prop in Htyped as [_ Htyped].
        unfold urls_of, image_urls_of, get_default in *.
        rewrite Hget in *. simpl in *.
        destruct image_urls; try done. simpl in *. split; [done |].
        apply Forall_forall. intros u Hu. rewrite forallb_forall in Hfetch.
        by apply Hfetch, list_elem_of_In. }
      destruct Hlist as [-> Hhash].
      eexists. split; [| split].
      * apply (localise_fetched
                 (recorded_path outcomes (product_id_of p))); [| done | done].
        intros u u'. apply recorded_path_proper.
      * intros Hrec. by apply typed_record_localised.
      * intros j url Hj. eexists. split; [apply get_set_eq |].
        by rewrite list_lookup_fmap, Hj.
    + exists (set "local_image_paths"
                (VList ((fun url =>
                           VStr (recorded_path outcomes (product_id_of p) url))
                          <$> urls_of p)) p).
      split; [| split].
      * unfold localise. rewrite get_set_eq, get_set_ne by done.
        by rewrite Hget.
      * intros (Hi & Hw & Hpot & Hsp & Hbrand & Hname)%typed_record_parts.
        unfold typed_record, text_field in *.
        rewrite !get_set_ne by done.
        by rewrite Hi, Hw, Hpot, Hsp, Hbrand, Hname.
      * intros j url Hj. unfold urls_of, image_urls_of, get_default in Hj.
        by rewrite Hget in Hj.
  - exists p. split; [| split; [done |]].
    + unfold localise. by rewrite Hfresh.
    + intros j url Hj.
      destruct (typed_images_urls _ _ _ Htyped Hj) as [Hget _].
      eexists. split; [exact Hget |]. rewrite Hj. f_equal.
      unfold shown_image, recorded_path.
      by rewrite (has_download_none_filter _ _ _ Hhas).
Qed.

Lemma localise_all_inv products products' :
  localise_all products = Done products' <->
  Forall2 (fun q q' => localise q = Done q') products products'.
Proof.
  revert products'. induction products as [|q qs IH]; intros products'.
  - simpl. split.
    + intros Heq. inversion Heq. constructor.
    + intros Hall. by inversion Hall.
  - simpl. split.
    + destruct (localise q) as [q'|] eqn:Hq; [| done].
      destruct (localise_all qs) as [qs'|]; [| done].
      intros Heq. inversion Heq. constructor; [done |]. by apply IH.
    + intros Hall. inversion Hall as [|? q' ? qs' Hq Hqs]; subst.
      rewrite Hq. apply IH in Hqs. by rewrite Hqs.
Qed.

(** The records the pipeline hands to the flattener after a download. *)
Lemma localised_records replies records output_dir workers fetched :
  fst (download_product_images replies records output_dir workers)
  = Ok fetched ->
  Forall (fun p => typed_images p = true) records ->
  Forall (fun p => get "local_image_paths" p = None) records ->
  exists localised,
    localise_all fetched = Done localised /\
    Forall2
      (fun p q' =>
         (typed_record p = true -> typed_record q' = true) /\
         forall j url,
           urls_of p !! j = Some url ->
           exists l,
             get "image_urls" q' = Some (VList l) /\
             l !! j
             = Some (shown_image
                       (recorded_path (attempts replies output_dir records)
                          (product_id_of p) url) url))
      records localised.
Proof.
  intros Hok Htyped Hfresh.
  assert (Hshape :
            Forall2
              (fun p q =>
                 typed_images p = true /\
                 get "local_image_paths" p = None /\
                 if has_download (attempts replies output_dir records)
                      (product_id_of p)
                 then q =
                      set "local_image_paths"
                        (VList ((fun url =>
                                   VStr (recorded_path
                                           (attempts replies output_dir records)
                                           (product_id_of p) url))
                                  <$> urls_of p))
                        p
                 else q = p)
              records fetched).
  { pose proof (download_product_images_inv _ _ _ _ _ Hok) as Hinv.
    apply Forall2_same_length_lookup_2; [by eapply Forall2_length |].
    intros i p q Hp Hq.
    rewrite Forall_forall in Htyped, Hfresh.
    split; [by eapply Htyped, list_elem_of_lookup_2 |].
    split; [by eapply Hfresh, list_elem_of_lookup_2 |].
    by destruct (fetched_record _ _ _ _ _ _ _ _ Hok Hp Hq) as [_ Hrec]. }
  clear Hok Htyped Hfresh.
  set (outcomes := attempts replies output_dir records) in *.
  clearbody outcomes.
  induction Hshape as [|p q ps qs (Ht & Hf & Hs) _ IH].
  - exists []. split; [done | constructor].
  - destruct (localise_shape outcomes p q Ht Hf Hs) as (q' & Hq & Hrec & Hcells).
    destruct IH as (qs' & Hqs & Hall).
    exists (q' :: qs'). split.
    + simpl. by rewrite Hq, Hqs.
    + by constructor.
Qed.

(** X29. After a run with downloads over records of the data model,
    the image cell of every URL holds the local path of the file when a
    download of that URL succeeded for the record's product id, and the
    URL itself when none did. *)
Theorem process_products_image_cells
  fs replies cfg d calls d' records :
  load_json_files fs (input_dir cfg) = Ok (VDict <$> records) ->
  download_images cfg = true ->
  Forall (fun p => typed_images p = true) records ->
  Forall (fun p => get "local_image_paths" p = None) records ->
  process_products fs replies cfg d = (Done tt, calls, d') ->
  forall i p j url,
    records !! i = Some p ->
    urls_of p !! j = Some url ->
    exists f,
      files d' !! output_csv cfg = Some f /\
      cell_at f i (image_field (j + 1))
      = Some (cell_text
                (shown_image
                   (recorded_path (attempts replies (images_dir cfg) records)
                      (product_id_of p) url)
                   url)).
Proof.
  intros Hload Hdl Htyped Hfresh. unfold process_products, fetch_images.
  rewrite Hload, Hdl, leading_records_dicts.
  destruct (download_product_images replies records (images_dir cfg)
              (max_workers cfg)) as [[fetched|e] calls0] eqn:Hfetch; [| done].
  assert (Hok : fst (download_product_images replies records (images_dir cfg)
                       (max_workers cfg)) = Ok fetched) by by rewrite Hfetch.
  destruct (localised_records _ _ _ _ _ Hok Htyped Hfresh)
    as (localised & -> & Hall).
  destruct (generate_csv localised (output_csv cfg) d) as [[path|e] d0]
    eqn:Hgen; [| done].
  intros Heq i p j url Hp Hj. simplify_eq.
  destruct (Forall2_lookup_l _ _ _ _ _ Hall Hp) as (q' & Hq' & _ & Hcells).
  destruct (Hcells j url Hj) as (l & Hget & Hl).
  by eapply written_image_cell.
Qed.


End PipelineProperties.


(** ** Witnesses for the further properties *)

(** *** The loader *)

Lemma load_json_files_other_entries_witness :
  @Loader.load_json_files sample_json sample_fs "data"
  = @Loader.load_json_files sample_json json_only_fs "tidy".
Proof.
  apply (@load_json_files_other_entries sample_json sample_fs json_only_fs
           "data" "tidy" sample_entries
           [("a.json", Loader.RegularFile "[{},{}]");
            ("b.json", Loader.RegularFile "7");
            ("c.json", Loader.RegularFile "{}")]).
  - reflexivity.
  - reflexivity.
  - vm_compute. reflexivity.
Defined.

Lemma load_json_files_first_failure_witness :
  @Loader.load_json_files sample_json sample_fs "broken"
  = Raise JSONDecodeError.
Proof.
  apply (@load_json_files_first_failure sample_json sample_fs "broken"
           [("a.json", Loader.RegularFile "{}")]
           "b.json" (Loader.RegularFile "{oops") [] [VDict []]
           JSONDecodeError).
  - reflexivity.
  - repeat constructor; eexists; split; reflexivity.
  - reflexivity.
  - reflexivity.
Defined.

Lemma load_json_files_one_per_file_witness :
  exists all_products,
    @Loader.load_json_files sample_json object_fs "objects" = Ok all_products /\
    length all_products = length (Loader.json_entries object_entries).
Proof.
  apply (@load_json_files_one_per_file sample_json object_fs "objects"
           object_entries).
  - reflexivity.
  - repeat constructor; exists "{}", []; split; reflexivity.
Defined.

(** *** The image fetcher *)

Lemma derive_filename_shape_witness :
  contains_char "."
    (@Downloader.derive_filename sample_repr "/img/b" (VStr "p1") 1) = true /\
  String.prefix (@str sample_repr (VStr "p1") +:+ "_")
    (@Downloader.derive_filename sample_repr "/img/b" (VStr "p1") 1) = true.
Proof.
  destruct (@derive_filename_shape sample_repr "/img/b" (VStr "p1") 1)
    as [Hdot Hid].
  split; [exact Hdot | apply Hid; reflexivity].
Defined.

Lemma download_image_local_path_witness :
  @Downloader.download_image sample_repr sample_urllib
    (Downloader.Fetched "JPEGDATA") (VStr "http://shop.test/img/a.jpg")
    "images" (VStr "p1") 0
  = ((VStr "http://shop.test/img/a.jpg", "images/p1_a.jpg"),
     [Downloader.MakeDirs "images";
      Downloader.HttpGet "http://shop.test/img/a.jpg";
      Downloader.OpenForWrite "images/p1_a.jpg";
      Downloader.Write "images/p1_a.jpg" "JPEGDATA"]).
Proof.
  apply (proj2 (proj2 (@download_image_local_path sample_repr sample_urllib
                         (Downloader.Fetched "JPEGDATA")
                         (VStr "http://shop.test/img/a.jpg")
                         "images" (VStr "p1") 0%nat))
           "http://shop.test/img/a.jpg" "/img/a.jpg" "JPEGDATA").
  - reflexivity.
  - discriminate.
  - reflexivity.
  - reflexivity.
Defined.

Lemma download_image_calls_witness :
  head (snd (@Downloader.download_image sample_repr sample_urllib
               Downloader.OpenFails (VStr "http://shop.test/img/a.jpg")
               "images" (VStr "p1") 0))
  = Some (Downloader.MakeDirs "images").
Proof.
  apply (proj2 (@download_image_calls sample_repr sample_urllib
                  Downloader.OpenFails (VStr "http://shop.test/img/a.jpg")
                  "images" (VStr "p1") 0%nat)).
  vm_compute. discriminate.
Defined.

Lemma download_image_within_output_dir_witness :
  Downloader.OpenForWrite "images/p1_a.jpg"
  ∈ snd (@Downloader.download_image sample_repr sample_urllib
           (Downloader.Fetched "JPEGDATA") (VStr "http://shop.test/img/a.jpg")
           "images" (VStr "p1") 0) /\
  String.prefix "images" "images/p1_a.jpg" = true.
Proof.
  assert (Hin : Downloader.OpenForWrite "images/p1_a.jpg"
                ∈ snd (@Downloader.download_image sample_repr sample_urllib
                         (Downloader.Fetched "JPEGDATA")
                         (VStr "http://shop.test/img/a.jpg")
                         "images" (VStr "p1") 0)).
  { vm_compute. repeat constructor. }
  split; [exact Hin |].
  apply (@download_image_within_output_dir sample_repr sample_urllib
           (Downloader.Fetched "JPEGDATA") (VStr "http://shop.test/img/a.jpg")
           "images" (VStr "p1") 0%nat eq_refl
           (Downloader.OpenForWrite "images/p1_a.jpg") Hin).
Defined.

Lemma download_product_images_no_workers_witness :
  @Downloader.download_product_images sample_repr sample_urllib first_only
    [flower; gummies] "images" 0
  = (Raise ValueError, []).
Proof.
  apply (@download_product_images_no_workers sample_repr sample_urllib).
  - lia.
  - discriminate.
  - repeat constructor.
Defined.

Lemma download_product_images_one_download_per_url_witness :
  length (snd (@Downloader.download_product_images sample_repr sample_urllib
                 first_only [flower; gummies] "images" 4))
  = sum_list_with (fun p => length (Downloader.urls_of p)) [flower; gummies] /\
  forall n url od product_id i,
    @Downloader.all_tasks "images" [flower; gummies] !! n
    = Some (url, od, product_id, i) ->
    snd (@Downloader.download_product_images sample_repr sample_urllib
           first_only [flower; gummies] "images" 4) !! n
    = Some (snd (@Downloader.download_image sample_repr sample_urllib
                   (first_only n) url od product_id i)).
Proof.
  eapply (@download_product_images_one_download_per_url sample_repr
            sample_urllib first_only [flower; gummies] "images" 4).
  vm_compute. reflexivity.
Defined.


Lemma download_product_images_paths_written_witness :
  exists q paths local_path,
    fst (@Downloader.download_product_images sample_repr sample_urllib
           first_only [flower; gummies] "images" 4) = Ok [q; gummies] /\
    get "local_image_paths" q = Some (VList paths) /\
    paths !! 0%nat = Some (VStr local_path) /\
    (local_path <> "" ->
     exists n calls body,
       snd (@Downloader.download_product_images sample_repr sample_urllib
              first_only [flower; gummies] "images" 4) !! n = Some calls /\
       first_only n = Downloader.Fetched body /\
       Downloader.Write local_path body ∈ calls).
Proof.
  assert (Hok : exists q,
             fst (@Downloader.download_product_images sample_repr
                    sample_urllib first_only [flower; gummies] "images" 4)
             = Ok [q; gummies]).
  { eexists. vm_compute. reflexivity. }
  destruct Hok as [q Hok]. exists q.
  destruct (@download_product_images_paths_written sample_repr sample_urllib
              first_only [flower; gummies] "images" 4 [q; gummies] 0%nat
              flower q 0%nat (VStr "http://shop.test/img/a.jpg") Hok)
    as (paths & local_path & H1 & H2 & H3);
    try reflexivity.
  exists paths, local_path. by repeat split.
Defined.

Lemma download_product_images_all_fail_witness :
  exists products',
    fst (@Downloader.download_product_images sample_repr sample_urllib
           all_down [flower; gummies] "images" 4) = Ok products' /\
    products' = [flower; gummies].
Proof.
  assert (Hok : exists products',
             fst (@Downloader.download_product_images sample_repr
                    sample_urllib all_down [flower; gummies] "images" 4)
             = Ok products').
  { eexists. vm_compute. reflexivity. }
  destruct Hok as [products' Hok]. exists products'. split; [exact Hok |].
  apply (@download_product_images_all_fail sample_repr sample_urllib
           all_down [flower; gummies] "images" 4 products');
    [discriminate | exact Hok].
Defined.


(** *** The flattener *)


Lemma generate_csv_rectangular_witness :
  exists f,
    Generator.files
      (snd (@Generator.generate_csv sample_repr sample_strlib
              [flower; gummies] "out.csv" empty_disk)) !! "out.csv"
    = Some f /\
    length (Generator.header f)
    = (23 + Generator.max_image_count [flower; gummies])%nat /\
    length (Generator.lines f) = length [flower; gummies] /\
    Forall (fun line => length line = length (Generator.header f))
      (Generator.lines f).
Proof.
  apply (@generate_csv_rectangular sample_repr sample_strlib
           [flower; gummies] "out.csv" empty_disk "out.csv").
  by vm_compute.
Defined.

Lemma generate_csv_image_cells_witness :
  exists f,
    Generator.files
      (snd (@Generator.generate_csv sample_repr sample_strlib
              [flower; gummies] "out.csv" empty_disk)) !! "out.csv"
    = Some f /\
    Generator.cell_at f 0 (Generator.image_field (1 + 1))
    = Some (@Generator.cell_text sample_repr (VStr "http://shop.test/img/b")).
Proof.
  apply (@generate_csv_image_cells sample_repr sample_strlib
           [flower; gummies] "out.csv" empty_disk "out.csv" _ 0%nat flower
           [VStr "http://shop.test/img/a.jpg"; VStr "http://shop.test/img/b"]
           1%nat (VStr "http://shop.test/img/b")).
  - by vm_compute.
  - reflexivity.
  - reflexivity.
  - reflexivity.
Defined.

Lemma generate_csv_carried_cells_witness :
  exists f,
    Generator.files
      (snd (@Generator.generate_csv sample_repr sample_strlib
              [priced; gummies] "out.csv" empty_disk)) !! "out.csv"
    = Some f /\
    Generator.cell_at f 0 "brand" = Some "Acme Farms" /\
    Generator.cell_at f 0 "category" = Some "".
Proof.
  assert (Hgen : @Generator.generate_csv sample_repr sample_strlib
                   [priced; gummies] "out.csv" empty_disk
                 = (Ok "out.csv",
                    snd (@Generator.generate_csv sample_repr sample_strlib
                           [priced; gummies] "out.csv" empty_disk))).
  { by vm_compute. }
  destruct (@generate_csv_carried_cells sample_repr sample_strlib
              [priced; gummies] "out.csv" empty_disk "out.csv" _ 0%nat priced
              "brand" Hgen eq_refl) as (f & Hf & Hbrand & _).
  { repeat constructor. }
  destruct (@generate_csv_carried_cells sample_repr sample_strlib
              [priced; gummies] "out.csv" empty_disk "out.csv" _ 0%nat priced
              "category" Hgen eq_refl) as (f' & Hf' & _ & Hcategory).
  { repeat constructor. }
  rewrite Hf in Hf'. inversion Hf'. subst f'.
  exists f. split; [exact Hf |]. split; [exact Hbrand |].
  apply Hcategory. by right.
Defined.

Lemma generate_csv_price_cells_witness :
  exists f,
    Generator.files
      (snd (@Generator.generate_csv sample_repr sample_strlib
              [priced; gummies] "out.csv" empty_disk)) !! "out.csv"
    = Some f /\
    Generator.cell_at f 0 "price_gram"
    = Some (@Generator.price_cell sample_repr "price_gram" priced) /\
    Generator.cell_at f 0 "discounted_price_gram" = Some "".
Proof.
  destruct (@generate_csv_price_cells sample_repr sample_strlib
              [priced; gummies] "out.csv" empty_disk "out.csv"
              (snd (@Generator.generate_csv sample_repr sample_strlib
                      [priced; gummies] "out.csv" empty_disk))
              0%nat priced "gram")
    as (f & Hf & Hprice & Hdisc & Hcell).
  - by vm_compute.
  - reflexivity.
  - repeat constructor.
  - exists f. split; [exact Hf |]. split; [exact Hprice |].
    etransitivity; [exact Hdisc |]. by rewrite Hcell.
Defined.

Lemma generate_csv_thc_cell_witness :
  exists f,
    Generator.files
      (snd (@Generator.generate_csv sample_repr sample_strlib
              [priced; gummies] "out.csv" empty_disk)) !! "out.csv"
    = Some f /\
    Generator.cell_at f 0 "THC_percent" = Some "21.5%" /\
    Generator.cell_at f 1 "THC_percent" = Some "".
Proof.
  assert (Hgen : @Generator.generate_csv sample_repr sample_strlib
                   [priced; gummies] "out.csv" empty_disk
                 = (Ok "out.csv",
                    snd (@Generator.generate_csv sample_repr sample_strlib
                           [priced; gummies] "out.csv" empty_disk))).
  { by vm_compute. }
  destruct (@generate_csv_thc_cell sample_repr sample_strlib
              [priced; gummies] "out.csv" empty_disk "out.csv" _ 0%nat priced
              Hgen eq_refl) as (f & Hf & _ & Hfirst).
  destruct (@generate_csv_thc_cell sample_repr sample_strlib
              [priced; gummies] "out.csv" empty_disk "out.csv" _ 1%nat gummies
              Hgen eq_refl) as (f' & Hf' & Habsent & _).
  rewrite Hf in Hf'. inversion Hf'. subst f'.
  exists f. split; [exact Hf |]. split.
  - apply (Hfirst [("thc_potency", VStr "21.5")] [] (VStr "21.5"));
      reflexivity.
  - apply Habsent. reflexivity.
Defined.

Lemma generate_csv_text_field_not_string_witness :
  exists e,
    @Generator.generate_csv sample_repr sample_strlib [flower; unbranded]
      "out.csv" empty_disk
    = (Raise e, empty_disk).
Proof.
  apply (@generate_csv_text_field_not_string sample_repr sample_strlib
           [flower; unbranded] "out.csv" empty_disk 1%nat unbranded "brand"
           VNone).
  - reflexivity.
  - by left.
  - reflexivity.
  - reflexivity.
Defined.

Lemma generate_csv_derived_cells_witness :
  exists f,
    Generator.files
      (snd (@Generator.generate_csv sample_repr sample_strlib
              [priced; gummies] "out.csv" empty_disk)) !! "out.csv"
    = Some f /\
    Generator.cell_at f 0 "weight_options"
    = Some (Generator.join " - "
              (@Generator.title sample_strlib <$> weights_of priced)) /\
    Generator.cell_at f 0 "tags"
    = Some (Generator.join ", " (discount_labels (specials_of priced))).
Proof.
  apply (@generate_csv_derived_cells sample_repr sample_strlib
           [priced; gummies] "out.csv" empty_disk "out.csv").
  - by vm_compute.
  - reflexivity.
  - reflexivity.
Defined.

(** The derived cells of the sample record. *)
Example derived_cells_sample :
  Generator.join " - " (@Generator.title sample_strlib <$> weights_of priced)
  = "Gram - Eighth Ounce" /\
  Generator.join ", " (discount_labels (specials_of priced))
  = "20% off, BOGO".
Proof. by vm_compute. Qed.

(** *** The scraper *)

Lemma scrape_products_at_most_max_witness :
  (length (@Scraper.scrape_products sample_web "http://shop.test" "/flowers"
             "a.product" sample_selectors 2) <= Z.to_nat 2)%nat /\
  (length (@Scraper.scrape_products sample_web "http://shop.test" "/flowers"
             "a.product" sample_selectors (-1))
   <= length (@Scraper.extract_product_links sample_web "http://shop.test"
                "http://shop.test/flowers" "a.product")
      - Z.to_nat (- -1))%nat.
Proof.
  split.
  - apply (proj1 (@scrape_products_at_most_max sample_web "http://shop.test"
                    "/flowers" "a.product" sample_selectors 2)).
    lia.
  - apply (proj2 (@scrape_products_at_most_max sample_web "http://shop.test"
                    "/flowers" "a.product" sample_selectors (-1))
             "http://shop.test/flowers").
    + reflexivity.
    + lia.
Defined.

Lemma scrape_products_listing_order_witness :
  omap (get "product_url")
    (@Scraper.scrape_products sample_web "http://shop.test" "/flowers"
       "a.product" sample_selectors 100)
  `sublist_of`
  (VStr <$> @Scraper.visited_links sample_web "http://shop.test"
              "http://shop.test/flowers" "a.product" 100) /\
  length (omap (get "product_url")
            (@Scraper.scrape_products sample_web "http://shop.test" "/flowers"
               "a.product" sample_selectors 100))
  = length (@Scraper.scrape_products sample_web "http://shop.test" "/flowers"
              "a.product" sample_selectors 100).
Proof.
  apply (@scrape_products_listing_order sample_web "http://shop.test"
           "/flowers" "a.product" sample_selectors 100
           "http://shop.test/flowers").
  reflexivity.
Defined.

Lemma extract_product_data_selector_raises_witness :
  @Scraper.extract_product_data strict_web "http://shop.test/p/1"
    [("name", "h1"); ("price", "h1[")] = [] /\
  @Scraper.link_yield strict_web "http://shop.test"
    [("name", "h1"); ("price", "h1[")] 1 "http://shop.test/p/1" = [].
Proof.
  destruct (@extract_product_data_selector_raises strict_web
              "http://shop.test" "http://shop.test/p/1"
              [("name", "h1"); ("price", "h1[")] "price" "h1[")
    as [Hdata Hyield].
  - repeat constructor.
  - reflexivity.
  - split; [exact Hdata |]. apply Hyield. reflexivity.
Defined.

Lemma extract_product_data_fields_witness :
  exists selector first others,
    ("name", selector) ∈ sample_selectors /\
    @Scraper.select sample_web "http://shop.test/p/1" selector
    = Some (first :: others) /\
    VStr "Flower"
    = if String.eqb "name" "image_urls"
      then VList (@Scraper.image_sources sample_web (first :: others))
      else VStr (@Scraper.strip sample_web
                   (@Scraper.get_text sample_web first)).
Proof.
  apply (@extract_product_data_fields sample_web "http://shop.test/p/1"
           sample_selectors "name" (VStr "Flower")).
  reflexivity.
Defined.

(** *** The pipeline *)


Lemma process_products_non_object_item_witness :
  exists f,
    @Pipeline.process_products catalogue_json sample_repr sample_urllib
      sample_strlib catalogue_fs first_only (sample_config "odd") empty_disk
    = (Pipeline.Failed f, [], empty_disk).
Proof.
  apply (@process_products_non_object_item catalogue_json sample_repr
           sample_urllib sample_strlib catalogue_fs first_only
           (sample_config "odd") empty_disk [VInt 7] (VInt 7)).
  - reflexivity.
  - repeat constructor.
  - discriminate.
Defined.

Lemma process_products_nothing_loaded_witness :
  @Pipeline.process_products catalogue_json sample_repr sample_urllib
    sample_strlib catalogue_fs first_only (sample_config "bare") empty_disk
  = (Pipeline.Failed (Pipeline.Raised ValueError), [], empty_disk).
Proof.
  apply (@process_products_nothing_loaded catalogue_json sample_repr
           sample_urllib sample_strlib catalogue_fs first_only
           (sample_config "bare") empty_disk
           [("none.json", Loader.RegularFile "nothing")] [VList []]).
  - reflexivity.
  - repeat constructor; eexists; split; reflexivity.
  - repeat constructor.
Defined.

Lemma process_products_image_cells_witness :
  exists f,
    Generator.files
      (snd (@Pipeline.process_products catalogue_json sample_repr
              sample_urllib sample_strlib catalogue_fs first_only
              (sample_config "shop") empty_disk)) !! "out.csv"
    = Some f /\
    Generator.cell_at f 0 (Generator.image_field (0 + 1))
    = Some "images/p1_a.jpg" /\
    Generator.cell_at f 0 (Generator.image_field (1 + 1))
    = Some "http://shop.test/img/b".
Proof.
  assert (Hrun : @Pipeline.process_products catalogue_json sample_repr
                   sample_urllib sample_strlib catalogue_fs first_only
                   (sample_config "shop") empty_disk
                 = (Pipeline.Done tt,
                    snd (fst (@Pipeline.process_products catalogue_json
                                sample_repr sample_urllib sample_strlib
                                catalogue_fs first_only (sample_config "shop")
                                empty_disk)),
                    snd (@Pipeline.process_products catalogue_json
                           sample_repr sample_urllib sample_strlib
                           catalogue_fs first_only (sample_config "shop")
                           empty_disk))).
  { by vm_compute. }
  assert (Htyped : Forall (fun p => Downloader.typed_images p = true)
                     [flower; gummies]) by repeat constructor.
  assert (Hfresh : Forall (fun p => get "local_image_paths" p = None)
                     [flower; gummies]) by repeat constructor.
  pose proof (@process_products_image_cells catalogue_json sample_repr
                sample_urllib sample_strlib catalogue_fs first_only
                (sample_config "shop") empty_disk _ _ [flower; gummies]
                eq_refl eq_refl Htyped Hfresh Hrun)
    as Hcells.
  destruct (Hcells 0%nat flower 0%nat (VStr "http://shop.test/img/a.jpg")
              eq_refl eq_refl) as (f & Hf & Ha).
  destruct (Hcells 0%nat flower 1%nat (VStr "http://shop.test/img/b")
              eq_refl eq_refl) as (f' & Hf' & Hb).
  change (Pipeline.output_csv (sample_config "shop")) with "out.csv" in *.
  rewrite Hf in Hf'. inversion Hf'. subst f'.
  exists f. split; [exact Hf |]. split.
  - rewrite Ha. by vm_compute.
  - rewrite Hb. by vm_compute.
Defined.

